(** * Leaflet.FreeDraw 0.1.14: a shallow embedding of [leaflet.freedraw.js]

    The editor object ([L.FreeDraw]), its options ([L.FreeDraw.Options]) and
    its hull wrapper ([L.FreeDraw.Hull]) are embedded as functions over an
    explicit world: the fields of [this], the objects they refer to (edge
    markers and polygons live in a store, because the script mutates them
    through aliases), the state of the host map, and a log of the calls the
    script makes on its collaborators (Leaflet, d3, the DOM, the user's
    marker callback).  A [throw] is a result of the computation; the world it
    leaves behind is kept, as in JavaScript. *)

From Stdlib Require Import ZArith Lia.
From stdpp Require Import base option list strings gmap sorting.

Open Scope Z_scope.

(** ** Numbers and bit operations *)

(** JavaScript's [&] and [^] work on the operands converted to 32-bit signed
    integers. *)
Definition to_int32 (z : Z) : Z := (z + 2 ^ 31) mod 2 ^ 32 - 2 ^ 31.
Definition js_band (a b : Z) : Z := Z.land (to_int32 a) (to_int32 b).
Definition js_bxor (a b : Z) : Z := Z.lxor (to_int32 a) (to_int32 b).

(** Truthiness of a number that is the result of a bit operation. *)
Definition truthy (z : Z) : bool := negb (z =? 0).

(** ** Geometry values

    The script never computes with coordinates: it hands them to the host and
    stores what it gets back.  Integers stand for the host's numbers. *)
Record LatLng := mkLatLng { lat : Z; lng : Z }.
Record Point := mkPoint { x : Z; y : Z }.

#[global] Instance LatLng_eq_dec : EqDecision LatLng.
Proof. solve_decision. Defined.
#[global] Instance Point_eq_dec : EqDecision Point.
Proof. solve_decision. Defined.

(** Object identity.  Every object the script creates through Leaflet gets a
    fresh reference. *)
Definition ref := nat.

(** ** L.FreeDraw.MODES *)
Module MODES.
Definition VIEW : Z := 1.
Definition CREATE : Z := 2.
Definition EDIT : Z := 4.
Definition DELETE : Z := 8.
Definition ALL : Z := Z.lor (Z.lor (Z.lor 1 2) 4) 8.
End MODES.

(** ** Values handed to [setMarkers] *)

(** An entry of the [markers] array: an instance of [L.LatLng] or anything
    else. *)
Inductive JsEntry :=
| EntryLatLng (ll : LatLng)
| EntryOther (description : string).

(** The first argument of [setMarkers]: a falsy value or an array. *)
Inductive MarkersArg :=
| MarkersFalsy
| MarkersArray (entries : list JsEntry).

(** The second argument of [setMarkers]: not passed (or [undefined]), an
    instance of [L.DivIcon], or any other value ([null] included). *)
Inductive IconArg :=
| IconUndefined
| IconDivIcon (className : string)
| IconOther (description : string).

(** What a function without a [return] statement gives back, next to the
    booleans a caller might test for. *)
Inductive JsValue :=
| JsUndefined
| JsBool (b : bool).

Definition js_truthy (v : JsValue) : bool :=
  match v with JsUndefined => false | JsBool b => b end.

(** ** Objects *)

(** An edge marker, with the properties [attachEdges] adds to it. *)
Record Marker := mkMarker {
  _polygon : ref;
  _polygonId : Z;
  _index : nat;
  _length : nat;
  _latlng : LatLng
}.

(** A polygon: the points it was constructed from, the [_latlngs] the script
    overwrites, the rendered [_parts[0]] ([None] is [undefined]: Leaflet
    keeps no part it rendered nothing for), whether its [_container] is in
    the document and how many click handlers were registered. *)
Record Polygon := mkPolygon {
  _leaflet_id : Z;
  constructed_from : list LatLng;
  _latlngs : list LatLng;
  _parts : option (list Point);
  _container : bool;
  click_handlers : nat
}.

(** A layer group of plain markers, each with its options' icon. *)
Record LayerGroup := mkLayerGroup {
  lg_id : ref;
  lg_layers : list (LatLng * option string)
}.

(** The d3 tracer: its class and the line data of every path appended. *)
Record Svg := mkSvg {
  svg_class : string;
  svg_paths : list (Point * Point)
}.

(** The host map as far as the script touches it: the four handlers
    ([true] is enabled), the container's class list and the layers added. *)
Record LMap := mkLMap {
  dragging : bool;
  touchZoom : bool;
  doubleClickZoom : bool;
  scrollWheelZoom : bool;
  classList : list string;
  layers : list ref
}.

(** ** The collaborators' functions *)
Class Leaflet := {
  containerPointToLatLng : Point -> LatLng;
  layerPointToLatLng : Point -> LatLng;
  latLngToContainerPoint : LatLng -> Point;
  (** [_parts[0]] of a polygon constructed with the given [smoothFactor]
      from the given points and added to the map; [None] where [_parts] has
      no first element. *)
  polygon_parts : Z -> list LatLng -> option (list Point);
  (** [ConvexHullGrahamScan#getHull] after [addPoint] of every point. *)
  getHull : list Point -> list Point;
  (** [new ConcaveHull(latLngs).getLatLngs()]. *)
  getLatLngs : list LatLng -> list LatLng
}.

(** ** L.FreeDraw.Options *)

(** The methods of [L.FreeDraw.Hull] the table [hullAlgorithms] names. *)
Inductive HullMethod := brian3kbGrahamScan | wildhoneyConcaveHull.

(** The property [hullAlgorithm]: [false] on the prototype, afterwards
    whatever [setHullAlgorithm] read from the table, a method name or
    [undefined]. *)
Inductive HullAlgorithm :=
| HullFalse
| HullUndefined
| HullName (m : HullMethod).

(** The argument of [setHullAlgorithm], a string or a boolean. *)
Inductive AlgorithmArg :=
| AlgBool (b : bool)
| AlgString (s : string).

(** A JavaScript array of arrays of points; [None] is a hole. *)
Definition Boundaries := list (option (list LatLng)).

(** The user's callback [markersFn(latLngs, setMarkers)]: the arguments of
    each call of [setMarkers] it makes before it returns.  Calls it makes
    later are calls of [setMarkers] from outside. *)
Definition MarkersFn := Boundaries -> list (MarkersArg * IconArg).

Record Options := mkOptions {
  multiplePolygons : bool;
  hullAlgorithm : HullAlgorithm;
  boundariesAfterEdit : bool;
  createExitMode : bool;
  markersFn : MarkersFn;
  hullAlgorithms : gmap string HullMethod;
  svgClassName : string;
  smoothFactor : Z;
  iconClassName : string
}.

(** ** The log of calls on collaborators *)
Inductive Event :=
| ConsoleError (text : string)
| NewPolygon (polygon : ref) (latLngs : list LatLng)
| ContainerRemove (polygon : ref)
| IconRemove (edge : ref)
| CallMarkersFn (latLngs : Boundaries)
| Redraw (polygon : ref).

(** ** The world

    [edges] is what [this.edges] evaluates to.  The array [edges: []] is a
    property of [L.FreeDraw.prototype]: an editor that has not assigned to
    [this.edges] reads and pushes to that one array, which every other
    editor that has not assigned either shares.  [proto_edges] is [None]
    while [this.edges] is the prototype's array, and afterwards holds what
    the prototype's array had when [this.edges] was first assigned. *)
Record World := mkWorld {
  (* the properties of [this] *)
  map_ : option LMap;
  svg : option Svg;
  creating : bool;
  latLngs : list LatLng;
  options : Options;
  markerLayer : LayerGroup;
  hull_map : bool;
  edges : list ref;
  proto_edges : option (list ref);
  mode : Z;
  fromPoint : Point;
  movingEdge : option ref;
  boundaryUpdateRequired : bool;
  (* the objects referred to *)
  markers : gmap ref Marker;
  polygons : gmap ref Polygon;
  lastId : ref;
  (* what the collaborators were asked to do *)
  log : list Event
}.

(** Assignments to one field. *)
Definition set_map v (w : World) : World :=
  {| map_ := v; svg := svg w; creating := creating w; latLngs := latLngs w; options := options w; markerLayer := markerLayer w; hull_map := hull_map w; edges := edges w; proto_edges := proto_edges w; mode := mode w; fromPoint := fromPoint w; movingEdge := movingEdge w; boundaryUpdateRequired := boundaryUpdateRequired w; markers := markers w; polygons := polygons w; lastId := lastId w; log := log w |}.
Definition set_svg v (w : World) : World :=
  {| map_ := map_ w; svg := v; creating := creating w; latLngs := latLngs w; options := options w; markerLayer := markerLayer w; hull_map := hull_map w; edges := edges w; proto_edges := proto_edges w; mode := mode w; fromPoint := fromPoint w; movingEdge := movingEdge w; boundaryUpdateRequired := boundaryUpdateRequired w; markers := markers w; polygons := polygons w; lastId := lastId w; log := log w |}.
Definition set_creating v (w : World) : World :=
  {| map_ := map_ w; svg := svg w; creating := v; latLngs := latLngs w; options := options w; markerLayer := markerLayer w; hull_map := hull_map w; edges := edges w; proto_edges := proto_edges w; mode := mode w; fromPoint := fromPoint w; movingEdge := movingEdge w; boundaryUpdateRequired := boundaryUpdateRequired w; markers := markers w; polygons := polygons w; lastId := lastId w; log := log w |}.
Definition set_latLngs v (w : World) : World :=
  {| map_ := map_ w; svg := svg w; creating := creating w; latLngs := v; options := options w; markerLayer := markerLayer w; hull_map := hull_map w; edges := edges w; proto_edges := proto_edges w; mode := mode w; fromPoint := fromPoint w; movingEdge := movingEdge w; boundaryUpdateRequired := boundaryUpdateRequired w; markers := markers w; polygons := polygons w; lastId := lastId w; log := log w |}.
Definition set_options v (w : World) : World :=
  {| map_ := map_ w; svg := svg w; creating := creating w; latLngs := latLngs w; options := v; markerLayer := markerLayer w; hull_map := hull_map w; edges := edges w; proto_edges := proto_edges w; mode := mode w; fromPoint := fromPoint w; movingEdge := movingEdge w; boundaryUpdateRequired := boundaryUpdateRequired w; markers := markers w; polygons := polygons w; lastId := lastId w; log := log w |}.
Definition set_markerLayer v (w : World) : World :=
  {| map_ := map_ w; svg := svg w; creating := creating w; latLngs := latLngs w; options := options w; markerLayer := v; hull_map := hull_map w; edges := edges w; proto_edges := proto_edges w; mode := mode w; fromPoint := fromPoint w; movingEdge := movingEdge w; boundaryUpdateRequired := boundaryUpdateRequired w; markers := markers w; polygons := polygons w; lastId := lastId w; log := log w |}.
Definition set_hull_map v (w : World) : World :=
  {| map_ := map_ w; svg := svg w; creating := creating w; latLngs := latLngs w; options := options w; markerLayer := markerLayer w; hull_map := v; edges := edges w; proto_edges := proto_edges w; mode := mode w; fromPoint := fromPoint w; movingEdge := movingEdge w; boundaryUpdateRequired := boundaryUpdateRequired w; markers := markers w; polygons := polygons w; lastId := lastId w; log := log w |}.
Definition set_edges v (w : World) : World :=
  {| map_ := map_ w; svg := svg w; creating := creating w; latLngs := latLngs w; options := options w; markerLayer := markerLayer w; hull_map := hull_map w; edges := v; proto_edges := proto_edges w; mode := mode w; fromPoint := fromPoint w; movingEdge := movingEdge w; boundaryUpdateRequired := boundaryUpdateRequired w; markers := markers w; polygons := polygons w; lastId := lastId w; log := log w |}.
Definition set_proto_edges v (w : World) : World :=
  {| map_ := map_ w; svg := svg w; creating := creating w; latLngs := latLngs w; options := options w; markerLayer := markerLayer w; hull_map := hull_map w; edges := edges w; proto_edges := v; mode := mode w; fromPoint := fromPoint w; movingEdge := movingEdge w; boundaryUpdateRequired := boundaryUpdateRequired w; markers := markers w; polygons := polygons w; lastId := lastId w; log := log w |}.
Definition set_mode v (w : World) : World :=
  {| map_ := map_ w; svg := svg w; creating := creating w; latLngs := latLngs w; options := options w; markerLayer := markerLayer w; hull_map := hull_map w; edges := edges w; proto_edges := proto_edges w; mode := v; fromPoint := fromPoint w; movingEdge := movingEdge w; boundaryUpdateRequired := boundaryUpdateRequired w; markers := markers w; polygons := polygons w; lastId := lastId w; log := log w |}.
Definition set_fromPoint v (w : World) : World :=
  {| map_ := map_ w; svg := svg w; creating := creating w; latLngs := latLngs w; options := options w; markerLayer := markerLayer w; hull_map := hull_map w; edges := edges w; proto_edges := proto_edges w; mode := mode w; fromPoint := v; movingEdge := movingEdge w; boundaryUpdateRequired := boundaryUpdateRequired w; markers := markers w; polygons := polygons w; lastId := lastId w; log := log w |}.
Definition set_movingEdge v (w : World) : World :=
  {| map_ := map_ w; svg := svg w; creating := creating w; latLngs := latLngs w; options := options w; markerLayer := markerLayer w; hull_map := hull_map w; edges := edges w; proto_edges := proto_edges w; mode := mode w; fromPoint := fromPoint w; movingEdge := v; boundaryUpdateRequired := boundaryUpdateRequired w; markers := markers w; polygons := polygons w; lastId := lastId w; log := log w |}.
Definition set_boundaryUpdateRequired v (w : World) : World :=
  {| map_ := map_ w; svg := svg w; creating := creating w; latLngs := latLngs w; options := options w; markerLayer := markerLayer w; hull_map := hull_map w; edges := edges w; proto_edges := proto_edges w; mode := mode w; fromPoint := fromPoint w; movingEdge := movingEdge w; boundaryUpdateRequired := v; markers := markers w; polygons := polygons w; lastId := lastId w; log := log w |}.
Definition set_markers v (w : World) : World :=
  {| map_ := map_ w; svg := svg w; creating := creating w; latLngs := latLngs w; options := options w; markerLayer := markerLayer w; hull_map := hull_map w; edges := edges w; proto_edges := proto_edges w; mode := mode w; fromPoint := fromPoint w; movingEdge := movingEdge w; boundaryUpdateRequired := boundaryUpdateRequired w; markers := v; polygons := polygons w; lastId := lastId w; log := log w |}.
Definition set_polygons v (w : World) : World :=
  {| map_ := map_ w; svg := svg w; creating := creating w; latLngs := latLngs w; options := options w; markerLayer := markerLayer w; hull_map := hull_map w; edges := edges w; proto_edges := proto_edges w; mode := mode w; fromPoint := fromPoint w; movingEdge := movingEdge w; boundaryUpdateRequired := boundaryUpdateRequired w; markers := markers w; polygons := v; lastId := lastId w; log := log w |}.
Definition set_lastId v (w : World) : World :=
  {| map_ := map_ w; svg := svg w; creating := creating w; latLngs := latLngs w; options := options w; markerLayer := markerLayer w; hull_map := hull_map w; edges := edges w; proto_edges := proto_edges w; mode := mode w; fromPoint := fromPoint w; movingEdge := movingEdge w; boundaryUpdateRequired := boundaryUpdateRequired w; markers := markers w; polygons := polygons w; lastId := v; log := log w |}.
Definition set_log v (w : World) : World :=
  {| map_ := map_ w; svg := svg w; creating := creating w; latLngs := latLngs w; options := options w; markerLayer := markerLayer w; hull_map := hull_map w; edges := edges w; proto_edges := proto_edges w; mode := mode w; fromPoint := fromPoint w; movingEdge := movingEdge w; boundaryUpdateRequired := boundaryUpdateRequired w; markers := markers w; polygons := polygons w; lastId := lastId w; log := v |}.
Definition opt_multiplePolygons v (o : Options) : Options :=
  {| multiplePolygons := v; hullAlgorithm := hullAlgorithm o; boundariesAfterEdit := boundariesAfterEdit o; createExitMode := createExitMode o; markersFn := markersFn o; hullAlgorithms := hullAlgorithms o; svgClassName := svgClassName o; smoothFactor := smoothFactor o; iconClassName := iconClassName o |}.
Definition opt_hullAlgorithm v (o : Options) : Options :=
  {| multiplePolygons := multiplePolygons o; hullAlgorithm := v; boundariesAfterEdit := boundariesAfterEdit o; createExitMode := createExitMode o; markersFn := markersFn o; hullAlgorithms := hullAlgorithms o; svgClassName := svgClassName o; smoothFactor := smoothFactor o; iconClassName := iconClassName o |}.
Definition opt_boundariesAfterEdit v (o : Options) : Options :=
  {| multiplePolygons := multiplePolygons o; hullAlgorithm := hullAlgorithm o; boundariesAfterEdit := v; createExitMode := createExitMode o; markersFn := markersFn o; hullAlgorithms := hullAlgorithms o; svgClassName := svgClassName o; smoothFactor := smoothFactor o; iconClassName := iconClassName o |}.
Definition opt_createExitMode v (o : Options) : Options :=
  {| multiplePolygons := multiplePolygons o; hullAlgorithm := hullAlgorithm o; boundariesAfterEdit := boundariesAfterEdit o; createExitMode := v; markersFn := markersFn o; hullAlgorithms := hullAlgorithms o; svgClassName := svgClassName o; smoothFactor := smoothFactor o; iconClassName := iconClassName o |}.
Definition opt_markersFn v (o : Options) : Options :=
  {| multiplePolygons := multiplePolygons o; hullAlgorithm := hullAlgorithm o; boundariesAfterEdit := boundariesAfterEdit o; createExitMode := createExitMode o; markersFn := v; hullAlgorithms := hullAlgorithms o; svgClassName := svgClassName o; smoothFactor := smoothFactor o; iconClassName := iconClassName o |}.
Definition opt_hullAlgorithms v (o : Options) : Options :=
  {| multiplePolygons := multiplePolygons o; hullAlgorithm := hullAlgorithm o; boundariesAfterEdit := boundariesAfterEdit o; createExitMode := createExitMode o; markersFn := markersFn o; hullAlgorithms := v; svgClassName := svgClassName o; smoothFactor := smoothFactor o; iconClassName := iconClassName o |}.
Definition opt_svgClassName v (o : Options) : Options :=
  {| multiplePolygons := multiplePolygons o; hullAlgorithm := hullAlgorithm o; boundariesAfterEdit := boundariesAfterEdit o; createExitMode := createExitMode o; markersFn := markersFn o; hullAlgorithms := hullAlgorithms o; svgClassName := v; smoothFactor := smoothFactor o; iconClassName := iconClassName o |}.
Definition opt_smoothFactor v (o : Options) : Options :=
  {| multiplePolygons := multiplePolygons o; hullAlgorithm := hullAlgorithm o; boundariesAfterEdit := boundariesAfterEdit o; createExitMode := createExitMode o; markersFn := markersFn o; hullAlgorithms := hullAlgorithms o; svgClassName := svgClassName o; smoothFactor := v; iconClassName := iconClassName o |}.
Definition opt_iconClassName v (o : Options) : Options :=
  {| multiplePolygons := multiplePolygons o; hullAlgorithm := hullAlgorithm o; boundariesAfterEdit := boundariesAfterEdit o; createExitMode := createExitMode o; markersFn := markersFn o; hullAlgorithms := hullAlgorithms o; svgClassName := svgClassName o; smoothFactor := smoothFactor o; iconClassName := v |}.

(** ** Computations that may throw *)

Inductive Exn :=
| Message (text : string)
| TypeError (text : string).

Inductive Outcome (A : Type) :=
| Returned (a : A)
| Thrown (e : Exn).
Arguments Returned {A} a.
Arguments Thrown {A} e.

(** A statement: from a world to an outcome and the world left behind. *)
Definition M (A : Type) : Type := World -> Outcome A * World.

Definition ret {A} (a : A) : M A := fun w => (Returned a, w).
Definition throw {A} (e : Exn) : M A := fun w => (Thrown e, w).
Definition bind {A B} (m : M A) (k : A -> M B) : M B :=
  fun w =>
    match m w with
    | (Returned a, w') => k a w'
    | (Thrown e, w') => (Thrown e, w')
    end.
Definition get : M World := fun w => (Returned w, w).
Definition modify (f : World -> World) : M unit := fun w => (Returned tt, f w).

Notation "'do' x <- m ; k" := (bind m (fun x => k))
  (at level 10, x name, m at level 100, k at level 200).
Notation "m ;; k" := (bind m (fun _ => k))
  (at level 100, k at level 200, right associativity).

Definition when (b : bool) (m : M unit) : M unit := if b then m else ret tt.

(** [Array.prototype.forEach]. *)
Fixpoint forEach {A} (f : A -> M unit) (l : list A) : M unit :=
  match l with
  | [] => ret tt
  | a :: l' => f a ;; forEach f l'
  end.

(** [Array.prototype.filter] with a callback that has effects: an element is
    kept when the callback's value is truthy. *)
Fixpoint filterM {A} (f : A -> M JsValue) (l : list A) : M (list A) :=
  match l with
  | [] => ret []
  | a :: l' =>
      do v <- f a;
      do rest <- filterM f l';
      ret (if js_truthy v then a :: rest else rest)
  end.

Definition emit (e : Event) : M unit := modify (fun w => set_log (log w ++ [e]) w).

(** [L.stamp] and object creation: the next fresh reference. *)
Definition fresh : M ref :=
  fun w => (Returned (S (lastId w)), set_lastId (S (lastId w)) w).

(** Reading an object through a reference.  A reference the script holds
    always denotes an object; the default only makes the reading total. *)
Definition no_marker : Marker := mkMarker 0%nat 0 0%nat 0%nat (mkLatLng 0 0).
Definition no_polygon : Polygon := mkPolygon 0 [] [] None false 0%nat.
Definition marker_at (w : World) (r : ref) : Marker := default no_marker (markers w !! r).
Definition polygon_at (w : World) (p : ref) : Polygon := default no_polygon (polygons w !! p).

(** [this.map.f(...)]: a [TypeError] while [this.map] is [null]. *)
Definition with_map (f : LMap -> LMap) : M unit :=
  fun w =>
    match map_ w with
    | None => (Thrown (TypeError "this.map is null"), w)
    | Some m => (Returned tt, set_map (Some (f m)) w)
    end.

(** ** JavaScript arrays with holes *)

Definition js_get {A} (l : list (option A)) (i : Z) : option A :=
  if i <? 0 then None else mjoin (l !! Z.to_nat i).

Fixpoint js_put {A} (i : nat) (v : A) (l : list (option A)) : list (option A) :=
  match i, l with
  | O, [] => [Some v]
  | O, _ :: t => Some v :: t
  | S i', [] => None :: js_put i' v []
  | S i', h :: t => h :: js_put i' v t
  end.

(** [l[i] = v].  A negative [i] names a property that is not an element, so
    the elements stay as they are. *)
Definition js_set {A} (l : list (option A)) (i : Z) (v : A) : list (option A) :=
  if i <? 0 then l else js_put (Z.to_nat i) v l.

(** [l[i].push(v)]; it changes the elements only where [l[i]] is one of
    them. *)
Definition js_push_at {A} (l : list (option (list A))) (i : Z) (v : A) :
  list (option (list A)) :=
  match js_get l i with
  | Some inner => js_set l i (inner ++ [v])
  | None => l
  end.

(** ** DOMTokenList *)
Definition classList_remove (c : string) (l : list string) : list string :=
  filter (fun c' => c' ≠ c) l.
Definition classList_add (c : string) (l : list string) : list string :=
  if decide (c ∈ l) then l else l ++ [c].

(** Changes of the host map. *)
Definition set_handlers (enabled : bool) (m : LMap) : LMap :=
  {| dragging := enabled; touchZoom := enabled; doubleClickZoom := enabled;
     scrollWheelZoom := enabled; classList := classList m; layers := layers m |}.
Definition set_classList (l : list string) (m : LMap) : LMap :=
  {| dragging := dragging m; touchZoom := touchZoom m;
     doubleClickZoom := doubleClickZoom m; scrollWheelZoom := scrollWheelZoom m;
     classList := l; layers := layers m |}.
Definition set_layers (l : list ref) (m : LMap) : LMap :=
  {| dragging := dragging m; touchZoom := touchZoom m;
     doubleClickZoom := doubleClickZoom m; scrollWheelZoom := scrollWheelZoom m;
     classList := classList m; layers := l |}.

(** [map.addLayer] and [map.removeLayer]. *)
Definition addLayer (r : ref) (m : LMap) : LMap :=
  if decide (r ∈ layers m) then m else set_layers (layers m ++ [r]) m.
Definition removeLayer (r : ref) (m : LMap) : LMap :=
  set_layers (filter (fun r' => r' ≠ r) (layers m)) m.

(** Changes of one object in the store. *)
Definition marker_setLatLng (ll : LatLng) (m : Marker) : Marker :=
  {| _polygon := _polygon m; _polygonId := _polygonId m; _index := _index m;
     _length := _length m; _latlng := ll |}.
Definition polygon_set_latlngs (l : list LatLng) (p : Polygon) : Polygon :=
  {| _leaflet_id := _leaflet_id p; constructed_from := constructed_from p;
     _latlngs := l; _parts := _parts p; _container := _container p;
     click_handlers := click_handlers p |}.
Definition polygon_remove_container (p : Polygon) : Polygon :=
  {| _leaflet_id := _leaflet_id p; constructed_from := constructed_from p;
     _latlngs := _latlngs p; _parts := _parts p; _container := false;
     click_handlers := click_handlers p |}.
Definition polygon_on_click (p : Polygon) : Polygon :=
  {| _leaflet_id := _leaflet_id p; constructed_from := constructed_from p;
     _latlngs := _latlngs p; _parts := _parts p; _container := _container p;
     click_handlers := S (click_handlers p) |}.
Definition layerGroup_addLayer (l : LatLng * option string) (g : LayerGroup) : LayerGroup :=
  {| lg_id := lg_id g; lg_layers := lg_layers g ++ [l] |}.

(** ** The script *)

(** [throwException(message, path)] *)
Definition throwException {A} (message : string) (path : option string) : M A :=
  match path with
  | Some p =>
      when (negb (String.eqb p ""))
        (emit (ConsoleError
          (String.append
             "See: https://github.com/Wildhoney/Leaflet.FreeDraw/blob/master/EXCEPTIONS.md#" p)))
  | None => ret tt
  end ;;
  throw (Message (String.append "Leaflet.FreeDraw: " (String.append message "."))).

(** The grouping loop of [notifyBoundaries]: the body of its [forEach], on
    the variables [latLngs], [last] and [index] it closes over. *)
Definition group_edge (acc : Boundaries * option Z * Z) (edge : Marker) :
  Boundaries * option Z * Z :=
  let '(latLngs, last, index) := acc in
  let index := if decide (Some (_polygonId edge) = last) then index else index + 1 in
  let latLngs :=
    match js_get latLngs index with
    | None => js_set latLngs index []
    | Some _ => latLngs
    end in
  (js_push_at latLngs index (_latlng edge), Some (_polygonId edge), index).

Definition group_edges (ms : list Marker) : Boundaries :=
  (fold_left group_edge ms ([], None, -1)).1.1.

Section Script.
Context `{host : Leaflet}.

(** [setMarkers(markers, divIcon)] *)
Definition setMarkers (markers_arg : MarkersArg) (divIcon : IconArg) : M unit :=
  match divIcon with
  | IconOther _ =>
      throwException "Second argument must be an instance of L.DivIcon" None
  | _ => ret tt
  end ;;
  do w <- get;
  with_map (removeLayer (lg_id (markerLayer w))) ;;
  do group <- fresh;
  modify (set_markerLayer (mkLayerGroup group [])) ;;
  with_map (addLayer group) ;;
  match markers_arg with
  | MarkersFalsy => ret tt
  | MarkersArray [] => ret tt
  | MarkersArray entries =>
      let icon := match divIcon with IconDivIcon c => Some c | _ => None end in
      forEach (fun entry =>
        match entry with
        | EntryOther _ =>
            throwException "Supplied markers must be instances of L.LatLng" None
        | EntryLatLng ll =>
            modify (fun w => set_markerLayer (layerGroup_addLayer (ll, icon) (markerLayer w)) w)
        end) entries
  end.

(** [notifyBoundaries()] *)
Definition notifyBoundaries : M unit :=
  do w <- get;
  let latLngs := group_edges (marker_at w <$> edges w) in
  emit (CallMarkersFn latLngs) ;;
  forEach (fun call => setMarkers call.1 call.2) (markersFn (options w) latLngs).

(** [setMode(mode)] *)
Definition defineClasses (mode : Z) (classList : list string) : list string :=
  let classList := classList_remove "mode-create" classList in
  let classList := classList_remove "mode-edit" classList in
  let classList := classList_remove "mode-delete" classList in
  let classList := classList_remove "mode-view" classList in
  let classList :=
    if truthy (js_band mode MODES.CREATE) then classList_add "mode-create" classList
    else classList in
  let classList :=
    if truthy (js_band mode MODES.EDIT) then classList_add "mode-edit" classList
    else classList in
  let classList :=
    if truthy (js_band mode MODES.DELETE) then classList_add "mode-delete" classList
    else classList in
  if truthy (js_band mode MODES.VIEW) then classList_add "mode-view" classList
  else classList.

Definition setMode (mode' : Z) : M unit :=
  let isCreate := truthy (js_band mode' MODES.CREATE) in
  let method := negb isCreate in
  modify (set_mode mode') ;;
  do w <- get;
  match map_ w with
  | None => ret tt
  | Some _ =>
      when (boundaryUpdateRequired w && negb (truthy (js_band (mode w) MODES.EDIT)))
        (notifyBoundaries ;; modify (set_boundaryUpdateRequired false)) ;;
      with_map (set_handlers method) ;;
      with_map (fun m => set_classList (defineClasses mode' (classList m)) m)
  end.

(** [createD3()] and [destroyD3()] *)
Definition createD3 : M unit :=
  modify (fun w => set_svg (Some (mkSvg (svgClassName (options w)) [])) w).

Definition destroyD3 : M unit :=
  do w <- get;
  match svg w with
  | None => throw (TypeError "this.svg.remove is not a function")
  | Some _ => modify (set_svg None)
  end.

(** [attachEdges(polygon)].  Where [polygon._parts[0]] is [undefined] the
    call of [parts.forEach] is a [TypeError]. *)
Definition attachEdges (polygon : ref) : M unit :=
  do w <- get;
  match _parts (polygon_at w polygon) with
  | None => throw (TypeError "parts is undefined")
  | Some parts =>
      forEach (fun part : nat * Point =>
        let '(index, point) := part in
        do w <- get;
        match map_ w with
        | None => throw (TypeError "this.map is null")
        | Some _ =>
            let latLng := layerPointToLatLng point in
            do edge <- fresh;
            with_map (addLayer edge) ;;
            modify (fun w =>
              set_markers
                (<[edge := mkMarker polygon (_leaflet_id (polygon_at w polygon))
                             index (length parts) latLng]> (markers w)) w) ;;
            modify (fun w => set_edges (edges w ++ [edge]) w)
        end) (imap pair parts)
  end.

(** [createPolygon(latLngs)] *)
Definition createPolygon (latLngs' : list LatLng) : M ref :=
  destroyD3 ;;
  createD3 ;;
  do polygon <- fresh;
  emit (NewPolygon polygon latLngs') ;;
  with_map (addLayer polygon) ;;
  modify (fun w =>
    set_polygons
      (<[polygon := mkPolygon (Z.of_nat polygon) latLngs' []
                      (polygon_parts (smoothFactor (options w)) latLngs')
                      true 0%nat]> (polygons w)) w) ;;
  attachEdges polygon ;;
  do w <- get;
  match _parts (polygon_at w polygon) with
  | None => throw (TypeError "polygon._parts[0] is undefined")
  | Some parts =>
      modify (fun w =>
        set_polygons
          (alter (polygon_set_latlngs (containerPointToLatLng <$> parts))
             polygon (polygons w)) w)
  end ;;
  notifyBoundaries ;;
  ret polygon.

(** The array on the prototype, and the assignment [this.edges = v], which
    leaves that array as it is. *)
Definition prototype_edges (w : World) : list ref :=
  default (edges w) (proto_edges w).
Definition assign_edges (v : list ref) (w : World) : World :=
  set_edges v (set_proto_edges (Some (prototype_edges w)) w).

(** [destroyPolygon(polygon)] *)
Definition destroyPolygon (polygon : ref) : M JsValue :=
  modify (fun w => set_polygons (alter polygon_remove_container polygon (polygons w)) w) ;;
  emit (ContainerRemove polygon) ;;
  do w <- get;
  do kept <- filterM (fun edge =>
               do w <- get;
               if decide (_polygon (marker_at w edge) ≠ polygon)
               then ret (JsBool true)
               else emit (IconRemove edge) ;; ret JsUndefined) (edges w);
  modify (assign_edges kept) ;;
  notifyBoundaries ;;
  ret JsUndefined.

(** [clearPolygons()].  [forEach] walks the array [this.edges] referred to
    when it started; [destroyPolygon] assigns new arrays to [this.edges]
    and leaves that one alone. *)
Definition clearPolygons : M unit :=
  do w <- get;
  forEach (fun edge =>
    do w <- get;
    destroyPolygon (_polygon (marker_at w edge)) ;; ret tt) (edges w) ;;
  notifyBoundaries.

(** [updatePolygonEdge(edge, posX, posY)] *)
Definition updatePolygonEdge (edge : ref) (posX posY : Z) : M unit :=
  do w <- get;
  match map_ w with
  | None => throw (TypeError "this.map is null")
  | Some _ =>
      let updatedLatLng := containerPointToLatLng (mkPoint posX posY) in
      modify (fun w =>
        set_markers (alter (marker_setLatLng updatedLatLng) edge (markers w)) w) ;;
      do w <- get;
      let polygon := _polygon (marker_at w edge) in
      let edges' :=
        filter (fun marker => _polygon (marker_at w marker) = polygon) (edges w) in
      let updatedLatLngs := (fun marker => _latlng (marker_at w marker)) <$> edges' in
      modify (fun w =>
        set_polygons (alter (polygon_set_latlngs updatedLatLngs) polygon (polygons w)) w) ;;
      emit (Redraw polygon)
  end.
End Script.

Section Handlers.
Context `{host : Leaflet}.

(** *** L.FreeDraw.Hull *)

(** [setMap(map)] *)
Definition setMap : M unit := modify (set_hull_map true).

(** [brian3kbGrahamScan(latLngs)].  With an empty hull
    [resolvedPoints[0]] is [undefined], which [containerPointToLatLng]
    cannot read. *)
Definition hull_brian3kbGrahamScan (latLngs' : list LatLng) : M (list LatLng) :=
  let points := latLngToContainerPoint <$> latLngs' in
  let hullPoints := getHull points in
  let resolvedPoints := (fun hullPoint => mkPoint (x hullPoint) (y hullPoint)) <$> hullPoints in
  match resolvedPoints with
  | [] => throw (TypeError "point is undefined")
  | first :: _ => ret (containerPointToLatLng <$> (resolvedPoints ++ [first]))
  end.

(** [wildhoneyConcaveHull(latLngs)].  Its only caller passes
    [this.latLngs], and the [push] changes that array. *)
Definition hull_wildhoneyConcaveHull : M (list LatLng) :=
  do w <- get;
  match latLngs w with
  | [] => throw (TypeError "latLngs[0] is undefined")
  | first :: _ =>
      modify (set_latLngs (latLngs w ++ [first])) ;;
      ret (getLatLngs (latLngs w ++ [first]))
  end.

(** [this.hull[name](this.latLngs)] *)
Definition hull_call (name : HullMethod) : M (list LatLng) :=
  match name with
  | brian3kbGrahamScan => do w <- get; hull_brian3kbGrahamScan (latLngs w)
  | wildhoneyConcaveHull => hull_wildhoneyConcaveHull
  end.

(** *** The handlers of the map's events *)

(** The handler [polygon.on('click', ...)] registers. *)
Definition onClick (polygon : ref) : M unit :=
  do w <- get;
  if truthy (js_band (mode w) MODES.DELETE)
  then destroyPolygon polygon ;; ret tt
  else ret tt.

(** [_createMouseUp()] *)
Definition _createMouseUp : M unit :=
  modify (set_creating false) ;;
  do w <- get;
  match latLngs w with
  | first :: _ :: _ :: _ =>
      do hullLatLngs <-
        match hullAlgorithm (options w) with
        | HullName name =>
            setMap ;;
            do reduced <- hull_call name;
            ret (Some reduced)
        | _ => ret None
        end;
      modify (fun w => set_latLngs (latLngs w ++ [first]) w) ;;
      do w <- get;
      do polygon <- createPolygon (default (latLngs w) hullLatLngs);
      modify (set_latLngs []) ;;
      modify (fun w => set_polygons (alter polygon_on_click polygon (polygons w)) w) ;;
      do w <- get;
      when (createExitMode (options w)) (setMode (js_bxor (mode w) MODES.CREATE))
  | _ => ret tt
  end.

(** [_createMouseMove(event)] *)
Definition _createMouseMove (clientX clientY : Z) : M unit :=
  do w <- get;
  match map_ w, svg w with
  | None, _ => throw (TypeError "this.map is null")
  | Some _, None => throw (TypeError "this.svg.append is not a function")
  | Some _, Some tracer =>
      let latLng := containerPointToLatLng (mkPoint clientX clientY) in
      let lineData := (fromPoint w, mkPoint clientX clientY) in
      modify (set_svg (Some (mkSvg (svg_class tracer) (svg_paths tracer ++ [lineData])))) ;;
      modify (set_fromPoint (mkPoint clientX clientY)) ;;
      modify (fun w => set_latLngs (latLngs w ++ [latLng]) w)
  end.

(** [_editMouseMove(event)]; the style of the icon is left to the
    document. *)
Definition _editMouseMove (clientX clientY : Z) : M unit :=
  do w <- get;
  match movingEdge w with
  | None => throw (TypeError "this.movingEdge is null")
  | Some edge => updatePolygonEdge edge clientX clientY
  end.

(** The listener of [mousedown] on the map. *)
Definition onMouseDown (button clientX clientY : Z) : M unit :=
  let RIGHT_CLICK := 2 in
  if decide (button = RIGHT_CLICK) then ret tt
  else
    do w <- get;
    if negb (multiplePolygons (options w)) && negb (bool_decide (edges w = []))
    then ret tt
    else
      modify (set_latLngs []) ;;
      modify (set_fromPoint (mkPoint clientX clientY)) ;;
      when (truthy (js_band (mode w) MODES.CREATE)) (modify (set_creating true)).

(** The listener of [mousemove] on the map. *)
Definition onMouseMove (clientX clientY : Z) : M unit :=
  do w <- get;
  match movingEdge w with
  | Some _ => _editMouseMove clientX clientY
  | None =>
      if negb (creating w) then ret tt
      else _createMouseMove clientX clientY
  end.

(** The listener of [mouseup], [mouseout] and [mouseleave] on the map. *)
Definition onMouseUpAndMouseLeave : M unit :=
  do w <- get;
  match movingEdge w with
  | Some _ =>
      (if negb (boundariesAfterEdit (options w))
       then notifyBoundaries
       else modify (set_boundaryUpdateRequired true)) ;;
      modify (set_movingEdge None)
  | None => _createMouseUp
  end.

(** The listener of [mousedown] on an edge marker. *)
Definition edge_onMouseDown (target : ref) : M unit :=
  modify (set_movingEdge (Some target)).

(** *** L.FreeDraw.Options *)

Definition default_hullAlgorithms : gmap string HullMethod :=
  <["brian3kb/graham_scan_js" := brian3kbGrahamScan]>
    (<["Wildhoney/ConcaveHull" := wildhoneyConcaveHull]> ∅).

(** [new L.FreeDraw.Options()]: the prototype's values. *)
Definition new_Options : Options :=
  {| multiplePolygons := true; hullAlgorithm := HullFalse;
     boundariesAfterEdit := false; createExitMode := true;
     markersFn := fun _ => []; hullAlgorithms := default_hullAlgorithms;
     svgClassName := "tracer"; smoothFactor := 5;
     iconClassName := "polygon-elbow" |}.

Definition exitModeAfterCreate (value : bool) (o : Options) : Options :=
  opt_createExitMode value o.
Definition allowMultiplePolygons (allow : bool) (o : Options) : Options :=
  opt_multiplePolygons allow o.
Definition setSVGClassName (className : string) (o : Options) : Options :=
  opt_svgClassName className o.
Definition setBoundariesAfterEdit (value : bool) (o : Options) : Options :=
  opt_boundariesAfterEdit value o.
Definition setSmoothFactor (factor : Z) (o : Options) : Options :=
  opt_smoothFactor factor o.
Definition setIconClassName (className : string) (o : Options) : Options :=
  opt_iconClassName className o.
Definition getMarkers (f : MarkersFn) (o : Options) : Options :=
  opt_markersFn f o.

(** Truthiness of the argument of [setHullAlgorithm] and the property key
    it converts to. *)
Definition algorithm_truthy (a : AlgorithmArg) : bool :=
  match a with
  | AlgBool b => b
  | AlgString s => negb (String.eqb s "")
  end.
Definition algorithm_key (a : AlgorithmArg) : string :=
  match a with
  | AlgBool true => "true"
  | AlgBool false => "false"
  | AlgString s => s
  end.

(** [setHullAlgorithm(algorithm)].  The table has no inherited property
    under a key that is falsy as an argument. *)
Definition setHullAlgorithm (algorithm : AlgorithmArg) (o : Options) : Options :=
  if algorithm_truthy algorithm
     && negb (bool_decide (is_Some (hullAlgorithms o !! algorithm_key algorithm)))
  then o
  else
    opt_hullAlgorithm
      (match hullAlgorithms o !! algorithm_key algorithm with
       | Some name => HullName name
       | None => HullUndefined
       end) o.

(** *** Construction and attachment *)

(** The page when the script has been loaded: the properties of
    [L.FreeDraw.prototype], and none of the objects editors create. *)
Definition prototype : World :=
  {| map_ := None; svg := None; creating := false; latLngs := [];
     options := new_Options; markerLayer := mkLayerGroup 0%nat [];
     hull_map := false; edges := []; proto_edges := None; mode := 1;
     fromPoint := mkPoint 0 0; movingEdge := None;
     boundaryUpdateRequired := false;
     markers := ∅; polygons := ∅; lastId := 0%nat; log := [] |}.

(** [this] of a new editor before its constructor has run, on a page in
    the state [page]: it has no property of its own, so every property
    reads the prototype's.  [this.edges] is the prototype's array with
    whatever editors that shared it have pushed; the other properties of the
    prototype are never changed in place before an editor has assigned its
    own.  The objects of the page and the log stay. *)
Definition instance (page : World) : World :=
  {| map_ := map_ prototype; svg := svg prototype; creating := creating prototype;
     latLngs := latLngs prototype; options := options prototype;
     markerLayer := markerLayer prototype; hull_map := hull_map prototype;
     edges := prototype_edges page; proto_edges := None; mode := mode prototype;
     fromPoint := fromPoint prototype; movingEdge := movingEdge prototype;
     boundaryUpdateRequired := boundaryUpdateRequired prototype;
     markers := markers page; polygons := polygons page; lastId := lastId page;
     log := log page |}.

(** [initialize(options)].  [options] is [None] where no object is passed,
    and otherwise holds [options.mode], [None] where that is [undefined].
    Without an object the read of [options.mode] is a [TypeError], after the
    options and the hull were set. *)
Definition initialize (options_arg : option (option Z)) : M unit :=
  modify (set_options new_Options) ;;
  modify (set_hull_map false) ;;
  match options_arg with
  | None => throw (TypeError "options is undefined")
  | Some options_mode =>
      do w <- get;
      setMode (match options_mode with
               | Some m => if truthy m then m else mode w
               | None => mode w
               end)
  end.

(** [L.freeDraw(options)], that is [new L.FreeDraw(options)]: the
    constructor runs [initialize] on the new object. *)
Definition freeDraw (options_arg : option (option Z)) : M unit :=
  modify instance ;;
  initialize options_arg.

(** [onAdd(map)] *)
Definition onAdd (map : LMap) : M unit :=
  modify (set_map (Some map)) ;;
  modify (fun w => set_mode (if truthy (mode w) then mode w else MODES.VIEW) w) ;;
  createD3 ;;
  do w <- get;
  setMode (mode w).

(** [onRemove()] *)
Definition onRemove : M unit := clearPolygons.
End Handlers.

(** * Notions used in the statements *)

(** A property of the world that a statement cannot destroy, however it
    ends. *)
Definition stable {A} (P : World -> Prop) (m : M A) : Prop :=
  forall w, P w -> P (m w).2.

(** The fields no call of [setMarkers] touches. *)
Definition beside_markers (w : World) :=
  (svg w, creating w, latLngs w, options w, hull_map w, edges w, mode w,
   fromPoint w, movingEdge w, boundaryUpdateRequired w, markers w, polygons w,
   log w, dragging <$> map_ w, touchZoom <$> map_ w, doubleClickZoom <$> map_ w,
   scrollWheelZoom <$> map_ w, classList <$> map_ w).

(** The arguments [setMarkers] accepts. *)
Definition icon_ok (icon : IconArg) : bool :=
  match icon with IconOther _ => false | _ => true end.
Definition entry_ok (entry : JsEntry) : bool :=
  match entry with EntryLatLng _ => true | EntryOther _ => false end.
Definition entries_of (ms : MarkersArg) : list JsEntry :=
  match ms with MarkersFalsy => [] | MarkersArray entries => entries end.
Definition markers_ok (ms : MarkersArg) : bool := forallb entry_ok (entries_of ms).

(** The [icon] of the options object the markers are created with. *)
Definition icon_of (icon : IconArg) : option string :=
  match icon with IconDivIcon c => Some c | _ => None end.

(** The positions in front of the first entry that is not one. *)
Fixpoint good_prefix (entries : list JsEntry) : list LatLng :=
  match entries with
  | EntryLatLng ll :: rest => ll :: good_prefix rest
  | _ => []
  end.

Definition second_argument_error : Exn :=
  Message "Leaflet.FreeDraw: Second argument must be an instance of L.DivIcon.".
Definition supplied_markers_error : Exn :=
  Message "Leaflet.FreeDraw: Supplied markers must be instances of L.LatLng.".

(** The loop of [setMarkers] over the entries, as a statement of its own. *)
Definition plot (icon : option string) (entries : list JsEntry) : M unit :=
  forEach (fun entry =>
    match entry with
    | EntryOther _ =>
        throwException "Supplied markers must be instances of L.LatLng" None
    | EntryLatLng ll =>
        modify (fun w => set_markerLayer (layerGroup_addLayer (ll, icon) (markerLayer w)) w)
    end) entries.

(** The world after [setMarkers] reset the marker layer on the map [m]. *)
Definition reset_layer (m : LMap) (w : World) : World :=
  set_map (Some (addLayer (S (lastId w)) (removeLayer (lg_id (markerLayer w)) m)))
    (set_markerLayer (mkLayerGroup (S (lastId w)) [])
       (set_lastId (S (lastId w))
          (set_map (Some (removeLayer (lg_id (markerLayer w)) m)) w))).

(** The user's callback calls [setMarkers] only where that returns: on an
    editor that has its map, with arguments [setMarkers] accepts. *)
Definition callback_ok (w : World) : Prop :=
  forall latLngs' call,
    call ∈ markersFn (options w) latLngs' ->
    is_Some (map_ w) /\ icon_ok call.2 = true /\ markers_ok call.1 = true.

(** ** A host to run the script on *)
Module Demo.

(** Projections that keep the numbers, a renderer that draws every point
    (and nothing where there is no point), hulls that keep the first three
    points. *)
#[local] Instance host : Leaflet :=
  {| containerPointToLatLng := fun p => mkLatLng (x p) (y p);
     layerPointToLatLng := fun p => mkLatLng (x p) (y p);
     latLngToContainerPoint := fun l => mkPoint (lat l) (lng l);
     polygon_parts := fun _ l =>
       match l with
       | [] => None
       | _ :: _ => Some ((fun q => mkPoint (lat q) (lng q)) <$> l)
       end;
     getHull := take 3;
     getLatLngs := take 3 |}.

Definition page_map : LMap :=
  mkLMap true true true true ["leaflet-container"%string] [].

Definition run {A} (m : M A) (w : World) : World := (m w).2.

(** [new L.FreeDraw({mode: CREATE})], added to the map. *)
Definition attached : World := Eval vm_compute in
  run (onAdd page_map) (run (freeDraw (Some (Some MODES.CREATE))) prototype).

(** Pointer down at (10,10), then moves to (50,10), (50,50), (10,50) and
    back to (10,10). *)
Definition traced : World := Eval vm_compute in
  run (onMouseMove 10 10)
    (run (onMouseMove 10 50)
       (run (onMouseMove 50 50)
          (run (onMouseMove 50 10)
             (run (onMouseDown 0 10 10) attached)))).

(** Pointer down and two moves. *)
Definition short_trace : World := Eval vm_compute in
  run (onMouseMove 50 50)
    (run (onMouseMove 50 10) (run (onMouseDown 0 10 10) attached)).

(** The pointer released after the trace: one polygon and its edges. *)
Definition drawn : World := Eval vm_compute in run onMouseUpAndMouseLeave traced.

End Demo.

(** ** A host that renders as Leaflet does *)
Module DemoLeaflet.

(** [L.Polygon] takes a last point that equals the first out of the points
    it is given. *)
Definition open_ring (l : list LatLng) : list LatLng :=
  match l with
  | first :: _ :: _ =>
      if decide (last l = Some first) then take (length l - 1) l else l
  | _ => l
  end.

(** The host of the demonstration, but for the renderer: a polygon is
    rendered from its points without the closing one, and nothing is
    rendered where no point is left. *)
#[local] Instance host : Leaflet :=
  {| containerPointToLatLng := fun p => mkLatLng (x p) (y p);
     layerPointToLatLng := fun p => mkLatLng (x p) (y p);
     latLngToContainerPoint := fun l => mkPoint (lat l) (lng l);
     polygon_parts := fun _ l =>
       match open_ring l with
       | [] => None
       | ring => Some ((fun q => mkPoint (lat q) (lng q)) <$> ring)
       end;
     getHull := take 3;
     getLatLngs := take 3 |}.

End DemoLeaflet.

(** ** An editor with an update pending and a careless callback *)
Module DemoPending.
Import Demo.
#[local] Existing Instance Demo.host.

(** A callback that passes [setMarkers] something that is no position. *)
Definition careless : MarkersFn :=
  fun _ => [(MarkersArray [EntryOther "a string"], IconUndefined)].

(** The editor of [Demo.drawn] after [setBoundariesAfterEdit(true)] and
    [getMarkers(careless)] on its options, [setMode(EDIT)], and a drag of
    the first edge to (15,15): the update of the boundaries is pending. *)
Definition pending : World := Eval vm_compute in
  run onMouseUpAndMouseLeave
    (run (onMouseMove 15 15)
       (run (edge_onMouseDown 2%nat)
          (run (setMode MODES.EDIT)
             (set_options
                (getMarkers careless (setBoundariesAfterEdit true (options drawn)))
                drawn)))).

End DemoPending.

(** [L.polygon] was called with the points [l] after the events [base], and
    the polygon [p] it made is in the store. *)
Definition polygon_created (p : ref) (l : list LatLng) (base : list Event)
    (w : World) : Prop :=
  (exists evs, log w = base ++ NewPolygon p l :: evs)
  /\ constructed_from <$> (polygons w !! p) = Some l.

(** The editor has its map and its tracer, as after [onAdd]. *)
Definition attached (w : World) : Prop := is_Some (map_ w) /\ is_Some (svg w).

(** No hull algorithm is configured: [options.hullAlgorithm] is falsy. *)
Definition hull_disabled (o : Options) : bool :=
  match hullAlgorithm o with HullName _ => false | _ => true end.

Module DemoHull.
Import Demo.

(** The editor of [Demo.traced] after [setHullAlgorithm] was given the name
    of the concave hull and then a name the table does not have. *)
Definition options_after_typo : Options := Eval vm_compute in
  setHullAlgorithm (AlgString "typo")
    (setHullAlgorithm (AlgString "Wildhoney/ConcaveHull") new_Options).

Definition traced_after_typo : World := Eval vm_compute in set_options options_after_typo traced.

End DemoHull.

(** The fields no call of [notifyBoundaries] touches: those [setMarkers]
    leaves alone, without the log. *)
Definition beside_notify (w : World) :=
  (svg w, creating w, latLngs w, options w, hull_map w, edges w, mode w,
   fromPoint w, movingEdge w, boundaryUpdateRequired w, markers w, polygons w,
   dragging <$> map_ w, touchZoom <$> map_ w, doubleClickZoom <$> map_ w,
   scrollWheelZoom <$> map_ w, classList <$> map_ w).

(** What [notifyBoundaries] passes to the user's callback. *)
Definition boundaries (w : World) : Boundaries :=
  group_edges (marker_at w <$> edges w).

(** The classes [setMode] manages. *)
Definition indicators : list string :=
  ["mode-create"; "mode-edit"; "mode-delete"; "mode-view"]%string.

(** The world [updatePolygonEdge] leaves on an editor that has its map. *)
Definition edge_moved `{host : Leaflet} (edge : ref) (posX posY : Z) (w : World) : World :=
  let w1 :=
    set_markers
      (alter (marker_setLatLng (containerPointToLatLng (mkPoint posX posY))) edge
         (markers w)) w in
  let polygon := _polygon (marker_at w1 edge) in
  let updatedLatLngs :=
    (fun marker => _latlng (marker_at w1 marker))
      <$> filter (fun marker => _polygon (marker_at w1 marker) = polygon) (edges w1) in
  set_log (log w1 ++ [Redraw polygon])
    (set_polygons (alter (polygon_set_latlngs updatedLatLngs) polygon (polygons w1)) w1).

(** The callback [destroyPolygon] filters [this.edges] with. *)
Definition keep_edge (polygon : ref) (edge : ref) : M JsValue :=
  do w <- get;
  if decide (_polygon (marker_at w edge) <> polygon)
  then ret (JsBool true)
  else emit (IconRemove edge) ;; ret JsUndefined.

(** The edges of a polygon, and the other edges, in the order of
    [this.edges]. *)
Definition edges_of (w : World) (polygon : ref) : list ref :=
  filter (fun edge => _polygon (marker_at w edge) = polygon) (edges w).
Definition edges_beside (w : World) (polygon : ref) : list ref :=
  filter (fun edge => _polygon (marker_at w edge) <> polygon) (edges w).

(** The world [destroyPolygon] hands to [notifyBoundaries]. *)
Definition polygon_destroyed (polygon : ref) (w : World) : World :=
  assign_edges (edges_beside w polygon)
    (set_log (log w ++ ContainerRemove polygon :: (IconRemove <$> edges_of w polygon))
       (set_polygons (alter polygon_remove_container polygon (polygons w)) w)).

(** The owner of an edge. *)
Definition owner (w : World) (edge : ref) : ref := _polygon (marker_at w edge).

(** The body of the loop of [clearPolygons]. *)
Definition clear_step (edge : ref) : M unit :=
  do w <- get;
  destroyPolygon (_polygon (marker_at w edge)) ;; ret tt.

(** Readings of a log: the arguments of the calls of the user's callback,
    the polygons whose container was removed, the edges whose icon was
    removed, each in the order of the log. *)
Definition calls (evs : list Event) : list Boundaries :=
  omap (fun e => match e with CallMarkersFn b => Some b | _ => None end) evs.
Definition containers_removed (evs : list Event) : list ref :=
  omap (fun e => match e with ContainerRemove p => Some p | _ => None end) evs.
Definition icons_removed (evs : list Event) : list ref :=
  omap (fun e => match e with IconRemove r => Some r | _ => None end) evs.

(** ** Grouping edges by polygon *)

(** The positions of a list of edges. *)
Definition points (ms : list Marker) : list LatLng := _latlng <$> ms.

(** The edges at the front of a list that belong to the polygon [id], and
    the list from the first edge of another polygon on. *)
Fixpoint leading (id : Z) (ms : list Marker) : list Marker :=
  match ms with
  | m :: rest => if decide (_polygonId m = id) then m :: leading id rest else []
  | [] => []
  end.
Fixpoint beyond (id : Z) (ms : list Marker) : list Marker :=
  match ms with
  | m :: rest => if decide (_polygonId m = id) then beyond id rest else ms
  | [] => []
  end.

(** The maximal runs of consecutive edges of one polygon, given the run in
    progress. *)
Fixpoint runs_from (id : Z) (current : list Marker) (ms : list Marker) :
  list (list Marker) :=
  match ms with
  | [] => [current]
  | m :: rest =>
      if decide (_polygonId m = id) then runs_from id (current ++ [m]) rest
      else current :: runs_from (_polygonId m) [m] rest
  end.
Definition runs (ms : list Marker) : list (list Marker) :=
  match ms with
  | [] => []
  | m :: rest => runs_from (_polygonId m) [m] rest
  end.

(** The identifiers in a list, each once, in the order they first occur. *)
Fixpoint distinct (ids : list Z) : list Z :=
  match ids with
  | [] => []
  | i :: rest => i :: filter (fun j => j <> i) (distinct rest)
  end.

(** The edges of each polygon, polygon by polygon in the order the polygons
    first occur, the edges of one polygon in the order of the list. *)
Definition handles_of (id : Z) (ms : list Marker) : list Marker :=
  filter (fun m => _polygonId m = id) ms.
Definition shape_ids (ms : list Marker) : list Z := distinct (_polygonId <$> ms).
Definition by_shape (ms : list Marker) : list (list Marker) :=
  (fun id => handles_of id ms) <$> shape_ids ms.

(** The edges of every polygon stand together: once the list has moved on
    to another polygon, a polygon does not come back. *)
Fixpoint contiguous (ms : list Marker) : Prop :=
  match ms with
  | [] => True
  | m :: rest =>
      Forall (fun m' => _polygonId m' <> _polygonId m) (beyond (_polygonId m) rest)
      /\ contiguous rest
  end.

(** The edges of every polygon stand in the order of their [_index]. *)
Fixpoint index_ordered (ms : list Marker) : Prop :=
  match ms with
  | [] => True
  | m :: rest =>
      Forall (fun m' => _polygonId m' = _polygonId m -> (_index m < _index m')%nat) rest
      /\ index_ordered rest
  end.

Definition index_lt (a b : Marker) : Prop := (_index a < _index b)%nat.

Module DemoInterleaved.

(** An edge collection in which the edges of polygon 1 are not together. *)
Definition interleaved : World := Eval vm_compute in
  set_edges [3; 4; 5]%nat
    (set_markers
       (<[3%nat := mkMarker 1%nat 1 0%nat 2%nat (mkLatLng 10 10)]>
          (<[4%nat := mkMarker 2%nat 2 0%nat 1%nat (mkLatLng 20 20)]>
             (<[5%nat := mkMarker 1%nat 1 1%nat 2%nat (mkLatLng 30 30)]> ∅)))
       (set_lastId 5%nat Demo.attached)).

End DemoInterleaved.

(** ** The states the editor gets into *)

(** The edges in [this.edges], read through the store. *)
Definition edge_markers (w : World) : list Marker := marker_at w <$> edges w.

(** The edge collection is in order: the edges of every polygon stand
    together and by [_index], and every edge and polygon identifier was
    handed out already. *)
Definition tidy (w : World) : Prop :=
  contiguous (edge_markers w)
  /\ index_ordered (edge_markers w)
  /\ Forall (fun e => (e <= lastId w)%nat) (edges w)
  /\ Forall (fun m => _polygonId m <= Z.of_nat (lastId w)) (edge_markers w).

(** What can happen to an editor: the calls of its methods that are not
    marked private, but for [attachEdges], which the script itself calls
    only from [createPolygon]; the assignments of the options' setters; and
    the events its listeners are registered for. *)
Inductive Call :=
| Initialize (options_arg : option (option Z))
| OnAdd (map : LMap)
| OnRemove
| SetMode (mode' : Z)
| CreateD3
| DestroyD3
| CreatePolygon (latLngs' : list LatLng)
| DestroyPolygon (polygon : ref)
| ClearPolygons
| NotifyBoundaries
| SetMarkers (ms : MarkersArg) (icon : IconArg)
| UpdatePolygonEdge (edge : ref) (posX posY : Z)
| Configure (setter : Options -> Options)
| MouseDown (button clientX clientY : Z)
| MouseMove (clientX clientY : Z)
| MouseUp
| EdgeMouseDown (edge : ref)
| PolygonClick (polygon : ref).

Definition perform `{host : Leaflet} (c : Call) : M unit :=
  match c with
  | Initialize options_arg => initialize options_arg
  | OnAdd map => onAdd map
  | OnRemove => onRemove
  | SetMode mode' => setMode mode'
  | CreateD3 => createD3
  | DestroyD3 => destroyD3
  | CreatePolygon latLngs' => createPolygon latLngs' ;; ret tt
  | DestroyPolygon polygon => destroyPolygon polygon ;; ret tt
  | ClearPolygons => clearPolygons
  | NotifyBoundaries => notifyBoundaries
  | SetMarkers ms icon => setMarkers ms icon
  | UpdatePolygonEdge edge posX posY => updatePolygonEdge edge posX posY
  | Configure setter => modify (fun w => set_options (setter (options w)) w)
  | MouseDown button clientX clientY => onMouseDown button clientX clientY
  | MouseMove clientX clientY => onMouseMove clientX clientY
  | MouseUp => onMouseUpAndMouseLeave
  | EdgeMouseDown edge => edge_onMouseDown edge
  | PolygonClick polygon => onClick polygon
  end.

(** The states the first editor of a page gets into: from the state of the
    page when the script was loaded, whatever the calls return or throw. *)
Inductive reachable `{host : Leaflet} : World -> Prop :=
| reachable_prototype : reachable prototype
| reachable_perform w c : reachable w -> reachable (perform c w).2.

(** The body of the loop of [attachEdges], for a polygon with [n] parts. *)
Definition attach_edge `{host : Leaflet} (polygon : ref) (n : nat)
    (part : nat * Point) : M unit :=
  let '(index, point) := part in
  do w <- get;
  match map_ w with
  | None => throw (TypeError "this.map is null")
  | Some _ =>
      let latLng := layerPointToLatLng point in
      do edge <- fresh;
      with_map (addLayer edge) ;;
      modify (fun w =>
        set_markers
          (<[edge := mkMarker polygon (_leaflet_id (polygon_at w polygon))
                       index n latLng]> (markers w)) w) ;;
      modify (fun w => set_edges (edges w ++ [edge]) w)
  end.

(** While the edges of the polygon [pid] are attached: the collection is
    in order, and the edges of [pid] are the last ones, [k] of them so far. *)
Definition attaching (polygon : ref) (pid : Z) (k : nat) (w : World) : Prop :=
  tidy w
  /\ _leaflet_id (polygon_at w polygon) = pid
  /\ pid <= Z.of_nat (lastId w)
  /\ exists old new,
       edge_markers w = old ++ new
       /\ Forall (fun a => _polygonId a <> pid) old
       /\ Forall (fun a => _polygonId a = pid /\ (_index a < k)%nat) new.

(** What the order of a list of edges depends on. *)
Definition key (m : Marker) : Z * nat := (_polygonId m, _index m).

(** * Further notions *)

(** The fields [attachEdges] leaves alone: all but the edges, the markers,
    the identifiers handed out and the layers of the map. *)
Definition beside_attach (w : World) :=
  (svg w, creating w, latLngs w, options w, markerLayer w, hull_map w, mode w,
   fromPoint w, movingEdge w, boundaryUpdateRequired w, polygons w, log w,
   dragging <$> map_ w, touchZoom <$> map_ w, doubleClickZoom <$> map_ w,
   scrollWheelZoom <$> map_ w, classList <$> map_ w).

(** The edge markers [attachEdges] makes for a polygon with the identifier
    [pid] that was rendered as [parts]. *)
Definition new_edges `{host : Leaflet} (polygon : ref) (pid : Z) (n : nat)
    (first_index : nat) (parts : list Point) : list Marker :=
  imap (fun i point =>
          mkMarker polygon pid (first_index + i)%nat n (layerPointToLatLng point)) parts.

(** [setMode(mode')] has a deferred notification to make: an update is
    pending and the new mode has no EDIT bit. *)
Definition notification_due (mode' : Z) (w : World) : bool :=
  boundaryUpdateRequired w && negb (truthy (js_band mode' MODES.EDIT)).

(** The fields [setMode] leaves alone. *)
Definition beside_mode (w : World) :=
  (svg w, creating w, latLngs w, options w, hull_map w, edges w, fromPoint w,
   movingEdge w, markers w, polygons w).

(** The polygon object [createPolygon] leaves in the store for the points
    [l] that were rendered as [parts]: its [_latlngs] are the rendered
    parts taken back through [containerPointToLatLng]. *)
Definition created_polygon `{host : Leaflet} (polygon : ref) (l : list LatLng)
    (parts : list Point) (handlers : nat) : Polygon :=
  mkPolygon (Z.of_nat polygon) l (containerPointToLatLng <$> parts) (Some parts)
    true handlers.

(** ** Gestures *)

(** A run of [mousemove] events at the given pointer positions. *)
Definition mouse_moves `{host : Leaflet} (positions : list Point) : M unit :=
  forEach (fun p => onMouseMove (x p) (y p)) positions.


(** The listener of [mousedown] lets the event through: not the right
    button, and another polygon is allowed. *)
Definition mousedown_accepted (button : Z) (w : World) : bool :=
  negb (bool_decide (button = 2))
  && negb (negb (multiplePolygons (options w)) && negb (bool_decide (edges w = []))).

(** The fields a trace in progress leaves alone. *)
Definition beside_trace (w : World) :=
  (map_ w, options w, markerLayer w, hull_map w, edges w, mode w, movingEdge w,
   boundaryUpdateRequired w, markers w, polygons w, lastId w, log w).

(** A whole gesture on the map: the button goes down at [down], the
    pointer moves through [positions], the button is released. *)
Definition gesture `{host : Leaflet} (button : Z) (down : Point)
    (positions : list Point) : M unit :=
  onMouseDown button (x down) (y down) ;;
  mouse_moves positions ;;
  onMouseUpAndMouseLeave.

(** The fields a drag of an edge leaves alone. *)
Definition beside_drag (w : World) :=
  (map_ w, svg w, creating w, latLngs w, options w, markerLayer w, hull_map w,
   edges w, mode w, fromPoint w, boundaryUpdateRequired w, lastId w).

(** A drag of an edge: the button goes down on the edge marker, the pointer
    moves through [positions], the button is released. *)
Definition drag `{host : Leaflet} (edge : ref) (positions : list Point) : M unit :=
  edge_onMouseDown edge ;;
  mouse_moves positions ;;
  onMouseUpAndMouseLeave.

(** ** Sessions *)

(** A sequence of calls and events, each on the state the one before it
    left, whether that returned or threw. *)
Definition perform_all `{host : Leaflet} (cs : list Call) (w : World) : World :=
  fold_left (fun w c => (perform c w).2) cs w.

Module DemoSession.

(** A new editor in CREATE mode is added to the map; a square is traced and
    the button released; the mode is set to EDIT and the first edge is
    dragged to (15,15). *)
Definition session : list Call :=
  [Initialize (Some (Some MODES.CREATE)); OnAdd Demo.page_map;
   MouseDown 0 10 10; MouseMove 50 10; MouseMove 50 50; MouseMove 10 50;
   MouseMove 10 10; MouseUp;
   SetMode MODES.EDIT; EdgeMouseDown 2%nat; MouseMove 15 15; MouseUp].

End DemoSession.

(** ** Finishing a trace *)

(** The part of [_createMouseUp] that follows the hull algorithm: the trace
    is closed, the polygon is created from [hullLatLngs || this.latLngs]
    and given its click handler, the trace is emptied and CREATE mode is
    left if the options say so. *)
Definition close_and_create `{host : Leaflet} (first : LatLng)
    (hullLatLngs : option (list LatLng)) : M unit :=
  modify (fun w => set_latLngs (latLngs w ++ [first]) w) ;;
  do w <- get;
  do polygon <- createPolygon (default (latLngs w) hullLatLngs);
  modify (set_latLngs []) ;;
  modify (fun w => set_polygons (alter polygon_on_click polygon (polygons w)) w) ;;
  do w <- get;
  when (createExitMode (options w)) (setMode (js_bxor (mode w) MODES.CREATE)).

(** The points of the convex hull of a trace, as [brian3kbGrahamScan]
    resolves them. *)
Definition convex_hull_points `{host : Leaflet} (trace : list LatLng) : list Point :=
  (fun hullPoint => mkPoint (x hullPoint) (y hullPoint))
    <$> getHull (latLngToContainerPoint <$> trace).

Module DemoConvex.

(** The editor of [Demo.traced] with the convex hull configured. *)
Definition traced : World := Eval vm_compute in
  set_options (setHullAlgorithm (AlgString "brian3kb/graham_scan_js") new_Options)
    Demo.traced.

End DemoConvex.

(** ** [attachEdges] called a second time *)
Module DemoAgain.
Import Demo.
#[local] Existing Instance Demo.host.

(** The editor of [Demo.drawn] after [createPolygon] was called with a
    triangle: two polygons, each with its edges. *)
Definition two : World := Eval vm_compute in
  run (createPolygon [mkLatLng 60 60; mkLatLng 70 60; mkLatLng 70 70]) Demo.drawn.

(** [attachEdges] called from outside for the first polygon, which has its
    edges already. *)
Definition again : World := Eval vm_compute in run (attachEdges 1%nat) two.

End DemoAgain.
(** * Reasoning about statements *)

Section Stable.
Context {A B : Type} (P : World -> Prop).

Lemma stable_ret (a : A) : stable P (ret a).
Proof. intros w Hw. exact Hw. Qed.

Lemma stable_throw (e : Exn) : stable P (@throw A e).
Proof. intros w Hw. exact Hw. Qed.

Lemma stable_get : stable P get.
Proof. intros w Hw. exact Hw. Qed.

Lemma stable_modify (g : World -> World) :
  (forall w, P w -> P (g w)) -> stable P (modify g).
Proof. intros Hg w Hw. apply Hg, Hw. Qed.

Lemma stable_bind (m : M A) (k : A -> M B) :
  stable P m -> (forall a, stable P (k a)) -> stable P (bind m k).
Proof.
  intros Hm Hk w Hw. unfold bind. specialize (Hm w Hw).
  destruct (m w) as [[a|e] w1]; simpl in *.
  - apply Hk, Hm.
  - exact Hm.
Qed.

Lemma stable_when (b : bool) (m : M unit) : stable P m -> stable P (when b m).
Proof. intros Hm. destruct b; [exact Hm | intros w Hw; exact Hw]. Qed.

Lemma stable_fresh :
  (forall w, P w -> P (set_lastId (S (lastId w)) w)) -> stable P fresh.
Proof. intros H w Hw. apply H, Hw. Qed.

Lemma stable_with_map (g : LMap -> LMap) :
  (forall w m, map_ w = Some m -> P w -> P (set_map (Some (g m)) w)) ->
  stable P (with_map g).
Proof.
  intros H w Hw. unfold with_map.
  destruct (map_ w) as [m|] eqn:E; simpl; [apply (H w m E Hw) | exact Hw].
Qed.

(** What a statement does after another holds of the world the first one
    left, whether it returned or threw. *)
Lemma stable_after (m : M A) (k : A -> M B) (w : World) :
  P (m w).2 -> (forall a, stable P (k a)) -> P (bind m k w).2.
Proof.
  intros Hm Hk. unfold bind. destruct (m w) as [[a|e] w1]; simpl in *.
  - apply Hk, Hm.
  - exact Hm.
Qed.
End Stable.

Lemma stable_forEach {A} (P : World -> Prop) (f : A -> M unit) (l : list A) :
  (forall a, stable P (f a)) -> stable P (forEach f l).
Proof.
  intros Hf. induction l as [|a l IH]; simpl.
  - apply stable_ret.
  - apply stable_bind; [apply Hf | intros _; exact IH].
Qed.

Lemma stable_filterM {A} (P : World -> Prop) (f : A -> M JsValue) (l : list A) :
  (forall a, stable P (f a)) -> stable P (filterM f l).
Proof.
  intros Hf. induction l as [|a l IH]; simpl.
  - apply stable_ret.
  - apply stable_bind; [apply Hf | intros v].
    apply stable_bind; [exact IH | intros rest; apply stable_ret].
Qed.

(** One step through the syntax of a statement; what remains are the
    assignments, to be checked against the property at hand. *)
Ltac stable_step :=
  lazymatch goal with
  | |- stable _ (bind _ _) => apply stable_bind; [| intros ?]
  | |- stable _ (ret _) => apply stable_ret
  | |- stable _ (throw _) => apply stable_throw
  | |- stable _ get => apply stable_get
  | |- stable _ (when _ _) => apply stable_when
  | |- stable _ (forEach _ _) => apply stable_forEach; intros ?
  | |- stable _ (filterM _ _) => apply stable_filterM; intros ?
  | |- stable _ (modify _) => apply stable_modify
  | |- stable _ (emit _) => apply stable_modify
  | |- stable _ fresh => apply stable_fresh
  | |- stable _ (with_map _) => apply stable_with_map
  | |- stable _ (throwException _ _) => unfold throwException
  | |- stable _ (plot _ _) => unfold plot
  | |- stable _ (setMarkers _ _) => unfold setMarkers
  | |- stable _ notifyBoundaries => unfold notifyBoundaries
  | |- stable _ (setMode _) => unfold setMode
  | |- stable _ createD3 => unfold createD3
  | |- stable _ destroyD3 => unfold destroyD3
  | |- stable _ (attachEdges _) => unfold attachEdges
  | |- stable _ (destroyPolygon _) => unfold destroyPolygon
  | |- stable _ setMap => unfold setMap
  | |- stable _ (match ?x with _ => _ end) => destruct x
  end.

Ltac stable_walk := repeat stable_step.

(** * [setMarkers] *)

Section SetMarkers.
Context `{host : Leaflet}.

Lemma setMarkers_frame ms icon x :
  stable (fun w => beside_markers w = x) (setMarkers ms icon).
Proof.
  stable_walk; try (intros; assumption).
  all: intros w m Hm Hw; rewrite <- Hw; unfold beside_markers, addLayer; simpl;
    rewrite Hm; try case_decide; reflexivity.
Qed.

Lemma plot_outcome icon entries w :
  (plot icon entries w).1 =
    if forallb entry_ok entries then Returned tt else Thrown supplied_markers_error.
Proof.
  revert w. induction entries as [|[ll|d] rest IH]; intros w; simpl.
  - reflexivity.
  - unfold plot in *. simpl. unfold bind, modify. simpl. apply IH.
  - reflexivity.
Qed.

Lemma plot_layer icon entries w :
  markerLayer (plot icon entries w).2 =
    mkLayerGroup (lg_id (markerLayer w))
      (lg_layers (markerLayer w) ++ ((fun ll => (ll, icon)) <$> good_prefix entries)).
Proof.
  revert w. induction entries as [|[ll|d] rest IH]; intros w; simpl.
  - rewrite app_nil_r. destruct (markerLayer w); reflexivity.
  - unfold plot in *. simpl. unfold bind, modify. simpl. rewrite IH. simpl.
    rewrite <- app_assoc. reflexivity.
  - rewrite app_nil_r. destruct (markerLayer w); reflexivity.
Qed.

Lemma plot_map icon entries w : map_ (plot icon entries w).2 = map_ w.
Proof.
  revert w. induction entries as [|[ll|d] rest IH]; intros w; simpl; try reflexivity.
  unfold plot in *. simpl. unfold bind, modify. simpl. rewrite IH. reflexivity.
Qed.

Lemma setMarkers_unfold ms icon w m :
  map_ w = Some m -> icon_ok icon = true ->
  setMarkers ms icon w = plot (icon_of icon) (entries_of ms) (reset_layer m w).
Proof.
  intros Hm Hicon. unfold setMarkers.
  assert (Hfirst :
    (match icon with
     | IconOther _ =>
         throwException "Second argument must be an instance of L.DivIcon" None
     | _ => ret tt
     end) = ret tt) by (destruct icon; [reflexivity | reflexivity | discriminate]).
  rewrite Hfirst. unfold bind, ret, get, with_map, fresh, modify. simpl.
  rewrite Hm. simpl.
  destruct ms as [|[|entry rest]]; reflexivity.
Qed.

Lemma setMarkers_bad_icon ms d w :
  setMarkers ms (IconOther d) w = (Thrown second_argument_error, w).
Proof. reflexivity. Qed.

Lemma setMarkers_outcome ms icon w :
  is_Some (map_ w) ->
  (setMarkers ms icon w).1 =
    if icon_ok icon
    then if markers_ok ms then Returned tt else Thrown supplied_markers_error
    else Thrown second_argument_error.
Proof.
  intros [m Hm]. destruct (icon_ok icon) eqn:Hicon.
  - rewrite (setMarkers_unfold _ _ _ _ Hm Hicon). apply plot_outcome.
  - destruct icon; try discriminate. reflexivity.
Qed.

Lemma setMarkers_keeps_map ms icon w :
  is_Some (map_ w) -> is_Some (map_ (setMarkers ms icon w).2).
Proof.
  intros [m Hm]. destruct (icon_ok icon) eqn:Hicon.
  - rewrite (setMarkers_unfold _ _ _ _ Hm Hicon), plot_map. simpl. eauto.
  - destruct icon; try discriminate. simpl. eauto.
Qed.
End SetMarkers.

Lemma good_prefix_app good entry rest :
  entry_ok entry = false ->
  good_prefix ((EntryLatLng <$> good) ++ entry :: rest) = good.
Proof.
  intros Hentry. induction good as [|ll good IH]; simpl.
  - destruct entry; [discriminate | reflexivity].
  - f_equal. exact IH.
Qed.

Lemma markers_ok_false entries :
  forallb entry_ok entries = false <-> exists d, EntryOther d ∈ entries.
Proof.
  induction entries as [|[ll|d] rest IH]; simpl.
  - split; [discriminate | intros [d Hd]; inversion Hd].
  - rewrite IH. split; intros [d Hd]; exists d.
    + right. exact Hd.
    + inversion Hd; subst; assumption.
  - split; [intros _; exists d; left | reflexivity].
Qed.

(** C10.  [setMarkers] checks the icon before it touches anything: with a
    second argument that is not an [L.DivIcon] it throws and the world is as
    it was.  The entries are checked only after the marker layer was reset:
    when the list holds the positions [good], then an entry that is not an
    [L.LatLng], [setMarkers] throws, and by then the old layer group is off
    the map, a new one is on it and holds a marker for every position of
    [good]; the marker layer is not the one it was. *)
Theorem setMarkers_throws_after_reset
    (w : World) (ms0 : MarkersArg) (d0 : string)
    (icon : IconArg) (good : list LatLng) (d : string) (rest : list JsEntry) :
  is_Some (map_ w) ->
  icon_ok icon = true ->
  (lg_id (markerLayer w) <= lastId w)%nat ->
  setMarkers ms0 (IconOther d0) w = (Thrown second_argument_error, w)
  /\ let entries := (EntryLatLng <$> good) ++ EntryOther d :: rest in
     let result := setMarkers (MarkersArray entries) icon w in
     result.1 = Thrown supplied_markers_error
     /\ markerLayer (result.2) =
          mkLayerGroup (S (lastId w)) ((fun ll => (ll, icon_of icon)) <$> good)
     /\ (exists m', map_ (result.2) = Some m'
           /\ (lg_id (markerLayer w) ∉ layers m')
           /\ S (lastId w) ∈ layers m')
     /\ markerLayer (result.2) <> markerLayer w.
Proof.
  intros [m Hm] Hicon Hid. split; [reflexivity |].
  intros entries result. unfold result.
  rewrite (setMarkers_unfold _ _ _ _ Hm Hicon). simpl entries_of.
  assert (Hlayer : markerLayer (plot (icon_of icon) entries (reset_layer m w)).2 =
                   mkLayerGroup (S (lastId w)) ((fun ll => (ll, icon_of icon)) <$> good)).
  { rewrite plot_layer. simpl. unfold entries.
    rewrite good_prefix_app by reflexivity. reflexivity. }
  repeat split.
  - rewrite plot_outcome.
    assert (Hbad : forallb entry_ok entries = false).
    { apply markers_ok_false. exists d. unfold entries.
      apply elem_of_app. right. left. }
    rewrite Hbad. reflexivity.
  - exact Hlayer.
  - rewrite plot_map. simpl. eexists. split; [reflexivity |].
    unfold addLayer, removeLayer. simpl.
    assert (Hout : lg_id (markerLayer w) ∉
                   filter (fun r' => r' <> lg_id (markerLayer w)) (layers m)).
    { intros Hin. apply list_elem_of_filter in Hin. destruct Hin as [Hne _].
      apply Hne. reflexivity. }
    case_decide; simpl.
    + split; assumption.
    + split.
      * intros Hin. apply elem_of_app in Hin. destruct Hin as [Hin|Hin].
        -- apply Hout, Hin.
        -- apply list_elem_of_singleton in Hin. lia.
      * apply elem_of_app. right. left.
  - rewrite Hlayer. intros Heq. rewrite <- Heq in Hid. simpl in Hid. lia.
Qed.

(** C10, on the editor of the demonstration: one good position, then a
    string. *)
Lemma setMarkers_throws_after_reset_witness :
  is_Some (map_ Demo.attached)
  /\ icon_ok IconUndefined = true
  /\ (lg_id (markerLayer Demo.attached) <= lastId Demo.attached)%nat
  /\ (setMarkers MarkersFalsy (IconOther "null") Demo.attached
        = (Thrown second_argument_error, Demo.attached)
      /\ let entries := (EntryLatLng <$> [mkLatLng 1 2]) ++ EntryOther "a string" :: [] in
         let result := setMarkers (MarkersArray entries) IconUndefined Demo.attached in
         result.1 = Thrown supplied_markers_error
         /\ markerLayer (result.2) =
              mkLayerGroup (S (lastId Demo.attached))
                ((fun ll => (ll, icon_of IconUndefined)) <$> [mkLatLng 1 2])
         /\ (exists m', map_ (result.2) = Some m'
               /\ (lg_id (markerLayer Demo.attached) ∉ layers m')
               /\ S (lastId Demo.attached) ∈ layers m')
         /\ markerLayer (result.2) <> markerLayer Demo.attached).
Proof.
  assert (H1 : is_Some (map_ Demo.attached)) by (eexists; reflexivity).
  assert (H2 : icon_ok IconUndefined = true) by reflexivity.
  assert (H3 : (lg_id (markerLayer Demo.attached) <= lastId Demo.attached)%nat)
    by (vm_compute; lia).
  repeat (split; [assumption |]).
  exact (setMarkers_throws_after_reset Demo.attached MarkersFalsy "null"
           IconUndefined [mkLatLng 1 2] "a string" [] H1 H2 H3).
Defined.

(** C7 as amended.  On an editor that has its map, [setMarkers] throws
    exactly when its second argument is given and is not an [L.DivIcon], or
    when some entry of the list is not an [L.LatLng].  However it ends, the
    editor is as it was apart from its marker layer, it still has its map,
    and a call with arguments of the right kind returns. *)
Theorem setMarkers_throws_iff_misused
    (w : World) (ms : MarkersArg) (icon : IconArg) :
  is_Some (map_ w) ->
  let result := setMarkers ms icon w in
  ((exists e, result.1 = Thrown e) <->
     (exists d, icon = IconOther d)
     \/ (exists entries d, ms = MarkersArray entries /\ EntryOther d ∈ entries))
  /\ beside_markers (result.2) = beside_markers w
  /\ is_Some (map_ result.2)
  /\ forall ms' icon',
       icon_ok icon' = true -> markers_ok ms' = true ->
       (setMarkers ms' icon' (result.2)).1 = Returned tt.
Proof.
  intros Hmap result. unfold result. repeat split.
  - intros [e He]. rewrite (setMarkers_outcome _ _ _ Hmap) in He.
    destruct icon as [|c|d]; simpl in He; [| | left; eexists; reflexivity].
    all: right; destruct (markers_ok ms) eqn:Hms; [discriminate |];
      unfold markers_ok in Hms; apply markers_ok_false in Hms;
      destruct Hms as [d Hd]; destruct ms as [|entries]; [inversion Hd |];
      exists entries, d; split; [reflexivity | exact Hd].
  - intros [[d ->]|(entries & d & -> & Hd)].
    + eexists. reflexivity.
    + rewrite (setMarkers_outcome _ _ _ Hmap).
      assert (Hms : markers_ok (MarkersArray entries) = false)
        by (apply markers_ok_false; exists d; exact Hd).
      rewrite Hms. destruct (icon_ok icon); eexists; reflexivity.
  - apply (setMarkers_frame ms icon (beside_markers w) w). reflexivity.
  - apply setMarkers_keeps_map, Hmap.
  - intros ms' icon' Hicon' Hms'.
    rewrite setMarkers_outcome by (apply setMarkers_keeps_map, Hmap).
    rewrite Hicon', Hms'. reflexivity.
Qed.

(** C7 as amended, where a list with a string in it is passed. *)
Lemma setMarkers_throws_iff_misused_witness :
  is_Some (map_ Demo.attached)
  /\ let result :=
       setMarkers (MarkersArray [EntryOther "a string"]) IconUndefined Demo.attached in
     ((exists e, result.1 = Thrown e) <->
        (exists d, IconUndefined = IconOther d)
        \/ (exists entries d,
              MarkersArray [EntryOther "a string"] = MarkersArray entries
              /\ EntryOther d ∈ entries))
     /\ beside_markers (result.2) = beside_markers Demo.attached
     /\ is_Some (map_ result.2)
     /\ forall ms' icon',
          icon_ok icon' = true -> markers_ok ms' = true ->
          (setMarkers ms' icon' (result.2)).1 = Returned tt.
Proof.
  assert (H1 : is_Some (map_ Demo.attached)) by (eexists; reflexivity).
  split; [exact H1 |].
  exact (setMarkers_throws_iff_misused Demo.attached
           (MarkersArray [EntryOther "a string"]) IconUndefined H1).
Defined.

(** C7 as it was stated fails before the editor has its map: an empty list
    and no icon make [setMarkers] throw a [TypeError]. *)
Lemma setMarkers_throws_without_map :
  let ms := MarkersArray [] in
  let icon := IconUndefined in
  (exists e, (setMarkers ms icon prototype).1 = Thrown e)
  /\ ~ ((exists d, icon = IconOther d)
        \/ (exists entries d, ms = MarkersArray entries /\ EntryOther d ∈ entries)).
Proof.
  split.
  - eexists. reflexivity.
  - intros [[d Hd]|(entries & d & Hms & Hd)].
    + discriminate.
    + injection Hms as <-. inversion Hd.
Qed.

(** * Running statements *)

Lemma bind_get {B} (k : World -> M B) w : bind get k w = k w w.
Proof. reflexivity. Qed.
Lemma bind_ret {A B} (a : A) (k : A -> M B) w : bind (ret a) k w = k a w.
Proof. reflexivity. Qed.
Lemma bind_modify {B} g (k : unit -> M B) w : bind (modify g) k w = k tt (g w).
Proof. reflexivity. Qed.
Lemma bind_emit {B} e (k : unit -> M B) w :
  bind (emit e) k w = k tt (set_log (log w ++ [e]) w).
Proof. reflexivity. Qed.
Lemma bind_fresh {B} (k : ref -> M B) w :
  bind fresh k w = k (S (lastId w)) (set_lastId (S (lastId w)) w).
Proof. reflexivity. Qed.
Lemma bind_with_map {B} g (k : unit -> M B) w m :
  map_ w = Some m -> bind (with_map g) k w = k tt (set_map (Some (g m)) w).
Proof. intros Hm. unfold bind, with_map. rewrite Hm. reflexivity. Qed.
Lemma bind_bind {A B C} (m : M A) (k1 : A -> M B) (k2 : B -> M C) w :
  bind (bind m k1) k2 w = bind m (fun a => bind (k1 a) k2) w.
Proof. unfold bind. destruct (m w) as [[a|e] w1]; reflexivity. Qed.
Lemma bind_returned {A B} (m : M A) (k : A -> M B) w a w1 :
  m w = (Returned a, w1) -> bind m k w = k a w1.
Proof. intros Hm. unfold bind. rewrite Hm. reflexivity. Qed.
Lemma bind_thrown {A B} (m : M A) (k : A -> M B) w e w1 :
  m w = (Thrown e, w1) -> bind m k w = (Thrown e, w1).
Proof. intros Hm. unfold bind. rewrite Hm. reflexivity. Qed.

(** * Shape creation *)

Ltac created_leaf :=
  intros; unfold polygon_created in *; simpl;
  match goal with
  | H : _ /\ _ |- _ =>
      let evs := fresh "evs" in
      let Hlog := fresh "Hlog" in
      let Hpoly := fresh "Hpoly" in
      destruct H as [[evs Hlog] Hpoly];
      split;
      [ first [ eexists; exact Hlog
              | eexists; rewrite Hlog, <- app_assoc; simpl; reflexivity ]
      | first [ exact Hpoly
              | rewrite lookup_alter; case_decide; subst; [| exact Hpoly];
                destruct (polygons _ !! _); simpl in *; exact Hpoly ] ]
  end.

Section Creation.
Context `{host : Leaflet}.

Lemma created_attachEdges p l base q :
  stable (polygon_created p l base) (attachEdges q).
Proof. stable_walk; created_leaf. Qed.

Lemma created_setMode p l base mode' :
  stable (polygon_created p l base) (setMode mode').
Proof. stable_walk; created_leaf. Qed.

Lemma createPolygon_created l w :
  attached w -> polygon_created (S (lastId w)) l (log w) (createPolygon l w).2.
Proof.
  intros [[m Hm] [s Hs]]. unfold createPolygon, destroyD3, createD3.
  rewrite bind_bind, bind_get, Hs. simpl.
  rewrite !bind_modify, bind_fresh, bind_emit.
  erewrite bind_with_map by (simpl; exact Hm).
  rewrite bind_modify. simpl.
  apply stable_after.
  2:{ intros _. stable_walk; created_leaf. }
  apply created_attachEdges.
  split; simpl.
  - exists []. reflexivity.
  - rewrite lookup_insert_eq. reflexivity.
Qed.

(** With no hull algorithm, [_createMouseUp] hands [createPolygon] the trace
    and its first point once more. *)
Lemma createMouseUp_without_hull w first second third rest :
  attached w ->
  latLngs w = first :: second :: third :: rest ->
  hull_disabled (options w) = true ->
  polygon_created (S (lastId w)) (latLngs w ++ [first]) (log w) (_createMouseUp w).2.
Proof.
  intros Hw Hl Hhull. unfold _createMouseUp.
  rewrite bind_modify, bind_get. simpl. rewrite Hl.
  assert (Hnone :
    (match hullAlgorithm (options w) with
     | HullName name => setMap;; do reduced <- hull_call name; ret (Some reduced)
     | _ => ret None
     end) = ret None).
  { unfold hull_disabled in Hhull. destruct (hullAlgorithm (options w));
      [reflexivity | reflexivity | discriminate]. }
  rewrite Hnone, bind_ret, bind_modify, bind_get. simpl. rewrite Hl. simpl.
  apply stable_after.
  - apply (createPolygon_created (first :: second :: third :: rest ++ [first])
             (set_latLngs (first :: second :: third :: rest ++ [first])
                (set_creating false w))).
    exact Hw.
  - intros polygon. stable_walk; created_leaf.
Qed.

(** C6.  When the pointer is released (or leaves) with no edge grabbed and
    fewer than three points traced, the handler returns, and all it did was
    to clear [creating]: no polygon, no edge, no call of the user's
    callback, nothing thrown. *)
Theorem short_trace_is_discarded (w : World) :
  movingEdge w = None ->
  (length (latLngs w) < 3)%nat ->
  onMouseUpAndMouseLeave w = (Returned tt, set_creating false w)
  /\ polygons (set_creating false w) = polygons w
  /\ edges (set_creating false w) = edges w
  /\ markers (set_creating false w) = markers w
  /\ log (set_creating false w) = log w.
Proof.
  intros Hmoving Hshort. repeat split.
  unfold onMouseUpAndMouseLeave. rewrite bind_get, Hmoving.
  unfold _createMouseUp. rewrite bind_modify, bind_get. simpl.
  destruct (latLngs w) as [|a [|b [|c l]]]; try reflexivity.
  simpl in Hshort. lia.
Qed.
End Creation.

(** C6, on a trace of two points. *)
Lemma short_trace_is_discarded_witness :
  movingEdge Demo.short_trace = None
  /\ (length (latLngs Demo.short_trace) < 3)%nat
  /\ (@onMouseUpAndMouseLeave Demo.host Demo.short_trace
        = (Returned tt, set_creating false Demo.short_trace)
      /\ polygons (set_creating false Demo.short_trace) = polygons Demo.short_trace
      /\ edges (set_creating false Demo.short_trace) = edges Demo.short_trace
      /\ markers (set_creating false Demo.short_trace) = markers Demo.short_trace
      /\ log (set_creating false Demo.short_trace) = log Demo.short_trace).
Proof.
  assert (H1 : movingEdge Demo.short_trace = None) by reflexivity.
  assert (H2 : (length (latLngs Demo.short_trace) < 3)%nat) by (vm_compute; lia).
  repeat (split; [assumption |]).
  exact (@short_trace_is_discarded Demo.host Demo.short_trace H1 H2).
Defined.

(** * The hull algorithm *)

Lemma setHullAlgorithm_unrecognized (o : Options) (s : string) :
  hullAlgorithms o !! s = None ->
  setHullAlgorithm (AlgString s) o =
    if String.eqb s "" then opt_hullAlgorithm HullUndefined o else o.
Proof.
  intros Hs. unfold setHullAlgorithm. simpl. rewrite Hs.
  destruct (String.eqb s ""); reflexivity.
Qed.

(** C8 as amended.  [setHullAlgorithm] is a function without a [throw].
    Given a string the table does not have, it leaves the options as they
    are when the string is not empty, and stores [undefined] when it is the
    empty string.  So hull reduction stays disabled where it was disabled,
    and the next shape is then made from the trace and its first point. *)
Theorem unrecognized_hull_name_changes_nothing
    `{host : Leaflet} (o : Options) (s : string) :
  hullAlgorithms o !! s = None ->
  (s <> "" -> setHullAlgorithm (AlgString s) o = o)
  /\ (s = "" -> setHullAlgorithm (AlgString s) o = opt_hullAlgorithm HullUndefined o)
  /\ (hull_disabled o = true ->
      hull_disabled (setHullAlgorithm (AlgString s) o) = true
      /\ forall w first second third rest,
           options w = setHullAlgorithm (AlgString s) o ->
           attached w ->
           latLngs w = first :: second :: third :: rest ->
           polygon_created (S (lastId w)) (latLngs w ++ [first]) (log w)
             (_createMouseUp w).2).
Proof.
  intros Hs. rewrite (setHullAlgorithm_unrecognized o s Hs).
  assert (Hdisabled : hull_disabled o = true ->
            hull_disabled (if String.eqb s "" then opt_hullAlgorithm HullUndefined o else o)
            = true).
  { intros Ho. destruct (String.eqb s ""); [reflexivity | exact Ho]. }
  split; [| split; [| split]].
  - intros Hne. apply String.eqb_neq in Hne. rewrite Hne. reflexivity.
  - intros ->. reflexivity.
  - apply Hdisabled. assumption.
  - intros w first second third rest Hopt Hw Hl.
    apply (createMouseUp_without_hull w first second third rest Hw Hl).
    rewrite Hopt. apply Hdisabled. assumption.
Qed.

(** C8 as amended, for the name "typo" and the options of a new editor. *)
Lemma unrecognized_hull_name_changes_nothing_witness :
  hullAlgorithms new_Options !! "typo" = None
  /\ (("typo" <> "" -> setHullAlgorithm (AlgString "typo") new_Options = new_Options)
      /\ ("typo" = "" ->
          setHullAlgorithm (AlgString "typo") new_Options
          = opt_hullAlgorithm HullUndefined new_Options)
      /\ (hull_disabled new_Options = true ->
          hull_disabled (setHullAlgorithm (AlgString "typo") new_Options) = true
          /\ forall w first second third rest,
               options w = setHullAlgorithm (AlgString "typo") new_Options ->
               attached w ->
               latLngs w = first :: second :: third :: rest ->
               polygon_created (S (lastId w)) (latLngs w ++ [first]) (log w)
                 (@_createMouseUp Demo.host w).2)).
Proof.
  assert (H1 : hullAlgorithms new_Options !! "typo" = None) by reflexivity.
  split; [exact H1 |].
  exact (@unrecognized_hull_name_changes_nothing Demo.host new_Options "typo" H1).
Defined.

(** C8 as it was stated fails once an algorithm is configured: the name
    "typo" is not in the table, yet after [setHullAlgorithm("typo")] the
    concave hull is still selected, and the next shape is made from the three
    points the hull of the demonstration returns, not from the trace. *)
Lemma unrecognized_hull_name_keeps_algorithm :
  hullAlgorithms (setHullAlgorithm (AlgString "Wildhoney/ConcaveHull") new_Options)
    !! "typo" = None
  /\ hull_disabled DemoHull.options_after_typo = false
  /\ hullAlgorithm DemoHull.options_after_typo = HullName wildhoneyConcaveHull
  /\ (exists reduced,
        NewPolygon 1%nat reduced ∈
          log (@_createMouseUp Demo.host DemoHull.traced_after_typo).2
        /\ length reduced = 3%nat
        /\ length (latLngs DemoHull.traced_after_typo) = 4%nat).
Proof.
  split; [reflexivity |]. split; [reflexivity |]. split; [reflexivity |].
  exists [mkLatLng 50 10; mkLatLng 50 50; mkLatLng 10 50].
  split; [| split; reflexivity].
  vm_compute. left.
Qed.

(** * [notifyBoundaries] *)

Ltac frame_leaf :=
  first
    [ intros; assumption
    | let w := fresh "w" in
      let m := fresh "m" in
      let Hm := fresh "Hm" in
      let Hw := fresh "Hw" in
      intros w m Hm Hw; rewrite <- Hw;
      unfold beside_notify, beside_markers, addLayer; simpl;
      rewrite Hm; try case_decide; reflexivity ].

Lemma notifyBoundaries_frame x :
  stable (fun w => beside_notify w = x) notifyBoundaries.
Proof. stable_walk; frame_leaf. Qed.

Lemma notifyBoundaries_log w :
  log (notifyBoundaries w).2 = log w ++ [CallMarkersFn (boundaries w)].
Proof.
  unfold notifyBoundaries. rewrite bind_get, bind_emit.
  apply (stable_forEach (fun w' => log w' = log w ++ [CallMarkersFn (boundaries w)])).
  - intros call w1 Hw1.
    pose proof (setMarkers_frame call.1 call.2 (beside_markers w1) w1 eq_refl) as H.
    unfold beside_markers in H. rewrite <- Hw1. congruence.
  - reflexivity.
Qed.

Lemma callback_ok_frame w w' :
  beside_notify w' = beside_notify w -> callback_ok w -> callback_ok w'.
Proof.
  intros Heq Hok latLngs' call Hcall. unfold beside_notify in Heq.
  assert (Hopt : options w' = options w) by congruence.
  assert (Hmap : dragging <$> map_ w' = dragging <$> map_ w) by congruence.
  rewrite Hopt in Hcall. destruct (Hok latLngs' call Hcall) as ([m Hm] & Hicon & Hms).
  repeat split; try assumption.
  rewrite Hm in Hmap. destruct (map_ w'); [eauto | discriminate].
Qed.

Lemma forEach_setMarkers_returns calls w :
  (forall call, call ∈ calls ->
     is_Some (map_ w) /\ icon_ok call.2 = true /\ markers_ok call.1 = true) ->
  (forEach (fun call => setMarkers call.1 call.2) calls w).1 = Returned tt.
Proof.
  revert w. induction calls as [|call calls IH]; intros w Hcalls; [reflexivity |].
  destruct (Hcalls call) as (Hmap & Hicon & Hms); [left |].
  simpl. unfold bind.
  pose proof (setMarkers_outcome call.1 call.2 w Hmap) as Hout.
  rewrite Hicon, Hms in Hout.
  pose proof (setMarkers_keeps_map call.1 call.2 w Hmap) as Hkeep.
  destruct (setMarkers call.1 call.2 w) as [o w1]. simpl in *. subst o.
  apply IH. intros call' Hcall'.
  destruct (Hcalls call') as (_ & Hicon' & Hms'); [right; exact Hcall' |].
  auto.
Qed.

Lemma notifyBoundaries_returns w :
  callback_ok w -> (notifyBoundaries w).1 = Returned tt.
Proof.
  intros Hok. unfold notifyBoundaries. rewrite bind_get, bind_emit.
  apply forEach_setMarkers_returns. intros call Hcall.
  apply (Hok (boundaries w) call Hcall).
Qed.

(** What a call of [notifyBoundaries] comes to when the callback behaves. *)
Lemma notifyBoundaries_run w :
  callback_ok w ->
  exists w', notifyBoundaries w = (Returned tt, w')
    /\ beside_notify w' = beside_notify w
    /\ log w' = log w ++ [CallMarkersFn (boundaries w)]
    /\ callback_ok w'.
Proof.
  intros Hok.
  pose proof (notifyBoundaries_returns w Hok) as Hret.
  pose proof (notifyBoundaries_frame (beside_notify w) w eq_refl) as Hframe.
  pose proof (notifyBoundaries_log w) as Hlog.
  destruct (notifyBoundaries w) as [o w']. simpl in *. subst o.
  exists w'. split; [reflexivity |]. split; [exact Hframe |]. split; [exact Hlog |].
  apply (callback_ok_frame w w' Hframe Hok).
Qed.

(** * [setMode] *)

Lemma elem_of_classList_add (c c' : string) (l : list string) :
  c' ∈ classList_add c l <-> c' = c \/ c' ∈ l.
Proof.
  unfold classList_add. case_decide.
  - split; [auto | intros [->|H']; assumption].
  - rewrite elem_of_app, list_elem_of_singleton. tauto.
Qed.

Lemma elem_of_classList_remove (c c' : string) (l : list string) :
  c' ∈ classList_remove c l <-> c' <> c /\ c' ∈ l.
Proof. unfold classList_remove. rewrite list_elem_of_filter. tauto. Qed.

Lemma mode_bits (m : Z) :
  0 <= m <= 15 ->
  truthy (js_band m MODES.VIEW) = Z.testbit m 0
  /\ truthy (js_band m MODES.CREATE) = Z.testbit m 1
  /\ truthy (js_band m MODES.EDIT) = Z.testbit m 2
  /\ truthy (js_band m MODES.DELETE) = Z.testbit m 3.
Proof.
  intros Hm.
  assert (H : m = 0 \/ m = 1 \/ m = 2 \/ m = 3 \/ m = 4 \/ m = 5 \/ m = 6 \/ m = 7
              \/ m = 8 \/ m = 9 \/ m = 10 \/ m = 11 \/ m = 12 \/ m = 13 \/ m = 14
              \/ m = 15) by lia.
  repeat (destruct H as [->|H]; [repeat split |]). subst m. repeat split.
Qed.

Lemma elem_of_defineClasses (m : Z) (l : list string) (c : string) :
  0 <= m <= 15 ->
  c ∈ defineClasses m l <->
    (c = "mode-view" /\ Z.testbit m 0 = true)
    \/ (c = "mode-create" /\ Z.testbit m 1 = true)
    \/ (c = "mode-edit" /\ Z.testbit m 2 = true)
    \/ (c = "mode-delete" /\ Z.testbit m 3 = true)
    \/ ((c ∉ indicators) /\ c ∈ l).
Proof.
  intros Hm. destruct (mode_bits m Hm) as (Hv & Hc & He & Hd).
  unfold defineClasses. rewrite Hv, Hc, He, Hd.
  assert (Hrest : c ∈ classList_remove "mode-view"
                        (classList_remove "mode-delete"
                           (classList_remove "mode-edit"
                              (classList_remove "mode-create" l)))
                  <-> (c ∉ indicators) /\ c ∈ l).
  { rewrite !elem_of_classList_remove. unfold indicators.
    rewrite !not_elem_of_cons. pose proof (not_elem_of_nil c). tauto. }
  destruct (Z.testbit m 0), (Z.testbit m 1), (Z.testbit m 2), (Z.testbit m 3);
    rewrite ?elem_of_classList_add, Hrest; intuition congruence.
Qed.

(** C3 as amended.  For a mode [m] made of the bits VIEW, CREATE, EDIT and
    DELETE, on an editor that has its map, and provided the user's callback
    behaves where a deferred notification is due (an update is pending and
    [m] has no EDIT bit), [setMode m] returns and then: the mode is [m]; a
    mode class is on the container exactly when its bit is set in [m], the
    other classes being those that were there; each of the four handlers is
    disabled exactly when the CREATE bit is set. *)
Theorem setMode_classes_and_handlers (w : World) (m : Z) (mp : LMap) :
  map_ w = Some mp ->
  0 <= m <= 15 ->
  (boundaryUpdateRequired w = true -> Z.testbit m 2 = false -> callback_ok w) ->
  exists w' mp',
    setMode m w = (Returned tt, w')
    /\ mode w' = m
    /\ map_ w' = Some mp'
    /\ (forall c,
          c ∈ classList mp' <->
            (c = "mode-view" /\ Z.testbit m 0 = true)
            \/ (c = "mode-create" /\ Z.testbit m 1 = true)
            \/ (c = "mode-edit" /\ Z.testbit m 2 = true)
            \/ (c = "mode-delete" /\ Z.testbit m 3 = true)
            \/ ((c ∉ indicators) /\ c ∈ classList mp))
    /\ dragging mp' = negb (Z.testbit m 1)
    /\ touchZoom mp' = negb (Z.testbit m 1)
    /\ doubleClickZoom mp' = negb (Z.testbit m 1)
    /\ scrollWheelZoom mp' = negb (Z.testbit m 1).
Proof.
  intros Hmap Hm Hok.
  destruct (mode_bits m Hm) as (_ & Hcreate & Hedit & _).
  (* the deferred notification, if one is due *)
  assert (Hwhen : exists w1 mp1,
            when (boundaryUpdateRequired w && negb (truthy (js_band m MODES.EDIT)))
                 (notifyBoundaries;; modify (set_boundaryUpdateRequired false))
              (set_mode m w) = (Returned tt, w1)
            /\ mode w1 = m /\ map_ w1 = Some mp1 /\ classList mp1 = classList mp).
  { destruct (boundaryUpdateRequired w && negb (truthy (js_band m MODES.EDIT))) eqn:Hdue;
      simpl.
    - apply andb_true_iff in Hdue. destruct Hdue as [Hpending Hnoedit].
      rewrite Hedit in Hnoedit. apply negb_true_iff in Hnoedit.
      specialize (Hok Hpending Hnoedit).
      destruct (notifyBoundaries_run (set_mode m w)) as (w1 & Hrun & Hframe & _ & _).
      { intros latLngs' call Hcall. apply (Hok latLngs' call) in Hcall.
        simpl. rewrite Hmap in *. exact Hcall. }
      unfold beside_notify in Hframe. simpl in Hframe. rewrite Hmap in Hframe.
      destruct (map_ w1) as [mp1|] eqn:Hmap1; [| discriminate].
      exists (set_boundaryUpdateRequired false w1), mp1.
      rewrite (bind_returned _ _ _ _ _ Hrun). simpl.
      repeat split; [congruence | exact Hmap1 | simpl in Hframe; congruence].
    - exists (set_mode m w), mp. repeat split. exact Hmap. }
  unfold setMode. rewrite bind_modify, bind_get. simpl. rewrite Hmap.
  destruct Hwhen as (w1 & mp1 & Hrun & Hmode & Hmap1 & Hclasses).
  rewrite (bind_returned _ _ _ _ _ Hrun).
  erewrite bind_with_map by exact Hmap1.
  unfold with_map. simpl.
  eexists _, _. split; [reflexivity |]. simpl.
  split; [exact Hmode |]. split; [reflexivity |]. simpl.
  rewrite Hcreate, Hclasses.
  split; [intros c; apply elem_of_defineClasses, Hm |].
  repeat split.
Qed.

(** C3, for the mode EDIT|DELETE on the editor of the demonstration. *)
Lemma setMode_classes_and_handlers_witness :
  let mp := mkLMap false false false false ["leaflet-container"; "mode-create"]%string [] in
  map_ Demo.attached = Some mp
  /\ 0 <= 12 <= 15
  /\ (boundaryUpdateRequired Demo.attached = true -> Z.testbit 12 2 = false ->
      callback_ok Demo.attached)
  /\ exists w' mp',
       setMode 12 Demo.attached = (Returned tt, w')
       /\ mode w' = 12
       /\ map_ w' = Some mp'
       /\ (forall c,
             c ∈ classList mp' <->
               (c = "mode-view" /\ Z.testbit 12 0 = true)
               \/ (c = "mode-create" /\ Z.testbit 12 1 = true)
               \/ (c = "mode-edit" /\ Z.testbit 12 2 = true)
               \/ (c = "mode-delete" /\ Z.testbit 12 3 = true)
               \/ ((c ∉ indicators) /\ c ∈ classList mp))
       /\ dragging mp' = negb (Z.testbit 12 1)
       /\ touchZoom mp' = negb (Z.testbit 12 1)
       /\ doubleClickZoom mp' = negb (Z.testbit 12 1)
       /\ scrollWheelZoom mp' = negb (Z.testbit 12 1).
Proof.
  intros mp.
  assert (H1 : map_ Demo.attached = Some mp) by reflexivity.
  assert (H2 : 0 <= 12 <= 15) by lia.
  assert (H3 : boundaryUpdateRequired Demo.attached = true -> Z.testbit 12 2 = false ->
               callback_ok Demo.attached)
    by (intros _ _ latLngs' call Hcall; inversion Hcall).
  repeat (split; [assumption |]).
  exact (setMode_classes_and_handlers Demo.attached 12 mp H1 H2 H3).
Defined.


(** * Dragging an edge *)

Section Dragging.
Context `{host : Leaflet}.

Lemma updatePolygonEdge_run w edge posX posY :
  is_Some (map_ w) ->
  updatePolygonEdge edge posX posY w = (Returned tt, edge_moved edge posX posY w).
Proof.
  intros [m Hm]. unfold updatePolygonEdge.
  rewrite bind_get, Hm, bind_modify, bind_get, bind_modify. reflexivity.
Qed.

Lemma marker_at_edge_moved w edge posX posY r :
  marker_at (edge_moved edge posX posY w) r =
    if decide (r = edge)
    then match markers w !! r with
         | Some mk => marker_setLatLng (containerPointToLatLng (mkPoint posX posY)) mk
         | None => no_marker
         end
    else marker_at w r.
Proof.
  unfold marker_at, edge_moved. simpl. case_decide.
  - subst r. rewrite lookup_alter_eq. destruct (markers w !! edge); reflexivity.
  - rewrite lookup_alter_ne by congruence. reflexivity.
Qed.

(** C9.  On an editor that has its map, [updatePolygonEdge] returns, and
    then: the position of the grabbed edge is the one the host resolves the
    pointer to, and its polygon, identifier, index and length are as they
    were; every other edge is as it was; the edges
    array is as it was; the polygon of the grabbed edge has as its points the
    positions the edges of that polygon have now, in the order of the array;
    every other polygon is as it was; and the polygon was asked to redraw
    once. *)
Theorem updatePolygonEdge_moves_one_edge
    (w : World) (edge : ref) (posX posY : Z) :
  is_Some (map_ w) ->
  is_Some (markers w !! edge) ->
  is_Some (polygons w !! _polygon (marker_at w edge)) ->
  let updatedLatLng := containerPointToLatLng (mkPoint posX posY) in
  let polygon := _polygon (marker_at w edge) in
  exists w',
    updatePolygonEdge edge posX posY w = (Returned tt, w')
    /\ _latlng (marker_at w' edge) = updatedLatLng
    /\ (_polygon (marker_at w' edge), _polygonId (marker_at w' edge),
        _index (marker_at w' edge), _length (marker_at w' edge))
       = (_polygon (marker_at w edge), _polygonId (marker_at w edge),
          _index (marker_at w edge), _length (marker_at w edge))
    /\ marker_at w' edge = marker_setLatLng updatedLatLng (marker_at w edge)
    /\ (forall r, r <> edge -> markers w' !! r = markers w !! r)
    /\ edges w' = edges w
    /\ _latlngs (polygon_at w' polygon) =
         (fun r => _latlng (marker_at w' r))
           <$> filter (fun r => _polygon (marker_at w' r) = polygon) (edges w')
    /\ (forall q, q <> polygon -> polygons w' !! q = polygons w !! q)
    /\ log w' = log w ++ [Redraw polygon].
Proof.
  intros Hmap [mk Hmk] [pg Hpg] updatedLatLng polygon. subst updatedLatLng.
  set (updatedLatLng := containerPointToLatLng (mkPoint posX posY)).
  unfold updatedLatLng.
  exists (edge_moved edge posX posY w).
  split; [apply updatePolygonEdge_run, Hmap |].
  assert (Hedge : marker_at (edge_moved edge posX posY w) edge
                  = marker_setLatLng (containerPointToLatLng (mkPoint posX posY)) (marker_at w edge)).
  { rewrite marker_at_edge_moved. rewrite decide_True by reflexivity.
    unfold marker_at. rewrite Hmk. reflexivity. }
  assert (Hsame : forall r, marker_at (edge_moved edge posX posY w) r
                    = marker_at
                        (set_markers
                           (alter (marker_setLatLng (containerPointToLatLng (mkPoint posX posY))) edge
                              (markers w)) w) r).
  { intros r. reflexivity. }
  assert (Hpolygon :
            _polygon
              (marker_at
                 (set_markers
                    (alter (marker_setLatLng (containerPointToLatLng (mkPoint posX posY)))
                       edge (markers w)) w)
                 edge) = polygon).
  { rewrite <- Hsame, Hedge. reflexivity. }
  split; [rewrite Hedge; reflexivity |].
  split; [rewrite Hedge; reflexivity |].
  split; [exact Hedge |].
  split; [intros r Hr; apply lookup_alter_ne; congruence |].
  split; [reflexivity |].
  split; [| split].
  - unfold polygon_at, edge_moved. cbv zeta. rewrite Hpolygon.
    change (polygons (set_log ?l (set_polygons ?p ?w0))) with p.
    rewrite lookup_alter_eq. cbn [polygons set_markers]. fold polygon in Hpg.
    rewrite Hpg. reflexivity.
  - intros q Hq. unfold edge_moved. cbv zeta. rewrite Hpolygon.
    change (polygons (set_log ?l (set_polygons ?p ?w0))) with p.
    apply lookup_alter_ne. congruence.
  - unfold edge_moved. cbv zeta. rewrite Hpolygon. reflexivity.
Qed.
End Dragging.

(** C9, for the first edge of the polygon of the demonstration, dragged to
    (15,15). *)
Lemma updatePolygonEdge_moves_one_edge_witness :
  is_Some (map_ Demo.drawn)
  /\ is_Some (markers Demo.drawn !! 2%nat)
  /\ is_Some (polygons Demo.drawn !! _polygon (marker_at Demo.drawn 2%nat))
  /\ (let updatedLatLng := @containerPointToLatLng Demo.host (mkPoint 15 15) in
      let polygon := _polygon (marker_at Demo.drawn 2%nat) in
      exists w',
        @updatePolygonEdge Demo.host 2%nat 15 15 Demo.drawn = (Returned tt, w')
        /\ _latlng (marker_at w' 2%nat) = updatedLatLng
        /\ (_polygon (marker_at w' 2%nat), _polygonId (marker_at w' 2%nat),
            _index (marker_at w' 2%nat), _length (marker_at w' 2%nat))
           = (_polygon (marker_at Demo.drawn 2%nat), _polygonId (marker_at Demo.drawn 2%nat),
              _index (marker_at Demo.drawn 2%nat), _length (marker_at Demo.drawn 2%nat))
        /\ marker_at w' 2%nat
             = marker_setLatLng updatedLatLng (marker_at Demo.drawn 2%nat)
        /\ (forall r, r <> 2%nat -> markers w' !! r = markers Demo.drawn !! r)
        /\ edges w' = edges Demo.drawn
        /\ _latlngs (polygon_at w' polygon) =
             (fun r => _latlng (marker_at w' r))
               <$> filter (fun r => _polygon (marker_at w' r) = polygon) (edges w')
        /\ (forall q, q <> polygon -> polygons w' !! q = polygons Demo.drawn !! q)
        /\ log w' = log Demo.drawn ++ [Redraw polygon]).
Proof.
  assert (H1 : is_Some (map_ Demo.drawn)) by (eexists; reflexivity).
  assert (H2 : is_Some (markers Demo.drawn !! 2%nat)) by (eexists; reflexivity).
  assert (H3 : is_Some (polygons Demo.drawn !! _polygon (marker_at Demo.drawn 2%nat)))
    by (eexists; reflexivity).
  repeat (split; [assumption |]).
  exact (@updatePolygonEdge_moves_one_edge Demo.host Demo.drawn 2%nat 15 15 H1 H2 H3).
Defined.

(** * Destroying a polygon *)

Lemma set_log_same w : set_log (log w) w = w.
Proof. destruct w; reflexivity. Qed.

Lemma filterM_keep_edge polygon l w :
  filterM (keep_edge polygon) l w =
    (Returned (filter (fun edge => _polygon (marker_at w edge) <> polygon) l),
     set_log
       (log w ++ (IconRemove <$> filter (fun edge => _polygon (marker_at w edge) = polygon) l))
       w).
Proof.
  revert w. induction l as [|edge l IH]; intros w.
  - simpl. rewrite app_nil_r, set_log_same. reflexivity.
  - change (filterM (keep_edge polygon) (edge :: l)) with
      (do v <- keep_edge polygon edge;
       do rest <- filterM (keep_edge polygon) l;
       ret (if js_truthy v then edge :: rest else rest)).
    unfold keep_edge at 1. rewrite bind_bind, bind_get.
    rewrite !filter_cons.
    destruct (decide (_polygon (marker_at w edge) <> polygon)) as [Hne|Heq].
    + rewrite bind_ret. rewrite (bind_returned _ _ _ _ _ (IH w)).
      rewrite decide_False by exact Hne. reflexivity.
    + rewrite bind_bind, bind_emit, bind_ret.
      rewrite (bind_returned _ _ _ _ _ (IH _)).
      rewrite decide_True by (destruct (decide (_polygon (marker_at w edge) = polygon));
                              [assumption | contradiction]).
      unfold ret. simpl. rewrite <- app_assoc. reflexivity.
Qed.

Lemma destroyPolygon_unfold polygon w :
  destroyPolygon polygon w =
    (notifyBoundaries ;; ret JsUndefined) (polygon_destroyed polygon w).
Proof.
  unfold destroyPolygon. rewrite bind_modify, bind_emit, bind_get.
  fold (keep_edge polygon).
  rewrite (bind_returned _ _ _ _ _ (filterM_keep_edge polygon _ _)).
  rewrite bind_modify. unfold polygon_destroyed, edges_beside, edges_of.
  simpl. rewrite <- app_assoc. reflexivity.
Qed.

Lemma callback_ok_polygon_destroyed polygon w :
  callback_ok w -> callback_ok (polygon_destroyed polygon w).
Proof. intros Hok latLngs' call Hcall. apply (Hok latLngs' call Hcall). Qed.

(** What a call of [destroyPolygon] comes to when the callback behaves. *)
Lemma destroyPolygon_run polygon w :
  callback_ok w ->
  exists w',
    destroyPolygon polygon w = (Returned JsUndefined, w')
    /\ beside_notify w' = beside_notify (polygon_destroyed polygon w)
    /\ log w' = log w ++ ContainerRemove polygon :: (IconRemove <$> edges_of w polygon)
                  ++ [CallMarkersFn (boundaries w')]
    /\ callback_ok w'.
Proof.
  intros Hok. rewrite destroyPolygon_unfold.
  destruct (notifyBoundaries_run (polygon_destroyed polygon w)) as (w' & Hrun & Hframe & Hlog & Hok').
  { apply callback_ok_polygon_destroyed, Hok. }
  exists w'. rewrite (bind_returned _ _ _ _ _ Hrun).
  split; [reflexivity |]. split; [exact Hframe |]. split; [| exact Hok'].
  rewrite Hlog. simpl. rewrite <- app_assoc. simpl.
  assert (Hb : boundaries w' = boundaries (polygon_destroyed polygon w)).
  { unfold boundaries, marker_at. unfold beside_notify in Hframe.
    replace (markers w') with (markers (polygon_destroyed polygon w)) by congruence.
    replace (edges w') with (edges (polygon_destroyed polygon w)) by congruence.
    reflexivity. }
  rewrite Hb. reflexivity.
Qed.

Lemma filter_filter_not {A} (P : A -> Prop) `{forall a, Decision (P a)} (l : list A) :
  filter P (filter (fun a => ~ P a) l) = [].
Proof.
  induction l as [|a l IH]; [reflexivity |].
  rewrite filter_cons. destruct (decide (~ P a)) as [Hn|Hp].
  - rewrite filter_cons, decide_False by exact Hn. exact IH.
  - exact IH.
Qed.

Lemma filter_not_filter_not {A} (P : A -> Prop) `{forall a, Decision (P a)} (l : list A) :
  filter (fun a => ~ P a) (filter (fun a => ~ P a) l) = filter (fun a => ~ P a) l.
Proof.
  induction l as [|a l IH]; [reflexivity |].
  rewrite filter_cons. destruct (decide (~ P a)) as [Hn|Hp].
  - rewrite filter_cons, decide_True by exact Hn. rewrite IH. reflexivity.
  - exact IH.
Qed.

(** What two calls of [destroyPolygon] come to when the callback behaves. *)
Lemma destroyPolygon_twice_run (w : World) (polygon : ref) :
  callback_ok w ->
  exists w1 w2,
    destroyPolygon polygon w = (Returned JsUndefined, w1)
    /\ edges w1 = edges_beside w polygon
    /\ log w1 = log w ++ ContainerRemove polygon :: (IconRemove <$> edges_of w polygon)
                  ++ [CallMarkersFn (boundaries w1)]
    /\ destroyPolygon polygon w1 = (Returned JsUndefined, w2)
    /\ edges w2 = edges w1
    /\ log w2 = log w1 ++ [ContainerRemove polygon; CallMarkersFn (boundaries w2)].
Proof.
  intros Hok.
  destruct (destroyPolygon_run polygon w Hok) as (w1 & Hrun1 & Hframe1 & Hlog1 & Hok1).
  destruct (destroyPolygon_run polygon w1 Hok1) as (w2 & Hrun2 & Hframe2 & Hlog2 & _).
  assert (Hedges1 : edges w1 = edges_beside w polygon).
  { unfold beside_notify in Hframe1. simpl in Hframe1. congruence. }
  assert (Hmarkers1 : markers w1 = markers w).
  { unfold beside_notify in Hframe1. simpl in Hframe1. congruence. }
  assert (Hnone : edges_of w1 polygon = []).
  { unfold edges_of, marker_at. rewrite Hmarkers1, Hedges1.
    apply (filter_filter_not (fun edge => _polygon (default no_marker (markers w !! edge)) = polygon)). }
  assert (Hsame : edges_beside w1 polygon = edges w1).
  { unfold edges_beside, marker_at. rewrite Hmarkers1, Hedges1.
    apply (filter_not_filter_not
             (fun edge => _polygon (default no_marker (markers w !! edge)) = polygon)). }
  exists w1, w2. repeat split; try assumption.
  - unfold beside_notify in Hframe2. simpl in Hframe2. congruence.
  - rewrite Hlog2, Hnone. reflexivity.
Qed.

(** What a call of [destroyPolygon] comes to whatever the callback does: it
    returns [undefined] or throws what [notifyBoundaries] threw, after
    [this.edges] was assigned. *)
Lemma destroyPolygon_outcome (w : World) (polygon : ref) :
  ((destroyPolygon polygon w).1 = Returned JsUndefined
   \/ exists e, (destroyPolygon polygon w).1 = Thrown e)
  /\ beside_notify (destroyPolygon polygon w).2
     = beside_notify (polygon_destroyed polygon w).
Proof.
  rewrite destroyPolygon_unfold.
  pose proof (notifyBoundaries_frame (beside_notify (polygon_destroyed polygon w))
                (polygon_destroyed polygon w) eq_refl) as Hframe.
  unfold bind. destruct (notifyBoundaries (polygon_destroyed polygon w)) as [[[]|e] w'].
  - split; [left; reflexivity | exact Hframe].
  - split; [right; exists e; reflexivity | exact Hframe].
Qed.

(** C5 as amended.  Whatever the callback does, the first [destroyPolygon]
    of a polygon keeps in [this.edges] the edges of the other polygons, in
    order, and no edge of the polygon, and a second call right after it
    leaves [this.edges] as it is.  [destroyPolygon] has no value to report:
    whenever it returns, it returns [undefined], whether edges were removed
    or not.  When the callback behaves both calls return, the first removes
    the icon of every edge of the polygon and the second removes no icon. *)
Theorem destroyPolygon_twice (w : World) (polygon : ref) :
  let w1 := (destroyPolygon polygon w).2 in
  let w2 := (destroyPolygon polygon w1).2 in
  edges w1 = edges_beside w polygon
  /\ edges_of w1 polygon = []
  /\ edges w2 = edges w1
  /\ (forall v w', destroyPolygon polygon w = (Returned v, w') -> v = JsUndefined)
  /\ (forall v w', destroyPolygon polygon w1 = (Returned v, w') -> v = JsUndefined)
  /\ (callback_ok w ->
      destroyPolygon polygon w = (Returned JsUndefined, w1)
      /\ destroyPolygon polygon w1 = (Returned JsUndefined, w2)
      /\ log w1 = log w ++ ContainerRemove polygon :: (IconRemove <$> edges_of w polygon)
                    ++ [CallMarkersFn (boundaries w1)]
      /\ log w2 = log w1 ++ [ContainerRemove polygon; CallMarkersFn (boundaries w2)]).
Proof.
  intros w1 w2.
  destruct (destroyPolygon_outcome w polygon) as [Hout1 Hframe1]. fold w1 in Hframe1.
  destruct (destroyPolygon_outcome w1 polygon) as [Hout2 Hframe2]. fold w2 in Hframe2.
  unfold beside_notify in Hframe1, Hframe2.
  assert (Hedges1 : edges w1 = edges_beside w polygon).
  { transitivity (edges (polygon_destroyed polygon w)); [congruence | reflexivity]. }
  assert (Hmarkers1 : markers w1 = markers w).
  { transitivity (markers (polygon_destroyed polygon w)); [congruence | reflexivity]. }
  assert (Hnone : edges_of w1 polygon = []).
  { unfold edges_of, marker_at. rewrite Hmarkers1, Hedges1.
    apply (filter_filter_not (fun edge => _polygon (default no_marker (markers w !! edge)) = polygon)). }
  assert (Hsame : edges_beside w1 polygon = edges w1).
  { unfold edges_beside, marker_at. rewrite Hmarkers1, Hedges1.
    apply (filter_not_filter_not
             (fun edge => _polygon (default no_marker (markers w !! edge)) = polygon)). }
  split; [exact Hedges1 |].
  split; [exact Hnone |].
  split.
  { transitivity (edges (polygon_destroyed polygon w1)); [congruence | exact Hsame]. }
  split.
  { intros v w' Hrun. rewrite Hrun in Hout1. simpl in Hout1.
    destruct Hout1 as [H|[e H]]; congruence. }
  split.
  { intros v w' Hrun. rewrite Hrun in Hout2. simpl in Hout2.
    destruct Hout2 as [H|[e H]]; congruence. }
  intros Hok.
  destruct (destroyPolygon_twice_run w polygon Hok)
    as (u1 & u2 & Hrun1 & _ & Hlog1 & Hrun2 & _ & Hlog2).
  assert (E1 : w1 = u1) by (unfold w1; rewrite Hrun1; reflexivity).
  rewrite <- E1 in Hrun1, Hlog1, Hrun2, Hlog2.
  assert (E2 : w2 = u2) by (unfold w2; rewrite Hrun2; reflexivity).
  rewrite <- E2 in Hrun2, Hlog2.
  repeat split; assumption.
Qed.

(** C5 as amended, on the polygon of the demonstration, where the callback
    behaves. *)
Lemma destroyPolygon_twice_witness :
  let w := Demo.drawn in
  let w1 := (destroyPolygon 1%nat w).2 in
  let w2 := (destroyPolygon 1%nat w1).2 in
  callback_ok w
  /\ edges w1 = edges_beside w 1%nat
  /\ edges_of w1 1%nat = []
  /\ edges w2 = edges w1
  /\ (forall v w', destroyPolygon 1%nat w = (Returned v, w') -> v = JsUndefined)
  /\ (forall v w', destroyPolygon 1%nat w1 = (Returned v, w') -> v = JsUndefined)
  /\ destroyPolygon 1%nat w = (Returned JsUndefined, w1)
  /\ destroyPolygon 1%nat w1 = (Returned JsUndefined, w2)
  /\ log w1 = log w ++ ContainerRemove 1%nat :: (IconRemove <$> edges_of w 1%nat)
                ++ [CallMarkersFn (boundaries w1)]
  /\ log w2 = log w1 ++ [ContainerRemove 1%nat; CallMarkersFn (boundaries w2)].
Proof.
  intros w w1 w2.
  assert (H1 : callback_ok w) by (intros latLngs' call Hcall; inversion Hcall).
  split; [exact H1 |].
  destruct (destroyPolygon_twice w 1%nat) as (Ha & Hb & Hc & Hd & He & Hf).
  split; [exact Ha |]. split; [exact Hb |]. split; [exact Hc |].
  split; [exact Hd |]. split; [exact He |].
  exact (Hf H1).
Defined.

(** C5 as it was stated fails on the polygon of the demonstration: its five
    edges are removed, and what [destroyPolygon] reports is [undefined], not
    true. *)
Lemma destroyPolygon_reports_nothing :
  edges_of Demo.drawn 1%nat = [2; 3; 4; 5; 6]%nat
  /\ edges (destroyPolygon 1%nat Demo.drawn).2 = []
  /\ (destroyPolygon 1%nat Demo.drawn).1 = Returned JsUndefined
  /\ (destroyPolygon 1%nat Demo.drawn).1 <> Returned (JsBool true)
  /\ js_truthy JsUndefined = false.
Proof.
  assert (H : (destroyPolygon 1%nat Demo.drawn).1 = Returned JsUndefined)
    by (vm_compute; reflexivity).
  split; [| split; [| split; [| split]]]; try (vm_compute; reflexivity).
  rewrite H. discriminate.
Qed.

(** * Clearing the polygons *)

Lemma filter_owner_split {A B} `{EqDecision B} (f : A -> B) (p : B) (ps : list B)
    (l : list A) :
  filter (fun a => f a = p) l ++ filter (fun a => f a ∈ ps) (filter (fun a => f a <> p) l)
  ≡ₚ filter (fun a => f a ∈ p :: ps) l.
Proof.
  induction l as [|a l IH]; [reflexivity |].
  rewrite !filter_cons.
  destruct (decide (f a = p)) as [Heq|Hne].
  - rewrite decide_False by (intros Hn; apply Hn, Heq).
    rewrite decide_True by (rewrite Heq; left).
    simpl. constructor. exact IH.
  - rewrite decide_True by exact Hne.
    rewrite filter_cons.
    destruct (decide (f a ∈ ps)) as [Hin|Hout].
    + rewrite decide_True by (right; exact Hin).
      rewrite <- Permutation_middle. constructor. exact IH.
    + rewrite decide_False; [exact IH |].
      intros Hin. apply elem_of_cons in Hin. destruct Hin; contradiction.
Qed.

Lemma filter_owner_beside {A B} `{EqDecision B} (f : A -> B) (p : B) (ps : list B)
    (l : list A) :
  filter (fun a => f a ∉ ps) (filter (fun a => f a <> p) l)
  = filter (fun a => f a ∉ p :: ps) l.
Proof.
  rewrite list_filter_filter. apply list_filter_iff.
  intros a. rewrite not_elem_of_cons. tauto.
Qed.

Lemma filter_all {A} (P : A -> Prop) `{forall a, Decision (P a)} (l : list A) :
  (forall a, a ∈ l -> P a) -> filter P l = l.
Proof.
  induction l as [|a l IH]; intros Hall; [reflexivity |].
  rewrite filter_cons_True by (apply Hall; left).
  rewrite IH; [reflexivity |]. intros b Hb. apply Hall. right. exact Hb.
Qed.

Lemma filter_none {A} (P : A -> Prop) `{forall a, Decision (P a)} (l : list A) :
  (forall a, a ∈ l -> ~ P a) -> filter P l = [].
Proof.
  induction l as [|a l IH]; intros Hall; [reflexivity |].
  rewrite filter_cons_False by (apply Hall; left).
  apply IH. intros b Hb. apply Hall. right. exact Hb.
Qed.

Lemma calls_app l1 l2 : calls (l1 ++ l2) = calls l1 ++ calls l2.
Proof. apply omap_app. Qed.
Lemma containers_removed_app l1 l2 :
  containers_removed (l1 ++ l2) = containers_removed l1 ++ containers_removed l2.
Proof. apply omap_app. Qed.
Lemma icons_removed_app l1 l2 :
  icons_removed (l1 ++ l2) = icons_removed l1 ++ icons_removed l2.
Proof. apply omap_app. Qed.

Lemma icons_removed_fmap l : icons_removed (IconRemove <$> l) = l.
Proof. induction l as [|r l IH]; [reflexivity |]. simpl. f_equal. exact IH. Qed.
Lemma calls_fmap_icons l : calls (IconRemove <$> l) = [].
Proof. induction l as [|r l IH]; [reflexivity | exact IH]. Qed.
Lemma containers_removed_fmap_icons l : containers_removed (IconRemove <$> l) = [].
Proof. induction l as [|r l IH]; [reflexivity | exact IH]. Qed.

Lemma clear_step_run edge w :
  callback_ok w ->
  exists w',
    clear_step edge w = (Returned tt, w')
    /\ beside_notify w' = beside_notify (polygon_destroyed (owner w edge) w)
    /\ log w' = log w ++ ContainerRemove (owner w edge)
                  :: (IconRemove <$> edges_of w (owner w edge))
                  ++ [CallMarkersFn (boundaries w')]
    /\ callback_ok w'.
Proof.
  intros Hok. unfold clear_step. rewrite bind_get.
  destruct (destroyPolygon_run (owner w edge) w Hok) as (w' & Hrun & Hrest).
  exists w'. unfold owner in *.
  rewrite (bind_returned _ _ _ _ _ Hrun). split; [reflexivity | exact Hrest].
Qed.

Lemma clear_loop_run snapshot w :
  callback_ok w ->
  exists w' evs,
    forEach clear_step snapshot w = (Returned tt, w')
    /\ callback_ok w'
    /\ markers w' = markers w
    /\ edges w' = filter (fun e => owner w e ∉ owner w <$> snapshot) (edges w)
    /\ log w' = log w ++ evs
    /\ length (calls evs) = length snapshot
    /\ containers_removed evs = owner w <$> snapshot
    /\ icons_removed evs ≡ₚ filter (fun e => owner w e ∈ owner w <$> snapshot) (edges w).
Proof.
  revert w. induction snapshot as [|edge rest IH]; intros w Hok.
  - exists w, []. simpl. split; [reflexivity |]. split; [exact Hok |].
    split; [reflexivity |].
    split; [symmetry; apply filter_all; intros a _; apply not_elem_of_nil |].
    split; [rewrite app_nil_r; reflexivity |].
    split; [reflexivity |]. split; [reflexivity |].
    rewrite filter_none; [reflexivity |]. intros a _. apply not_elem_of_nil.
  - destruct (clear_step_run edge w Hok) as (w1 & Hrun1 & Hframe1 & Hlog1 & Hok1).
    destruct (IH w1 Hok1) as (w' & evs & Hrun & Hok' & Hmarkers & Hedges & Hlog & Hcalls & Hcont & Hicons).
    assert (Hmarkers1 : markers w1 = markers w).
    { unfold beside_notify in Hframe1. simpl in Hframe1. congruence. }
    assert (Hedges1 : edges w1 = edges_beside w (owner w edge)).
    { unfold beside_notify in Hframe1. simpl in Hframe1. congruence. }
    assert (Howner : owner w1 = owner w).
    { unfold owner, marker_at. rewrite Hmarkers1. reflexivity. }
    rewrite Howner in *. rewrite Hedges1 in *.
    exists w', (ContainerRemove (owner w edge)
                  :: (IconRemove <$> edges_of w (owner w edge))
                  ++ [CallMarkersFn (boundaries w1)] ++ evs).
    simpl forEach. rewrite (bind_returned _ _ _ _ _ Hrun1).
    split; [exact Hrun |]. split; [exact Hok' |].
    split; [congruence |].
    split.
    { rewrite Hedges. unfold edges_beside. rewrite fmap_cons.
      apply (filter_owner_beside (owner w)). }
    split.
    { rewrite Hlog, Hlog1. rewrite <- !app_assoc. simpl. rewrite <- !app_assoc.
      reflexivity. }
    split.
    { change (ContainerRemove (owner w edge)
                :: (IconRemove <$> edges_of w (owner w edge))
                ++ [CallMarkersFn (boundaries w1)] ++ evs)
        with ([ContainerRemove (owner w edge)]
                ++ (IconRemove <$> edges_of w (owner w edge))
                ++ [CallMarkersFn (boundaries w1)] ++ evs).
      rewrite !calls_app, calls_fmap_icons. simpl. rewrite Hcalls. reflexivity. }
    split.
    { change (ContainerRemove (owner w edge)
                :: (IconRemove <$> edges_of w (owner w edge))
                ++ [CallMarkersFn (boundaries w1)] ++ evs)
        with ([ContainerRemove (owner w edge)]
                ++ (IconRemove <$> edges_of w (owner w edge))
                ++ [CallMarkersFn (boundaries w1)] ++ evs).
      rewrite !containers_removed_app, containers_removed_fmap_icons. simpl.
      rewrite Hcont. reflexivity. }
    change (ContainerRemove (owner w edge)
              :: (IconRemove <$> edges_of w (owner w edge))
              ++ [CallMarkersFn (boundaries w1)] ++ evs)
      with ([ContainerRemove (owner w edge)]
              ++ (IconRemove <$> edges_of w (owner w edge))
              ++ [CallMarkersFn (boundaries w1)] ++ evs).
    rewrite !icons_removed_app, icons_removed_fmap. simpl.
    rewrite Hicons. unfold edges_beside, edges_of.
    apply (filter_owner_split (owner w)).
Qed.

(** What [clearPolygons] comes to when the callback behaves: it calls
    [destroyPolygon] for every edge that was in [this.edges], with the
    polygon of that edge, and [notifyBoundaries] after that. *)
Lemma clearPolygons_run (w : World) :
  callback_ok w ->
  exists w' evs,
    clearPolygons w = (Returned tt, w')
    /\ edges w' = []
    /\ log w' = log w ++ evs
    /\ containers_removed evs = owner w <$> edges w
    /\ icons_removed evs ≡ₚ edges w
    /\ length (calls evs) = S (length (edges w))
    /\ last evs = Some (CallMarkersFn []).
Proof.
  intros Hok. unfold clearPolygons. rewrite bind_get. fold clear_step.
  destruct (clear_loop_run (edges w) w Hok)
    as (w1 & evs & Hrun & Hok1 & Hmarkers & Hedges & Hlog & Hcalls & Hcont & Hicons).
  assert (Hempty : edges w1 = []).
  { rewrite Hedges. apply filter_none. intros e He Hout. apply Hout.
    apply list_elem_of_fmap. exists e. split; [reflexivity | exact He]. }
  destruct (notifyBoundaries_run w1 Hok1) as (w' & Hnotify & Hframe & Hlog' & _).
  assert (Hnone : boundaries w1 = []).
  { unfold boundaries. rewrite Hempty. reflexivity. }
  exists w', (evs ++ [CallMarkersFn []]).
  rewrite (bind_returned _ _ _ _ _ Hrun).
  split; [exact Hnotify |].
  split; [unfold beside_notify in Hframe; congruence |].
  split; [rewrite Hlog', Hlog, Hnone, <- app_assoc; reflexivity |].
  split; [rewrite containers_removed_app, Hcont; apply app_nil_r |].
  split.
  { rewrite icons_removed_app, Hicons. simpl. rewrite app_nil_r.
    rewrite filter_all; [reflexivity |]. intros e He.
    apply list_elem_of_fmap. exists e. split; [reflexivity | exact He]. }
  split; [rewrite calls_app, length_app, Hcalls; simpl; lia |].
  apply last_snoc.
Qed.

(** C4 as amended.  When the callback behaves, [clearPolygons] returns and
    leaves no edge in [this.edges]; the polygons whose container was removed
    are those that had an edge; the icons removed are those of the edges
    there were; and the last thing it does is call the user's callback with
    no shape. *)
Theorem clearPolygons_leaves_no_edge (w : World) :
  callback_ok w ->
  exists w' evs,
    clearPolygons w = (Returned tt, w')
    /\ edges w' = []
    /\ log w' = log w ++ evs
    /\ (forall polygon,
          polygon ∈ containers_removed evs <-> polygon ∈ (owner w <$> edges w))
    /\ icons_removed evs ≡ₚ edges w
    /\ last evs = Some (CallMarkersFn []).
Proof.
  intros Hok.
  destruct (clearPolygons_run w Hok)
    as (w' & evs & Hrun & Hedges & Hlog & Hcont & Hicons & _ & Hlast).
  exists w', evs. split; [exact Hrun |]. split; [exact Hedges |].
  split; [exact Hlog |].
  split; [intros polygon; rewrite Hcont; reflexivity |].
  split; [exact Hicons | exact Hlast].
Qed.

(** C4 as amended, on the polygon of the demonstration. *)
Lemma clearPolygons_leaves_no_edge_witness :
  callback_ok Demo.drawn
  /\ exists w' evs,
       clearPolygons Demo.drawn = (Returned tt, w')
       /\ edges w' = []
       /\ log w' = log Demo.drawn ++ evs
       /\ (forall polygon,
             polygon ∈ containers_removed evs
             <-> polygon ∈ (owner Demo.drawn <$> edges Demo.drawn))
       /\ icons_removed evs ≡ₚ edges Demo.drawn
       /\ last evs = Some (CallMarkersFn []).
Proof.
  assert (H1 : callback_ok Demo.drawn) by (intros latLngs' call Hcall; inversion Hcall).
  split; [exact H1 |].
  exact (clearPolygons_leaves_no_edge Demo.drawn H1).
Defined.

(** C4 as it was stated fails on the demonstration, whose host renders an
    edge for each of the five points of the closed square: with that one
    polygon tracked, [clearPolygons] removes the container of the polygon
    five times and calls the user's callback six times. *)
Lemma clearPolygons_notifies_six_times :
  let w' := (clearPolygons Demo.drawn).2 in
  let evs := drop (length (log Demo.drawn)) (log w') in
  owner Demo.drawn <$> edges Demo.drawn = [1; 1; 1; 1; 1]%nat
  /\ log w' = log Demo.drawn ++ evs
  /\ containers_removed evs = [1; 1; 1; 1; 1]%nat
  /\ length (calls evs) = 6%nat.
Proof. split; [| split; [| split]]; vm_compute; reflexivity. Qed.

(** * Grouping the edges for the callback *)

(** ** Arrays without holes *)
Lemma js_get_fmap_Some {A} (l : list A) (n : nat) :
  js_get (Some <$> l) (Z.of_nat n) = l !! n.
Proof.
  unfold js_get. destruct (Z.ltb_spec (Z.of_nat n) 0) as [H|H]; [lia |].
  rewrite Nat2Z.id, list_lookup_fmap. destruct (l !! n); reflexivity.
Qed.

Lemma js_put_end {A} (l : list A) (v : A) :
  js_put (length l) v (Some <$> l) = Some <$> (l ++ [v]).
Proof. induction l as [|a l IH]; simpl; [reflexivity | f_equal; exact IH]. Qed.

Lemma js_put_last {A} (l : list A) (c v : A) :
  js_put (length l) v (Some <$> (l ++ [c])) = Some <$> (l ++ [v]).
Proof. induction l as [|a l IH]; simpl; [reflexivity | f_equal; exact IH]. Qed.

Lemma js_set_end {A} (l : list A) (v : A) :
  js_set (Some <$> l) (Z.of_nat (length l)) v = Some <$> (l ++ [v]).
Proof.
  unfold js_set. destruct (Z.ltb_spec (Z.of_nat (length l)) 0) as [H|H]; [lia |].
  rewrite Nat2Z.id. apply js_put_end.
Qed.

Lemma js_set_last {A} (l : list A) (c v : A) :
  js_set (Some <$> (l ++ [c])) (Z.of_nat (length l)) v = Some <$> (l ++ [v]).
Proof.
  unfold js_set. destruct (Z.ltb_spec (Z.of_nat (length l)) 0) as [H|H]; [lia |].
  rewrite Nat2Z.id. apply js_put_last.
Qed.

(** The body of the loop on an array whose last group is in progress. *)
Lemma group_edge_same (G : list (list LatLng)) (c : list LatLng) (m : Marker) :
  group_edge (Some <$> (G ++ [c]), Some (_polygonId m), Z.of_nat (length G)) m
  = (Some <$> (G ++ [c ++ [_latlng m]]), Some (_polygonId m), Z.of_nat (length G)).
Proof.
  unfold group_edge. rewrite decide_True by reflexivity.
  rewrite js_get_fmap_Some, lookup_app_r, Nat.sub_diag by lia. simpl.
  unfold js_push_at. rewrite js_get_fmap_Some, lookup_app_r, Nat.sub_diag by lia.
  simpl. rewrite js_set_last. reflexivity.
Qed.

Lemma group_edge_other (G : list (list LatLng)) (c : list LatLng) (id : Z) (m : Marker) :
  _polygonId m <> id ->
  group_edge (Some <$> (G ++ [c]), Some id, Z.of_nat (length G)) m
  = (Some <$> ((G ++ [c]) ++ [points [m]]), Some (_polygonId m),
     Z.of_nat (length (G ++ [c]))).
Proof.
  intros Hne. unfold group_edge. rewrite decide_False by congruence.
  assert (Hlen : Z.of_nat (length G) + 1 = Z.of_nat (length (G ++ [c]))).
  { rewrite length_app. simpl. lia. }
  rewrite Hlen, js_get_fmap_Some, lookup_ge_None_2 by lia.
  rewrite js_set_end. unfold js_push_at.
  rewrite js_get_fmap_Some, lookup_app_r, Nat.sub_diag by lia. simpl.
  rewrite js_set_last. reflexivity.
Qed.

Lemma fold_group_edge (ms : list Marker) (G : list (list LatLng)) (cur : list Marker)
    (id : Z) :
  (fold_left group_edge ms
     (Some <$> (G ++ [points cur]), Some id, Z.of_nat (length G))).1.1
  = Some <$> (G ++ (points <$> runs_from id cur ms)).
Proof.
  revert G cur id. induction ms as [|m rest IH]; intros G cur id; [reflexivity |].
  cbn [fold_left runs_from]. destruct (decide (_polygonId m = id)) as [<-|Hne].
  - rewrite group_edge_same.
    replace (points cur ++ [_latlng m]) with (points (cur ++ [m]))
      by (unfold points; rewrite fmap_app; reflexivity).
    apply IH.
  - rewrite group_edge_other by exact Hne.
    rewrite (IH (G ++ [points cur]) [m] (_polygonId m)).
    rewrite <- app_assoc. reflexivity.
Qed.

Lemma group_edges_runs (ms : list Marker) :
  group_edges ms = Some <$> (points <$> runs ms).
Proof.
  destruct ms as [|m rest]; [reflexivity |].
  unfold group_edges. cbn [fold_left runs].
  assert (Hfirst : group_edge ([], None, -1) m
                   = (Some <$> ([] ++ [points [m]]), Some (_polygonId m),
                      Z.of_nat (length (@nil (list LatLng))))) by reflexivity.
  rewrite Hfirst.
  apply (fold_group_edge rest [] [m] (_polygonId m)).
Qed.

(** ** Runs and polygons *)

Lemma leading_beyond id ms : leading id ms ++ beyond id ms = ms.
Proof.
  induction ms as [|m rest IH]; [reflexivity |]. simpl.
  destruct (decide (_polygonId m = id)); [simpl; f_equal; exact IH | reflexivity].
Qed.

Lemma leading_all id ms : Forall (fun m => _polygonId m = id) (leading id ms).
Proof.
  induction ms as [|m rest IH]; [constructor |]. simpl.
  destruct (decide (_polygonId m = id)); constructor; assumption.
Qed.

Lemma length_beyond id ms : (length (beyond id ms) <= length ms)%nat.
Proof.
  induction ms as [|m rest IH]; [reflexivity |]. simpl.
  destruct (decide (_polygonId m = id)); simpl; lia.
Qed.

Lemma contiguous_beyond id ms : contiguous ms -> contiguous (beyond id ms).
Proof.
  induction ms as [|m rest IH]; intros Hc; [exact I |]. simpl.
  destruct (decide (_polygonId m = id)); [apply IH, Hc | exact Hc].
Qed.

Lemma runs_from_leading id cur ms :
  runs_from id cur ms = (cur ++ leading id ms) :: runs (beyond id ms).
Proof.
  revert cur. induction ms as [|m rest IH]; intros cur; simpl.
  - rewrite app_nil_r. reflexivity.
  - destruct (decide (_polygonId m = id)).
    + rewrite IH, <- app_assoc. reflexivity.
    + rewrite app_nil_r. reflexivity.
Qed.

Lemma filter_filter_comm {A} (P Q : A -> Prop) `{forall a, Decision (P a)}
    `{forall a, Decision (Q a)} (l : list A) :
  filter P (filter Q l) = filter Q (filter P l).
Proof. rewrite !list_filter_filter. apply list_filter_iff. tauto. Qed.

Lemma filter_idemp {A} (P : A -> Prop) `{forall a, Decision (P a)} (l : list A) :
  filter P (filter P l) = filter P l.
Proof. rewrite list_filter_filter. apply list_filter_iff. tauto. Qed.

Lemma distinct_filter (i : Z) (ids : list Z) :
  filter (fun j => j <> i) (distinct ids) = distinct (filter (fun j => j <> i) ids).
Proof.
  induction ids as [|a ids IH]; [reflexivity |].
  cbn [distinct]. rewrite !filter_cons.
  destruct (decide (a <> i)) as [Hne|Heq].
  - cbn [distinct]. f_equal.
    rewrite (filter_filter_comm (fun j => j <> i)), IH. reflexivity.
  - assert (a = i) as -> by (destruct (decide (a = i)); [assumption | contradiction]).
    rewrite filter_idemp. exact IH.
Qed.

Lemma elem_of_distinct (i : Z) (ids : list Z) : i ∈ distinct ids <-> i ∈ ids.
Proof.
  induction ids as [|a ids IH]; [reflexivity |].
  cbn [distinct]. rewrite !elem_of_cons, list_elem_of_filter, IH.
  destruct (decide (i = a)); tauto.
Qed.

Lemma NoDup_distinct (ids : list Z) : NoDup (distinct ids).
Proof.
  induction ids as [|a ids IH]; [constructor |].
  cbn [distinct]. constructor.
  - intros Hin. apply list_elem_of_filter in Hin. destruct Hin as [Hne _].
    apply Hne. reflexivity.
  - apply NoDup_filter, IH.
Qed.

Lemma handles_of_other (id : Z) (ms : list Marker) :
  Forall (fun m => _polygonId m <> id) ms ->
  filter (fun m => _polygonId m = id) ms = [].
Proof.
  intros Hall.
  induction Hall as [|m rest Hm _ IH]; [reflexivity |].
  rewrite filter_cons_False by (intros Heq; apply Hm, Heq). exact IH.
Qed.

Lemma handles_of_same (id : Z) (ms : list Marker) :
  Forall (fun m => _polygonId m = id) ms ->
  filter (fun m => _polygonId m = id) ms = ms.
Proof.
  intros Hall.
  induction Hall as [|m rest Hm _ IH]; [reflexivity |].
  rewrite filter_cons_True by exact Hm. rewrite IH. reflexivity.
Qed.

Lemma runs_by_shape (ms : list Marker) : contiguous ms -> runs ms = by_shape ms.
Proof.
  remember (length ms) as n eqn:Hn. revert ms Hn.
  induction n as [n IH] using lt_wf_ind. intros ms Hn Hc.
  destruct ms as [|m rest]; [reflexivity |].
  destruct Hc as [Hback Hc]. simpl in Hn.
  set (i := _polygonId m) in *.
  unfold runs. fold i. rewrite runs_from_leading.
  assert (Hsplit : rest = leading i rest ++ beyond i rest)
    by (symmetry; apply leading_beyond).
  pose proof (leading_all i rest) as Hlead.
  rewrite (IH (length (beyond i rest))); [| pose proof (length_beyond i rest); lia
                                         | reflexivity | apply contiguous_beyond, Hc].
  unfold by_shape, shape_ids. cbn [fmap list_fmap distinct]. fold i.
  change (list_fmap Marker Z _polygonId rest) with (_polygonId <$> rest).
  f_equal.
  - unfold handles_of. rewrite filter_cons_True by reflexivity. simpl. f_equal.
    replace (filter (fun m0 => _polygonId m0 = i) rest)
      with (filter (fun m0 => _polygonId m0 = i) (leading i rest ++ beyond i rest))
      by (rewrite leading_beyond; reflexivity).
    rewrite filter_app.
    rewrite (handles_of_same i _ Hlead), (handles_of_other i _ Hback).
    rewrite app_nil_r. reflexivity.
  - rewrite distinct_filter.
    assert (Hids : filter (fun j => j <> i) (_polygonId <$> rest)
                   = _polygonId <$> beyond i rest).
    { replace (_polygonId <$> rest)
        with (_polygonId <$> (leading i rest ++ beyond i rest))
        by (rewrite leading_beyond; reflexivity).
      rewrite fmap_app, filter_app.
      rewrite (filter_none (fun j => j <> i)).
      - simpl. apply filter_all. intros j Hj.
        apply list_elem_of_fmap in Hj. destruct Hj as (m' & -> & Hm').
        rewrite Forall_forall in Hback. apply Hback, Hm'.
      - intros j Hj Hne. apply list_elem_of_fmap in Hj. destruct Hj as (m' & -> & Hm').
        rewrite Forall_forall in Hlead. apply Hne, Hlead, Hm'. }
    rewrite Hids.
    apply list_fmap_ext. intros k j Hj.
    assert (Hji : j <> i).
    { apply list_elem_of_lookup_2, elem_of_distinct, list_elem_of_fmap in Hj.
      destruct Hj as (m' & -> & Hm'). rewrite Forall_forall in Hback.
      apply Hback, Hm'. }
    unfold handles_of. rewrite filter_cons_False by (fold i; congruence).
    replace (filter (fun m0 => _polygonId m0 = j) rest)
      with (filter (fun m0 => _polygonId m0 = j) (leading i rest ++ beyond i rest))
      by (rewrite leading_beyond; reflexivity).
    rewrite filter_app.
    rewrite (filter_none (fun m0 => _polygonId m0 = j) (leading i rest)); [reflexivity |].
    intros m' Hm' Heq. rewrite Forall_forall in Hlead. apply Hji.
    rewrite <- Heq. apply Hlead, Hm'.
Qed.

Lemma handles_of_sorted (id : Z) (ms : list Marker) :
  index_ordered ms -> StronglySorted index_lt (handles_of id ms).
Proof.
  unfold handles_of. induction ms as [|m rest IH]; intros Hord; [constructor |].
  destruct Hord as [Hm Hrest]. rewrite filter_cons.
  destruct (decide (_polygonId m = id)) as [Heq|Hne]; [| apply IH, Hrest].
  constructor; [apply IH, Hrest |].
  apply Forall_forall. intros m' Hm'. apply list_elem_of_filter in Hm'.
  destruct Hm' as [Hid Hin]. rewrite Forall_forall in Hm.
  apply (Hm m' Hin). congruence.
Qed.

(** C2 as amended.  Whatever [this.edges] holds, [notifyBoundaries] calls
    the user's callback once and passes it one group for every maximal run
    of consecutive edges with the same [_polygonId], each group holding the
    positions of the edges of that run.  Where the edges of every polygon
    stand together in [this.edges], these runs are the polygons: there is
    one group for each distinct identifier, in the order the identifiers
    first occur, and the group holds the positions of all edges of that
    polygon in the order of [this.edges].  Where the edges of every polygon
    stand in the order of their [_index], the edges of every polygon, taken
    in the order of [this.edges], are in that order. *)
Theorem notifyBoundaries_groups_by_polygon (w : World) :
  let ms := marker_at w <$> edges w in
  log (notifyBoundaries w).2 = log w ++ [CallMarkersFn (boundaries w)]
  /\ boundaries w = Some <$> (points <$> runs ms)
  /\ (contiguous ms ->
      runs ms = by_shape ms
      /\ boundaries w = Some <$> (points <$> by_shape ms)
      /\ NoDup (shape_ids ms)
      /\ (forall id, id ∈ shape_ids ms <-> exists m, m ∈ ms /\ _polygonId m = id))
  /\ (index_ordered ms -> Forall (StronglySorted index_lt) (by_shape ms)).
Proof.
  intros ms.
  split; [apply notifyBoundaries_log |].
  split; [apply group_edges_runs |].
  split.
  - intros Hcontiguous.
    split; [apply runs_by_shape, Hcontiguous |].
    split; [unfold boundaries; fold ms;
            rewrite group_edges_runs, (runs_by_shape _ Hcontiguous); reflexivity |].
    split; [apply NoDup_distinct |].
    intros id. unfold shape_ids. rewrite elem_of_distinct, list_elem_of_fmap.
    split; intros (m & H1 & H2); exists m; [split; [exact H2 | congruence] |].
    split; [congruence | exact H1].
  - intros Hordered. unfold by_shape. apply Forall_fmap, Forall_forall. intros id _.
    apply handles_of_sorted, Hordered.
Qed.

(** C2 as amended, on the edges of the polygon of the demonstration, which
    stand together and in the order of their [_index]. *)
Lemma notifyBoundaries_groups_by_polygon_witness :
  let w := Demo.drawn in
  let ms := marker_at w <$> edges w in
  contiguous ms
  /\ index_ordered ms
  /\ log (notifyBoundaries w).2 = log w ++ [CallMarkersFn (boundaries w)]
  /\ boundaries w = Some <$> (points <$> runs ms)
  /\ (runs ms = by_shape ms
      /\ boundaries w = Some <$> (points <$> by_shape ms)
      /\ NoDup (shape_ids ms)
      /\ (forall id, id ∈ shape_ids ms <-> exists m, m ∈ ms /\ _polygonId m = id))
  /\ Forall (StronglySorted index_lt) (by_shape ms).
Proof.
  intros w ms.
  assert (H1 : contiguous ms).
  { vm_compute. repeat split; constructor. }
  assert (H2 : index_ordered ms).
  { vm_compute. repeat split; repeat constructor. }
  split; [exact H1 |]. split; [exact H2 |].
  destruct (notifyBoundaries_groups_by_polygon Demo.drawn) as (Hlog & Hruns & Hshape & Hsorted).
  split; [exact Hlog |]. split; [exact Hruns |].
  split; [exact (Hshape H1) | exact (Hsorted H2)].
Defined.

(** C2 as it was stated fails where the edges of a polygon do not stand
    together: with the edges of polygons 1, 2 and 1 in this order there are
    two distinct identifiers, and the callback is passed three groups. *)
Lemma notifyBoundaries_splits_interleaved_polygon :
  let w := DemoInterleaved.interleaved in
  let ms := marker_at w <$> edges w in
  _polygonId <$> ms = [1; 2; 1]
  /\ shape_ids ms = [1; 2]
  /\ boundaries w
       = [Some [mkLatLng 10 10]; Some [mkLatLng 20 20]; Some [mkLatLng 30 30]]
  /\ log (notifyBoundaries w).2 = log w ++ [CallMarkersFn (boundaries w)]
  /\ length (boundaries w) <> length (shape_ids ms).
Proof.
  split; [vm_compute; reflexivity |].
  split; [vm_compute; reflexivity |].
  split; [vm_compute; reflexivity |].
  split; [apply notifyBoundaries_log |].
  vm_compute. discriminate.
Qed.

(** * The order of the edge collection *)

(** ** Order of a list of edges *)


Lemma beyond_ext i ms ms' :
  key <$> ms = key <$> ms' -> key <$> beyond i ms = key <$> beyond i ms'.
Proof.
  revert ms'. induction ms as [|m rest IH]; intros [|m' rest'] Heq; try discriminate;
    [reflexivity |].
  injection Heq as Hid' Hix' Hrest. assert (Hkey : key m = key m') by (unfold key; congruence). simpl.
  assert (Hid : _polygonId m = _polygonId m') by (unfold key in Hkey; congruence).
  rewrite <- Hid. destruct (decide (_polygonId m = i)); [apply IH, Hrest |].
  simpl. rewrite Hkey, Hrest. reflexivity.
Qed.

Lemma Forall_key (P : Z * nat -> Prop) ms ms' :
  key <$> ms = key <$> ms' -> Forall (fun m => P (key m)) ms -> Forall (fun m => P (key m)) ms'.
Proof.
  intros Heq H. apply (Forall_fmap key P) in H. rewrite Heq in H.
  apply (Forall_fmap key P) in H. exact H.
Qed.

Lemma contiguous_ext ms ms' :
  key <$> ms = key <$> ms' -> contiguous ms -> contiguous ms'.
Proof.
  revert ms'. induction ms as [|m rest IH]; intros [|m' rest'] Heq Hc; try discriminate;
    [exact I |].
  injection Heq as Hid' Hix' Hrest. assert (Hkey : key m = key m') by (unfold key; congruence). destruct Hc as [Hback Hc].
  assert (Hid : _polygonId m = _polygonId m') by (unfold key in Hkey; congruence).
  split; [| apply (IH rest' Hrest Hc)].
  rewrite <- Hid.
  apply (Forall_key (fun k => k.1 <> _polygonId m) (beyond (_polygonId m) rest)).
  - apply beyond_ext, Hrest.
  - exact Hback.
Qed.

Lemma index_ordered_ext ms ms' :
  key <$> ms = key <$> ms' -> index_ordered ms -> index_ordered ms'.
Proof.
  revert ms'. induction ms as [|m rest IH]; intros [|m' rest'] Heq Ho; try discriminate;
    [exact I |].
  injection Heq as Hid' Hix' Hrest. assert (Hkey : key m = key m') by (unfold key; congruence). destruct Ho as [Hm Ho].
  split; [| apply (IH rest' Hrest Ho)].
  assert (Hid : _polygonId m = _polygonId m') by (unfold key in Hkey; congruence).
  assert (Hix : _index m = _index m') by (unfold key in Hkey; congruence).
  rewrite <- Hid, <- Hix.
  apply (Forall_key (fun k => k.1 = _polygonId m -> (_index m < k.2)%nat) rest rest' Hrest).
  exact Hm.
Qed.

(** Taking edges out keeps the order. *)
Lemma beyond_filter_subseteq (P : Marker -> Prop) `{forall m, Decision (P m)} i ms :
  beyond i (filter P ms) ⊆ beyond i ms.
Proof.
  induction ms as [|m rest IH]; [reflexivity |].
  rewrite filter_cons. simpl.
  destruct (decide (P m)) as [Hp|Hn]; simpl;
    destruct (decide (_polygonId m = i)) as [Heq|Hne].
  - exact IH.
  - intros x Hx. apply elem_of_cons in Hx. destruct Hx as [->|Hx]; [left |].
    right. apply list_elem_of_filter in Hx. apply Hx.
  - exact IH.
  - intros x Hx. right.
    assert (Hsuffix : forall l, beyond i l ⊆ l).
    { clear. induction l as [|a l IHl]; [reflexivity |]. simpl.
      destruct (decide (_polygonId a = i)); [| reflexivity].
      intros y Hy. right. apply IHl, Hy. }
    apply Hsuffix in Hx. apply list_elem_of_filter in Hx. apply Hx.
Qed.

Lemma contiguous_filter (P : Marker -> Prop) `{forall m, Decision (P m)} ms :
  contiguous ms -> contiguous (filter P ms).
Proof.
  induction ms as [|m rest IH]; intros Hc; [exact I |].
  destruct Hc as [Hback Hc]. rewrite filter_cons.
  destruct (decide (P m)); [| apply IH, Hc].
  split; [| apply IH, Hc].
  apply Forall_forall. intros x Hx. apply beyond_filter_subseteq in Hx.
  rewrite Forall_forall in Hback. apply Hback, Hx.
Qed.

Lemma index_ordered_filter (P : Marker -> Prop) `{forall m, Decision (P m)} ms :
  index_ordered ms -> index_ordered (filter P ms).
Proof.
  induction ms as [|m rest IH]; intros Ho; [exact I |].
  destruct Ho as [Hm Ho]. rewrite filter_cons.
  destruct (decide (P m)); [| apply IH, Ho].
  split; [| apply IH, Ho].
  apply Forall_forall. intros x Hx. apply list_elem_of_filter in Hx.
  rewrite Forall_forall in Hm. apply Hm, Hx.
Qed.

(** Adding an edge of the polygon at the end keeps the order. *)
Lemma beyond_snoc_same i ms m :
  Forall (fun m' => _polygonId m' <> i) (beyond i ms) ->
  _polygonId m <> i ->
  Forall (fun m' => _polygonId m' <> i) (beyond i (ms ++ [m])).
Proof.
  intros Hback Hm. induction ms as [|a rest IH]; simpl in *.
  - rewrite decide_False by exact Hm. constructor; [exact Hm | constructor].
  - destruct (decide (_polygonId a = i)); [apply IH, Hback |].
    change (a :: rest ++ [m]) with ((a :: rest) ++ [m]).
    apply Forall_app. split; [exact Hback | constructor; [exact Hm | constructor]].
Qed.

Lemma beyond_snoc_last i ms m :
  beyond i ms = [] -> _polygonId m = i -> beyond i (ms ++ [m]) = [].
Proof.
  intros Hnone Hm. induction ms as [|a rest IH]; simpl in *.
  - rewrite decide_True by exact Hm. reflexivity.
  - destruct (decide (_polygonId a = i)); [apply IH, Hnone | discriminate].
Qed.


Lemma beyond_all_same i ms :
  Forall (fun a => _polygonId a = i) ms -> beyond i ms = [].
Proof.
  induction 1 as [|a rest Ha _ IH]; [reflexivity |]. simpl.
  rewrite decide_True by exact Ha. exact IH.
Qed.

Lemma contiguous_all_same i ms :
  Forall (fun a => _polygonId a = i) ms -> contiguous ms.
Proof.
  induction 1 as [|a rest Ha Hrest IH]; [exact I |].
  split; [| exact IH]. rewrite Ha, (beyond_all_same i rest Hrest). constructor.
Qed.

(** Adding at the end an edge of the polygon whose edges are the last ones
    keeps the edges of every polygon together. *)
Lemma contiguous_snoc pid old new m :
  contiguous (old ++ new) ->
  Forall (fun a => _polygonId a <> pid) old ->
  Forall (fun a => _polygonId a = pid) new ->
  _polygonId m = pid ->
  contiguous ((old ++ new) ++ [m]).
Proof.
  intros Hc Hold Hnew Hm. induction Hold as [|a old Ha Hold IH].
  - simpl. apply (contiguous_all_same pid). apply Forall_app. split; [exact Hnew |].
    constructor; [exact Hm | constructor].
  - destruct Hc as [Hback Hc]. split; [| apply IH, Hc].
    apply beyond_snoc_same; [exact Hback | congruence].
Qed.

Lemma index_ordered_snoc ms m :
  index_ordered ms ->
  Forall (fun a => _polygonId m = _polygonId a -> (_index a < _index m)%nat) ms ->
  index_ordered (ms ++ [m]).
Proof.
  induction ms as [|a rest IH]; intros Ho Hm.
  - split; constructor.
  - destruct Ho as [Ha Ho]. inversion Hm as [|? ? Ham Hrest]; subst.
    split; [| apply IH; assumption].
    apply Forall_app. split; [exact Ha |].
    constructor; [| constructor]. intros Heq. apply Ham. congruence.
Qed.

Lemma fmap_filter_marker (f : ref -> Marker) (P : Marker -> Prop) (Q : ref -> Prop)
    `{forall m, Decision (P m)} `{forall e, Decision (Q e)} (l : list ref) :
  (forall e, Q e <-> P (f e)) ->
  f <$> filter Q l = filter P (f <$> l).
Proof.
  intros HQ. induction l as [|e l IH]; [reflexivity |].
  rewrite fmap_cons, !filter_cons.
  destruct (decide (Q e)) as [Hq|Hq], (decide (P (f e))) as [Hp|Hp].
  - rewrite fmap_cons, IH. reflexivity.
  - apply HQ in Hq. contradiction.
  - apply HQ in Hp. contradiction.
  - exact IH.
Qed.

Lemma Forall_filter_keep {A} (P Q : A -> Prop) `{forall a, Decision (Q a)} (l : list A) :
  Forall P l -> Forall P (filter Q l).
Proof.
  rewrite !Forall_forall. intros Hall a Ha. apply list_elem_of_filter in Ha.
  apply Hall, Ha.
Qed.

(** ** The order of [this.edges] is kept *)

Lemma tidy_lastId w : tidy w -> tidy (set_lastId (S (lastId w)) w).
Proof.
  intros (Hc & Ho & He & Hm). repeat split; try assumption; simpl.
  - eapply Forall_impl; [exact He |]. simpl. intros e H. lia.
  - eapply Forall_impl; [exact Hm |]. simpl. intros m H. lia.
Qed.

Ltac tidy_leaf :=
  intros; first [ assumption | apply tidy_lastId; assumption ].

Lemma tidy_setMarkers ms icon : stable tidy (setMarkers ms icon).
Proof. stable_walk; tidy_leaf. Qed.

Lemma tidy_notifyBoundaries : stable tidy notifyBoundaries.
Proof. stable_walk; tidy_leaf. Qed.

Lemma tidy_setMode mode' : stable tidy (setMode mode').
Proof. stable_walk; tidy_leaf. Qed.

Lemma tidy_polygon_destroyed polygon w : tidy w -> tidy (polygon_destroyed polygon w).
Proof.
  intros (Hc & Ho & He & Hm).
  assert (Hms : edge_markers (polygon_destroyed polygon w)
                = filter (fun m => _polygon m <> polygon) (edge_markers w)).
  { transitivity (marker_at w <$> edges_beside w polygon); [reflexivity |].
    unfold edges_beside, edge_markers.
    apply fmap_filter_marker. intros e. reflexivity. }
  unfold tidy. rewrite Hms. repeat split.
  - apply contiguous_filter, Hc.
  - apply index_ordered_filter, Ho.
  - simpl. unfold edges_beside. apply Forall_filter_keep, He.
  - simpl. apply Forall_filter_keep, Hm.
Qed.

Lemma tidy_destroyPolygon polygon : stable tidy (destroyPolygon polygon).
Proof.
  intros w Hw. rewrite destroyPolygon_unfold.
  apply (stable_bind tidy notifyBoundaries (fun _ => ret JsUndefined)).
  - apply tidy_notifyBoundaries.
  - intros _. apply stable_ret.
  - apply tidy_polygon_destroyed, Hw.
Qed.

Lemma tidy_clearPolygons : stable tidy clearPolygons.
Proof.
  unfold clearPolygons.
  repeat lazymatch goal with
         | |- stable _ (destroyPolygon _) => apply tidy_destroyPolygon
         | |- stable _ notifyBoundaries => apply tidy_notifyBoundaries
         | |- _ => stable_step
         end; tidy_leaf.
Qed.

Lemma key_marker_at_edge_moved `{host : Leaflet} w edge posX posY r :
  key (marker_at (edge_moved edge posX posY w) r) = key (marker_at w r).
Proof.
  rewrite marker_at_edge_moved. case_decide; [| reflexivity]. subst r.
  unfold marker_at. destruct (markers w !! edge); reflexivity.
Qed.

Lemma tidy_edge_moved `{host : Leaflet} w edge posX posY :
  tidy w -> tidy (edge_moved edge posX posY w).
Proof.
  intros (Hc & Ho & He & Hm).
  assert (Hkeys : key <$> edge_markers w = key <$> edge_markers (edge_moved edge posX posY w)).
  { unfold edge_markers. rewrite <- !list_fmap_compose.
    apply list_fmap_ext. intros i r _. simpl. symmetry.
    apply key_marker_at_edge_moved. }
  repeat split.
  - apply (contiguous_ext _ _ Hkeys Hc).
  - apply (index_ordered_ext _ _ Hkeys Ho).
  - exact He.
  - apply (Forall_key (fun k => k.1 <= Z.of_nat (lastId w)) _ _ Hkeys Hm).
Qed.

Lemma tidy_updatePolygonEdge `{host : Leaflet} edge posX posY :
  stable tidy (updatePolygonEdge edge posX posY).
Proof.
  intros w Hw. destruct (map_ w) as [m|] eqn:Hmap.
  - rewrite updatePolygonEdge_run by (rewrite Hmap; eauto).
    apply tidy_edge_moved, Hw.
  - unfold updatePolygonEdge. rewrite bind_get, Hmap. exact Hw.
Qed.


Section Attach.
Context `{host : Leaflet}.

Lemma attachEdges_unfold polygon w :
  attachEdges polygon w =
    match _parts (polygon_at w polygon) with
    | None => (Thrown (TypeError "parts is undefined"), w)
    | Some parts => forEach (attach_edge polygon (length parts)) (imap pair parts) w
    end.
Proof.
  unfold attachEdges. rewrite bind_get.
  destruct (_parts (polygon_at w polygon)); reflexivity.
Qed.

Lemma attach_edge_step polygon pid n k point w m :
  map_ w = Some m ->
  attaching polygon pid k w ->
  exists w', attach_edge polygon n (k, point) w = (Returned tt, w')
    /\ attaching polygon pid (S k) w'.
Proof.
  intros Hmap ((Hc & Ho & He & Hm) & Hpid & Hbound & old & new & Hms & Hold & Hnew).
  unfold attach_edge. rewrite bind_get, Hmap, bind_fresh.
  erewrite bind_with_map by (simpl; exact Hmap).
  rewrite bind_modify. unfold modify. simpl.
  eexists. split; [reflexivity |].
  set (r := S (lastId w)).
  set (mk := mkMarker polygon (_leaflet_id (polygon_at w polygon)) k n
               (layerPointToLatLng point)).
  assert (Hmarkers : forall w0, markers w0 = <[r := mk]> (markers w) -> edges w0 = edges w ++ [r] ->
            edge_markers w0 = edge_markers w ++ [mk]).
  { intros w0 Hmk Hed. unfold edge_markers, marker_at. rewrite Hmk, Hed, fmap_app.
    simpl. rewrite lookup_insert_eq. simpl. f_equal.
    apply list_fmap_ext. intros i e Hi.
    rewrite lookup_insert_ne; [reflexivity |].
    apply list_elem_of_lookup_2 in Hi. rewrite Forall_forall in He.
    specialize (He e Hi). unfold r. lia. }
  match goal with |- attaching _ _ _ ?W => set (w' := W) end.
  assert (Hms' : edge_markers w' = (old ++ new) ++ [mk]).
  { rewrite <- Hms. apply Hmarkers; reflexivity. }
  assert (Hmkid : _polygonId mk = pid) by exact Hpid.
  split; [| split; [exact Hpid | split; [simpl; lia |]]].
  - unfold tidy. rewrite Hms'. repeat split.
    + apply (contiguous_snoc pid); try assumption.
      * rewrite <- Hms. exact Hc.
      * eapply Forall_impl; [exact Hnew |]. simpl. tauto.
    + apply index_ordered_snoc; [rewrite <- Hms; exact Ho |].
      apply Forall_app. split.
      * eapply Forall_impl; [exact Hold |]. simpl. intros a Ha Heq. congruence.
      * eapply Forall_impl; [exact Hnew |]. simpl. intros a [_ Ha] _. exact Ha.
    + simpl. apply Forall_app. split.
      * eapply Forall_impl; [exact He |]. simpl. intros e H. lia.
      * constructor; [unfold r; lia | constructor].
    + simpl. apply Forall_app. split.
      * rewrite <- Hms. eapply Forall_impl; [exact Hm |]. simpl. intros a H. lia.
      * constructor; [rewrite Hmkid; lia | constructor].
  - exists old, (new ++ [mk]). rewrite Hms', <- app_assoc.
    split; [reflexivity |]. split; [exact Hold |].
    apply Forall_app. split.
    + eapply Forall_impl; [exact Hnew |]. simpl. intros a [H1 H2]. split; [exact H1 | lia].
    + constructor; [split; [exact Hmkid | simpl; lia] | constructor].
Qed.

Lemma attaching_tidy polygon pid k w : attaching polygon pid k w -> tidy w.
Proof. intros [H _]. exact H. Qed.

Lemma attach_loop polygon pid n parts k w :
  attaching polygon pid k w ->
  tidy (forEach (attach_edge polygon n) (imap (fun i => pair (k + i)%nat) parts) w).2.
Proof.
  revert k w. induction parts as [|point parts IH]; intros k w Hinv.
  - apply (attaching_tidy _ _ _ _ Hinv).
  - rewrite imap_cons. cbn [forEach]. rewrite Nat.add_0_r.
    destruct (map_ w) as [m|] eqn:Hmap.
    + destruct (attach_edge_step polygon pid n k point w m Hmap Hinv) as (w' & Hrun & Hinv').
      rewrite (bind_returned _ _ _ _ _ Hrun).
      rewrite (imap_ext _ (fun i => pair (S k + i)%nat)).
      * apply IH, Hinv'.
      * intros i x _. simpl. f_equal. lia.
    + unfold attach_edge. rewrite bind_bind, bind_get, Hmap. simpl.
      apply (attaching_tidy _ _ _ _ Hinv).
Qed.

Lemma tidy_attachEdges_fresh polygon w :
  tidy w ->
  _leaflet_id (polygon_at w polygon) = Z.of_nat (lastId w) ->
  Forall (fun a => _polygonId a < Z.of_nat (lastId w)) (edge_markers w) ->
  tidy (attachEdges polygon w).2.
Proof.
  intros Hw Hpid Hless. rewrite attachEdges_unfold.
  destruct (_parts (polygon_at w polygon)) as [parts|]; [| exact Hw].
  apply (attach_loop polygon (Z.of_nat (lastId w)) _ _ 0%nat).
  split; [exact Hw |]. split; [exact Hpid |]. split; [lia |].
  exists (edge_markers w), []. rewrite app_nil_r. split; [reflexivity |].
  split; [| constructor].
  eapply Forall_impl; [exact Hless |]. simpl. intros a Ha. lia.
Qed.

Lemma tidy_createPolygon l : stable tidy (createPolygon l).
Proof.
  intros w Hw. unfold createPolygon, destroyD3, createD3.
  rewrite bind_bind, bind_get.
  destruct (svg w) as [s|] eqn:Hsvg; [| exact Hw].
  rewrite !bind_modify, bind_fresh, bind_emit.
  destruct (map_ w) as [m|] eqn:Hmap.
  - erewrite bind_with_map by (simpl; exact Hmap).
    rewrite bind_modify.
    apply stable_after.
    2:{ intros _.
        repeat lazymatch goal with
               | |- stable _ notifyBoundaries => apply tidy_notifyBoundaries
               | |- _ => stable_step
               end; tidy_leaf. }
    destruct Hw as (Hc & Ho & He & Hm).
    apply tidy_attachEdges_fresh.
    + repeat split; try assumption; simpl.
      * eapply Forall_impl; [exact He |]. simpl. intros e H. lia.
      * eapply Forall_impl; [exact Hm |]. simpl. intros a H. lia.
    + unfold polygon_at. simpl. rewrite lookup_insert_eq. reflexivity.
    + simpl. eapply Forall_impl; [exact Hm |]. simpl. intros a H. lia.
  - unfold bind, with_map. simpl. rewrite Hmap. simpl.
    apply (tidy_lastId w) in Hw. exact Hw.
Qed.
End Attach.

Section Reach.
Context `{host : Leaflet}.

Ltac tidy_step :=
  lazymatch goal with
  | |- stable _ (createPolygon _) => apply tidy_createPolygon
  | |- stable _ (destroyPolygon _) => apply tidy_destroyPolygon
  | |- stable _ clearPolygons => apply tidy_clearPolygons
  | |- stable _ (updatePolygonEdge _ _ _) => apply tidy_updatePolygonEdge
  | |- stable _ notifyBoundaries => apply tidy_notifyBoundaries
  | |- stable _ (setMode _) => apply tidy_setMode
  | |- stable _ (setMarkers _ _) => apply tidy_setMarkers
  | |- _ => stable_step
  end.

Ltac tidy_walk := repeat tidy_step; tidy_leaf.

Lemma tidy_createMouseUp : stable tidy _createMouseUp.
Proof.
  unfold _createMouseUp, hull_call, hull_brian3kbGrahamScan, hull_wildhoneyConcaveHull.
  tidy_walk.
Qed.

Lemma tidy_initialize o : stable tidy (initialize o).
Proof. unfold initialize. tidy_walk. Qed.
Lemma tidy_onAdd m : stable tidy (onAdd m).
Proof. unfold onAdd. tidy_walk. Qed.
Lemma tidy_onMouseDown b cx cy : stable tidy (onMouseDown b cx cy).
Proof.
  unfold onMouseDown. destruct (decide (b = 2)); [apply stable_ret |].
  apply stable_bind; [apply stable_get | intros w].
  destruct (negb (multiplePolygons (options w)) && negb (bool_decide (edges w = [])));
    tidy_walk.
Qed.
Lemma tidy_onMouseMove cx cy : stable tidy (onMouseMove cx cy).
Proof.
  unfold onMouseMove, _editMouseMove, _createMouseMove.
  apply stable_bind; [apply stable_get | intros w].
  destruct (movingEdge w); [tidy_walk |].
  destruct (negb (creating w)); [apply stable_ret |].
  apply stable_bind; [apply stable_get | intros w1].
  destruct (map_ w1), (svg w1); tidy_walk.
Qed.
Lemma tidy_onMouseUp : stable tidy onMouseUpAndMouseLeave.
Proof.
  unfold onMouseUpAndMouseLeave.
  apply stable_bind; [apply stable_get | intros w].
  destruct (movingEdge w); [| apply tidy_createMouseUp].
  destruct (negb (boundariesAfterEdit (options w))); tidy_walk.
Qed.
Lemma tidy_onClick p : stable tidy (onClick p).
Proof.
  unfold onClick. apply stable_bind; [apply stable_get | intros w].
  destruct (truthy (js_band (mode w) MODES.DELETE)); tidy_walk.
Qed.

Lemma tidy_perform c : stable tidy (perform c).
Proof.
  destruct c; unfold perform.
  - apply tidy_initialize.
  - apply tidy_onAdd.
  - apply tidy_clearPolygons.
  - apply tidy_setMode.
  - unfold createD3. apply stable_modify. intros w Hw. exact Hw.
  - unfold destroyD3. tidy_walk; tidy_leaf.
  - apply stable_bind; [apply tidy_createPolygon | intros ?; apply stable_ret].
  - apply stable_bind; [apply tidy_destroyPolygon | intros ?; apply stable_ret].
  - apply tidy_clearPolygons.
  - apply tidy_notifyBoundaries.
  - apply tidy_setMarkers.
  - apply tidy_updatePolygonEdge.
  - apply stable_modify. intros w Hw. exact Hw.
  - apply tidy_onMouseDown.
  - apply tidy_onMouseMove.
  - apply tidy_onMouseUp.
  - apply stable_modify. intros w Hw. exact Hw.
  - apply tidy_onClick.
Qed.

Lemma tidy_prototype : tidy prototype.
Proof. repeat split; constructor. Qed.

Lemma tidy_reachable w : reachable w -> tidy w.
Proof.
  induction 1 as [|w c _ IH]; [apply tidy_prototype |].
  apply tidy_perform, IH.
Qed.
End Reach.

(** * Attaching edges and creating a polygon *)

Section AttachRun.
Context `{host : Leaflet}.

Lemma attach_loop_run polygon n parts k w :
  is_Some (map_ w) ->
  Forall (fun e => (e <= lastId w)%nat) (edges w) ->
  exists w',
    forEach (attach_edge polygon n) (imap (fun i => pair (k + i)%nat) parts) w
      = (Returned tt, w')
    /\ beside_attach w' = beside_attach w
    /\ lastId w' = (lastId w + length parts)%nat
    /\ edges w' = edges w ++ seq (S (lastId w)) (length parts)
    /\ edge_markers w'
         = edge_markers w
           ++ new_edges polygon (_leaflet_id (polygon_at w polygon)) n k parts
    /\ (forall r, (r <= lastId w)%nat -> markers w' !! r = markers w !! r).
Proof.
  revert k w. induction parts as [|point parts IH]; intros k w [m Hmap] He.
  - exists w. simpl. rewrite Nat.add_0_r, !app_nil_r. repeat split.
  - rewrite imap_cons. cbn [forEach]. rewrite Nat.add_0_r.
    unfold attach_edge at 1. rewrite bind_bind, bind_get, Hmap, bind_bind, bind_fresh.
    rewrite bind_bind. erewrite bind_with_map by (simpl; exact Hmap).
    rewrite bind_bind, bind_modify, bind_modify.
    rewrite (imap_ext _ (fun i => pair (S k + i)%nat))
      by (intros i x _; simpl; f_equal; lia).
    match goal with |- context [forEach _ _ ?W] => set (w1 := W) end.
    set (r := S (lastId w)).
    set (mk := mkMarker polygon (_leaflet_id (polygon_at w polygon)) k n
                 (layerPointToLatLng point)).
    assert (Hm1 : markers w1 = <[r := mk]> (markers w)) by reflexivity.
    assert (He1 : edges w1 = edges w ++ [r]) by reflexivity.
    assert (Hl1 : lastId w1 = r) by reflexivity.
    assert (Hp1 : polygons w1 = polygons w) by reflexivity.
    assert (Hb1 : beside_attach w1 = beside_attach w).
    { unfold beside_attach, w1, addLayer. simpl. rewrite Hmap.
      case_decide; reflexivity. }
    assert (Hem1 : edge_markers w1 = edge_markers w ++ [mk]).
    { unfold edge_markers, marker_at. rewrite Hm1, He1, fmap_app.
      simpl. rewrite lookup_insert_eq. simpl. f_equal.
      apply list_fmap_ext. intros i e Hi.
      rewrite lookup_insert_ne; [reflexivity |].
      apply list_elem_of_lookup_2 in Hi. rewrite Forall_forall in He.
      specialize (He e Hi). unfold r. lia. }
    destruct (IH (S k) w1) as (w' & Hrun & Hb & Hl & Hed & Hem & Hold).
    { unfold w1, addLayer. simpl. case_decide; simpl; eauto. }
    { rewrite He1, Hl1. apply Forall_app. split.
      - eapply Forall_impl; [exact He |]. simpl. intros e H. unfold r. lia.
      - constructor; [lia | constructor]. }
    exists w'. split; [exact Hrun |].
    split; [congruence |].
    split; [rewrite Hl, Hl1; unfold r; simpl; lia |].
    split; [rewrite Hed, He1, Hl1, <- app_assoc; reflexivity |].
    split.
    + rewrite Hem, Hem1, <- app_assoc. unfold new_edges, polygon_at.
      rewrite Hp1, imap_cons, Nat.add_0_r. simpl. do 2 f_equal.
      apply imap_ext. intros i x _. simpl. f_equal. lia.
    + intros r' Hr'. rewrite Hold by (rewrite Hl1; unfold r; lia).
      rewrite Hm1. apply lookup_insert_ne. unfold r. lia.
Qed.

Lemma attachEdges_run polygon parts w :
  is_Some (map_ w) ->
  _parts (polygon_at w polygon) = Some parts ->
  Forall (fun e => (e <= lastId w)%nat) (edges w) ->
  exists w',
    attachEdges polygon w = (Returned tt, w')
    /\ beside_attach w' = beside_attach w
    /\ lastId w' = (lastId w + length parts)%nat
    /\ edges w' = edges w ++ seq (S (lastId w)) (length parts)
    /\ edge_markers w'
         = edge_markers w
           ++ new_edges polygon (_leaflet_id (polygon_at w polygon))
                (length parts) 0 parts
    /\ (forall r, (r <= lastId w)%nat -> markers w' !! r = markers w !! r).
Proof.
  intros Hmap Hparts He. rewrite attachEdges_unfold, Hparts.
  apply (attach_loop_run polygon _ _ 0%nat w Hmap He).
Qed.

(** Where nothing was rendered, [attachEdges] throws and changes nothing. *)
Lemma attachEdges_unrendered polygon w :
  _parts (polygon_at w polygon) = None ->
  attachEdges polygon w = (Thrown (TypeError "parts is undefined"), w).
Proof. intros Hparts. rewrite attachEdges_unfold, Hparts. reflexivity. Qed.

Lemma notifyBoundaries_lastId w : (lastId w <= lastId (notifyBoundaries w).2)%nat.
Proof.
  assert (H : stable (fun w' => (lastId w <= lastId w')%nat) notifyBoundaries)
    by (stable_walk; intros; simpl; lia).
  apply (H w). lia.
Qed.

Lemma callback_ok_same w w' :
  options w' = options w -> (is_Some (map_ w) -> is_Some (map_ w')) ->
  callback_ok w -> callback_ok w'.
Proof.
  intros Hopt Hmap Hok latLngs' call Hcall. rewrite Hopt in Hcall.
  destruct (Hok latLngs' call Hcall) as (H1 & H2 & H3). auto.
Qed.

Lemma beside_attach_map w w' :
  beside_attach w' = beside_attach w -> is_Some (map_ w) -> is_Some (map_ w').
Proof.
  unfold beside_attach. intros Heq [m Hm].
  assert (H : dragging <$> map_ w' = dragging <$> map_ w) by congruence.
  rewrite Hm in H. destruct (map_ w'); [eauto | discriminate].
Qed.

(** What [createPolygon] comes to on an editor with its map and its tracer,
    when the callback behaves. *)
Lemma createPolygon_run l parts w :
  attached w ->
  callback_ok w ->
  Forall (fun e => (e <= lastId w)%nat) (edges w) ->
  polygon_parts (smoothFactor (options w)) l = Some parts ->
  let polygon := S (lastId w) in
  exists w',
    createPolygon l w = (Returned polygon, w')
    /\ polygons w' = <[polygon := created_polygon polygon l parts 0]> (polygons w)
    /\ edges w' = edges w ++ seq (S polygon) (length parts)
    /\ edge_markers w'
         = edge_markers w ++ new_edges polygon (Z.of_nat polygon) (length parts) 0 parts
    /\ svg w' = Some (mkSvg (svgClassName (options w)) [])
    /\ log w' = log w ++ [NewPolygon polygon l; CallMarkersFn (boundaries w')]
    /\ (creating w', latLngs w', options w', hull_map w', mode w', fromPoint w',
        movingEdge w', boundaryUpdateRequired w')
       = (creating w, latLngs w, options w, hull_map w, mode w, fromPoint w,
          movingEdge w, boundaryUpdateRequired w)
    /\ (dragging <$> map_ w', touchZoom <$> map_ w', doubleClickZoom <$> map_ w',
        scrollWheelZoom <$> map_ w', classList <$> map_ w')
       = (dragging <$> map_ w, touchZoom <$> map_ w, doubleClickZoom <$> map_ w,
          scrollWheelZoom <$> map_ w, classList <$> map_ w)
    /\ (lastId w < lastId w')%nat
    /\ Forall (fun e => (e <= lastId w')%nat) (edges w')
    /\ callback_ok w'.
Proof.
  intros [[m Hm] [s Hs]] Hok He Hparts polygon.
  unfold createPolygon, destroyD3, createD3.
  rewrite bind_bind, bind_get, Hs.
  rewrite !bind_modify, bind_fresh, bind_emit.
  erewrite bind_with_map by (simpl; exact Hm).
  rewrite bind_modify.
  match goal with |- context [bind (attachEdges _) _ ?W] => set (w1 := W) end.
  assert (Hp1 : polygon_at w1 polygon
                = mkPolygon (Z.of_nat polygon) l [] (Some parts) true 0%nat).
  { unfold polygon_at, w1. simpl. rewrite lookup_insert_eq, Hparts. reflexivity. }
  destruct (attachEdges_run polygon parts w1)
    as (w2 & Hrun2 & Hb2 & Hl2 & He2 & Hem2 & Hold2).
  { unfold w1, addLayer. simpl. case_decide; simpl; eauto. }
  { rewrite Hp1. reflexivity. }
  { simpl. eapply Forall_impl; [exact He |]. simpl. intros e H. lia. }
  rewrite Hp1 in *. simpl in Hl2, He2, Hem2.
  rewrite (bind_returned _ _ _ _ _ Hrun2), bind_get.
  assert (Hpolys2 : polygons w2 = polygons w1) by (unfold beside_attach in Hb2; congruence).
  assert (Hp2 : polygon_at w2 polygon
                = mkPolygon (Z.of_nat polygon) l [] (Some parts) true 0%nat).
  { rewrite <- Hp1. unfold polygon_at. rewrite Hpolys2. reflexivity. }
  match goal with
  | |- context [_parts (polygon_at w2 ?p)] =>
      change (_parts (polygon_at w2 p)) with (_parts (polygon_at w2 polygon))
  end.
  rewrite Hp2. cbn [_parts]. rewrite bind_modify.
  match goal with |- context [bind notifyBoundaries _ ?W] => set (w3 := W) end.
  assert (Hmap2 : is_Some (map_ w2)).
  { apply (beside_attach_map w1 w2 Hb2). unfold w1, addLayer. simpl.
    case_decide; simpl; eauto. }
  assert (Hok3 : callback_ok w3).
  { apply (callback_ok_same w w3); [| intros _; exact Hmap2 | exact Hok].
    unfold beside_attach in Hb2. simpl. transitivity (options w1); [congruence | reflexivity]. }
  destruct (notifyBoundaries_run w3 Hok3) as (w4 & Hrun4 & Hb4 & Hlog4 & Hok4).
  rewrite (bind_returned _ _ _ _ _ Hrun4).
  assert (Hbound : boundaries w4 = boundaries w3).
  { unfold boundaries, marker_at. unfold beside_notify in Hb4.
    replace (markers w4) with (markers w3) by congruence.
    replace (edges w4) with (edges w3) by congruence. reflexivity. }
  assert (Hem4 : edge_markers w4 = edge_markers w2).
  { unfold edge_markers, marker_at. unfold beside_notify in Hb4.
    replace (markers w4) with (markers w3) by congruence.
    replace (edges w4) with (edges w3) by congruence. reflexivity. }
  exists w4. split; [reflexivity |].
  unfold beside_notify in Hb4. unfold beside_attach in Hb2.
  split.
  { transitivity (polygons w3); [congruence |]. unfold w3. simpl.
    rewrite Hpolys2. unfold w1. simpl.
    rewrite alter_insert_eq, Hparts. reflexivity. }
  split; [transitivity (edges w3); [congruence | exact He2] |].
  split; [rewrite Hem4; exact Hem2 |].
  split; [transitivity (svg w3); [congruence |]; change (svg w3) with (svg w2);
          transitivity (svg w1); [congruence | reflexivity] |].
  split.
  { rewrite Hlog4, Hbound. change (log w3) with (log w2).
    replace (log w2) with (log w1) by congruence. unfold w1. simpl.
    rewrite <- app_assoc. reflexivity. }
  split.
  { change (options w3) with (options w2) in Hb4.
    change (creating w3) with (creating w2) in Hb4.
    change (latLngs w3) with (latLngs w2) in Hb4.
    change (hull_map w3) with (hull_map w2) in Hb4.
    change (mode w3) with (mode w2) in Hb4.
    change (fromPoint w3) with (fromPoint w2) in Hb4.
    change (movingEdge w3) with (movingEdge w2) in Hb4.
    change (boundaryUpdateRequired w3) with (boundaryUpdateRequired w2) in Hb4.
    assert (H43 : (creating w4, latLngs w4, options w4, hull_map w4, mode w4,
                   fromPoint w4, movingEdge w4, boundaryUpdateRequired w4)
                  = (creating w2, latLngs w2, options w2, hull_map w2, mode w2,
                     fromPoint w2, movingEdge w2, boundaryUpdateRequired w2))
      by congruence.
    rewrite H43.
    assert (H21 : (creating w2, latLngs w2, options w2, hull_map w2, mode w2,
                   fromPoint w2, movingEdge w2, boundaryUpdateRequired w2)
                  = (creating w1, latLngs w1, options w1, hull_map w1, mode w1,
                     fromPoint w1, movingEdge w1, boundaryUpdateRequired w1))
      by congruence.
    rewrite H21. reflexivity. }
  split.
  { change (map_ w3) with (map_ w2) in Hb4.
    assert (H43 : (dragging <$> map_ w4, touchZoom <$> map_ w4,
                   doubleClickZoom <$> map_ w4, scrollWheelZoom <$> map_ w4,
                   classList <$> map_ w4)
                  = (dragging <$> map_ w2, touchZoom <$> map_ w2,
                     doubleClickZoom <$> map_ w2, scrollWheelZoom <$> map_ w2,
                     classList <$> map_ w2)) by congruence.
    rewrite H43.
    assert (H21 : (dragging <$> map_ w2, touchZoom <$> map_ w2,
                   doubleClickZoom <$> map_ w2, scrollWheelZoom <$> map_ w2,
                   classList <$> map_ w2)
                  = (dragging <$> map_ w1, touchZoom <$> map_ w1,
                     doubleClickZoom <$> map_ w1, scrollWheelZoom <$> map_ w1,
                     classList <$> map_ w1)) by congruence.
    rewrite H21. unfold w1, addLayer. simpl. rewrite Hm. case_decide; reflexivity. }
  assert (Hlast : (lastId w2 <= lastId w4)%nat).
  { pose proof (notifyBoundaries_lastId w3) as H. rewrite Hrun4 in H. exact H. }
  split; [simpl in Hl2; lia |].
  split; [| exact Hok4].
  replace (edges w4) with (edges w3) by congruence.
  change (edges w3) with (edges w2). rewrite He2. apply Forall_app. split.
  - eapply Forall_impl; [exact He |]. simpl. intros e H. simpl in Hl2. lia.
  - apply Forall_forall. intros e Hin. apply elem_of_seq in Hin. simpl in Hl2. lia.
Qed.
End AttachRun.

(** * Changing the mode *)

Lemma setMode_run (m : Z) (w : World) (mp : LMap) :
  map_ w = Some mp ->
  (notification_due m w = true -> callback_ok w) ->
  exists w' mp',
    setMode m w = (Returned tt, w')
    /\ mode w' = m
    /\ map_ w' = Some mp'
    /\ classList mp' = defineClasses m (classList mp)
    /\ (dragging mp', touchZoom mp', doubleClickZoom mp', scrollWheelZoom mp')
       = (negb (truthy (js_band m MODES.CREATE)), negb (truthy (js_band m MODES.CREATE)),
          negb (truthy (js_band m MODES.CREATE)), negb (truthy (js_band m MODES.CREATE)))
    /\ boundaryUpdateRequired w'
       = boundaryUpdateRequired w && truthy (js_band m MODES.EDIT)
    /\ log w' = log w ++ (if notification_due m w then [CallMarkersFn (boundaries w)] else [])
    /\ beside_mode w' = beside_mode w
    /\ (lastId w <= lastId w')%nat
    /\ (callback_ok w -> callback_ok w').
Proof.
  intros Hmap Hok.
  assert (Hwhen : exists w1 mp1,
            when (notification_due m w)
                 (notifyBoundaries;; modify (set_boundaryUpdateRequired false))
              (set_mode m w) = (Returned tt, w1)
            /\ mode w1 = m /\ map_ w1 = Some mp1 /\ classList mp1 = classList mp
            /\ boundaryUpdateRequired w1
               = boundaryUpdateRequired w && truthy (js_band m MODES.EDIT)
            /\ log w1 = log w ++ (if notification_due m w
                                  then [CallMarkersFn (boundaries w)] else [])
            /\ beside_mode w1 = beside_mode w
            /\ (lastId w <= lastId w1)%nat
            /\ options w1 = options w).
  { destruct (notification_due m w) eqn:Hdue; simpl.
    - specialize (Hok eq_refl).
      unfold notification_due in Hdue. apply andb_true_iff in Hdue.
      destruct Hdue as [Hpending Hnoedit]. apply negb_true_iff in Hnoedit.
      destruct (notifyBoundaries_run (set_mode m w)) as (w1 & Hrun & Hframe & Hlog & _).
      { intros latLngs' call Hcall. apply (Hok latLngs' call) in Hcall.
        simpl. rewrite Hmap in *. exact Hcall. }
      pose proof (notifyBoundaries_lastId (set_mode m w)) as Hlast.
      rewrite Hrun in Hlast. simpl in Hlast.
      unfold beside_notify in Hframe. simpl in Hframe. rewrite Hmap in Hframe.
      destruct (map_ w1) as [mp1|] eqn:Hmap1; [| discriminate].
      exists (set_boundaryUpdateRequired false w1), mp1.
      rewrite (bind_returned _ _ _ _ _ Hrun). simpl.
      split; [reflexivity |]. split; [congruence |]. split; [exact Hmap1 |].
      split; [simpl in Hframe; congruence |].
      split; [rewrite Hpending, Hnoedit; reflexivity |].
      split; [exact Hlog |].
      split; [unfold beside_mode; simpl; congruence |].
      split; [exact Hlast | congruence].
    - exists (set_mode m w), mp. simpl. rewrite app_nil_r.
      split; [reflexivity |]. split; [reflexivity |]. split; [exact Hmap |].
      split; [reflexivity |].
      split.
      { unfold notification_due in Hdue.
        destruct (boundaryUpdateRequired w); [| reflexivity]. simpl in *.
        apply negb_false_iff in Hdue. rewrite Hdue. reflexivity. }
      repeat split. lia. }
  unfold setMode. rewrite bind_modify, bind_get. simpl. rewrite Hmap.
  fold (notification_due m w).
  destruct Hwhen as (w1 & mp1 & Hrun & Hmode & Hmap1 & Hclasses & Hbur & Hlog & Hframe & Hlast & Hopt).
  rewrite (bind_returned _ _ _ _ _ Hrun).
  erewrite bind_with_map by exact Hmap1.
  unfold with_map. simpl.
  eexists _, _. split; [reflexivity |]. simpl.
  split; [exact Hmode |]. split; [reflexivity |]. simpl.
  split; [rewrite Hclasses; reflexivity |].
  split; [reflexivity |]. split; [exact Hbur |]. split; [exact Hlog |].
  split; [exact Hframe |]. split; [exact Hlast |].
  intros Hcb latLngs' call Hcall. simpl in Hcall. rewrite Hopt in Hcall.
  destruct (Hcb latLngs' call Hcall) as (_ & H2 & H3). simpl. eauto.
Qed.

(** * Finishing a trace *)

Section Finalize.
Context `{host : Leaflet}.

(** What [_createMouseUp] comes to on a trace of three points or more with
    no hull algorithm, when the callback behaves. *)
Lemma createMouseUp_run w first second third rest parts :
  attached w ->
  callback_ok w ->
  Forall (fun e => (e <= lastId w)%nat) (edges w) ->
  latLngs w = first :: second :: third :: rest ->
  hull_disabled (options w) = true ->
  polygon_parts (smoothFactor (options w)) (latLngs w ++ [first]) = Some parts ->
  let polygon := S (lastId w) in
  let closed := latLngs w ++ [first] in
  let mode' := if createExitMode (options w)
               then js_bxor (mode w) MODES.CREATE else mode w in
  exists w',
    _createMouseUp w = (Returned tt, w')
    /\ creating w' = false
    /\ latLngs w' = []
    /\ polygons w'
       = <[polygon := created_polygon polygon closed parts 1]>
           (polygons w)
    /\ edges w' = edges w ++ seq (S polygon) (length parts)
    /\ edge_markers w'
       = edge_markers w ++ new_edges polygon (Z.of_nat polygon) (length parts) 0 parts
    /\ svg w' = Some (mkSvg (svgClassName (options w)) [])
    /\ mode w' = mode'
    /\ options w' = options w
    /\ log w'
       = log w ++ [NewPolygon polygon closed; CallMarkersFn (boundaries w')]
           ++ (if createExitMode (options w) && notification_due mode' w
               then [CallMarkersFn (boundaries w')] else [])
    /\ (createExitMode (options w) = true ->
        exists mp', map_ w' = Some mp'
          /\ (dragging mp', touchZoom mp', doubleClickZoom mp', scrollWheelZoom mp')
             = (negb (truthy (js_band mode' MODES.CREATE)),
                negb (truthy (js_band mode' MODES.CREATE)),
                negb (truthy (js_band mode' MODES.CREATE)),
                negb (truthy (js_band mode' MODES.CREATE)))).
Proof.
  intros Hw Hok He Hl Hhull Hparts polygon closed mode'.
  unfold _createMouseUp. rewrite bind_modify, bind_get. simpl. rewrite Hl.
  assert (Hnone :
    (match hullAlgorithm (options w) with
     | HullName name => setMap;; do reduced <- hull_call name; ret (Some reduced)
     | _ => ret None
     end) = ret None).
  { unfold hull_disabled in Hhull. destruct (hullAlgorithm (options w));
      [reflexivity | reflexivity | discriminate]. }
  rewrite Hnone, bind_ret, bind_modify, bind_get. simpl. rewrite Hl. simpl.
  match goal with |- context [bind (createPolygon ?L) _ ?W] => set (w1 := W) end.
  assert (Hclosed : first :: second :: third :: rest ++ [first] = closed)
    by (unfold closed; rewrite Hl; reflexivity).
  rewrite Hclosed.
  destruct (createPolygon_run closed parts w1)
    as (w2 & Hrun2 & Hpoly2 & Hed2 & Hem2 & Hsvg2 & Hlog2 & Hkeep2 & Hmap2 & Hlast2 & Hbound2 & Hok2);
    [exact Hw | exact Hok | exact He | exact Hparts |].
  change (lastId w1) with (lastId w) in *. change (options w1) with (options w) in *.
  change (polygons w1) with (polygons w) in *. change (edges w1) with (edges w) in *.
  change (edge_markers w1) with (edge_markers w) in *. change (log w1) with (log w) in *.
  change (mode w1) with (mode w) in *.
  change (boundaryUpdateRequired w1) with (boundaryUpdateRequired w) in *.
  change (map_ w1) with (map_ w) in *.
  fold polygon in Hrun2, Hpoly2, Hed2, Hem2, Hlog2.
  rewrite (bind_returned _ _ _ _ _ Hrun2), !bind_modify, bind_get.
  match goal with |- context [when _ _ ?W] => set (w3 := W) end.
  assert (Hopt3 : options w3 = options w) by (simpl; congruence).
  assert (Hmode3 : mode w3 = mode w) by (simpl; congruence).
  assert (Hbur3 : boundaryUpdateRequired w3 = boundaryUpdateRequired w)
    by (simpl; congruence).
  assert (Hpoly3 : polygons w3
                   = <[polygon := created_polygon polygon closed parts 1]>
                       (polygons w)).
  { unfold w3. simpl. rewrite Hpoly2, alter_insert_eq. reflexivity. }
  assert (Hb3 : boundaries w3 = boundaries w2) by reflexivity.
  assert (Hcr3 : creating w3 = false).
  { change (creating w3) with (creating w2).
    transitivity (creating w1); [congruence | reflexivity]. }
  rewrite Hopt3.
  destruct (createExitMode (options w)) eqn:Hexit.
  - destruct Hw as [[mp Hmp] _].
    assert (Hmp2 : exists mp2, map_ w2 = Some mp2).
    { assert (H : dragging <$> map_ w2 = dragging <$> map_ w) by congruence.
      rewrite Hmp in H. destruct (map_ w2); [eauto | discriminate]. }
    destruct Hmp2 as [mp2 Hmp2].
    destruct (setMode_run (js_bxor (mode w3) MODES.CREATE) w3 mp2)
      as (w4 & mp4 & Hrun4 & Hmode4 & Hmap4 & _ & Hhandlers4 & _ & Hlog4 & Hframe4 & _ & _).
    { exact Hmp2. }
    { intros _. intros latLngs' call Hcall. apply (Hok2 latLngs' call Hcall). }
    unfold when. rewrite Hrun4.
    unfold beside_mode in Hframe4.
    assert (Hb4 : boundaries w4 = boundaries w2).
    { unfold boundaries, marker_at.
      replace (markers w4) with (markers w3) by congruence.
      replace (edges w4) with (edges w3) by congruence. reflexivity. }
    assert (Hem4 : edge_markers w4 = edge_markers w2).
    { unfold edge_markers, marker_at.
      replace (markers w4) with (markers w3) by congruence.
      replace (edges w4) with (edges w3) by congruence. reflexivity. }
    exists w4. split; [reflexivity |].
    split; [transitivity (creating w3); [congruence | exact Hcr3] |].
    split; [transitivity (latLngs w3); [congruence | reflexivity] |].
    split; [transitivity (polygons w3); [congruence | exact Hpoly3] |].
    split; [transitivity (edges w3); [congruence | exact Hed2] |].
    split; [rewrite Hem4; exact Hem2 |].
    split; [transitivity (svg w3); [congruence | exact Hsvg2] |].
    split; [rewrite Hmode4, Hmode3; reflexivity |].
    split; [transitivity (options w3); [congruence | exact Hopt3] |].
    split.
    { rewrite Hlog4. change (log w3) with (log w2). rewrite Hlog2, Hb4, Hb3.
      unfold notification_due. rewrite Hmode3, Hbur3. simpl.
      rewrite <- app_assoc. reflexivity. }
    intros _. exists mp4. split; [exact Hmap4 |].
    rewrite Hhandlers4, Hmode3. reflexivity.
  - unfold when. exists w3. split; [reflexivity |].
    split; [exact Hcr3 |].
    split; [reflexivity |].
    split; [exact Hpoly3 |].
    split; [exact Hed2 |].
    split; [exact Hem2 |].
    split; [exact Hsvg2 |].
    split; [exact Hmode3 |].
    split; [exact Hopt3 |].
    split; [change (log w3) with (log w2); rewrite Hlog2, Hb3; reflexivity |].
    discriminate.
Qed.
End Finalize.

(** * Gestures on the map *)

Section Gestures.
Context `{host : Leaflet}.

Lemma point_eta (p : Point) : mkPoint (x p) (y p) = p.
Proof. destruct p; reflexivity. Qed.


(** Moves while nothing is in progress. *)
Lemma mouse_moves_idle positions w :
  movingEdge w = None -> creating w = false ->
  mouse_moves positions w = (Returned tt, w).
Proof.
  intros Hmoving Hcreating. induction positions as [|p rest IH]; [reflexivity |].
  unfold mouse_moves. cbn [forEach]. unfold onMouseMove at 1.
  rewrite bind_bind, bind_get, Hmoving, Hcreating. simpl. exact IH.
Qed.

Lemma onMouseDown_accepted button clientX clientY w :
  mousedown_accepted button w = true ->
  onMouseDown button clientX clientY w
  = (Returned tt,
     (if truthy (js_band (mode w) MODES.CREATE) then set_creating true else id)
       (set_fromPoint (mkPoint clientX clientY) (set_latLngs [] w))).
Proof.
  unfold mousedown_accepted, onMouseDown. intros Hacc.
  apply andb_true_iff in Hacc. destruct Hacc as [Hbutton Hmulti].
  apply negb_true_iff, bool_decide_eq_false in Hbutton.
  apply negb_true_iff in Hmulti.
  rewrite decide_False by exact Hbutton.
  rewrite bind_get, Hmulti, !bind_modify.
  destruct (truthy (js_band (mode w) MODES.CREATE)); reflexivity.
Qed.

Lemma onMouseDown_refused button clientX clientY w :
  mousedown_accepted button w = false ->
  onMouseDown button clientX clientY w = (Returned tt, w).
Proof.
  unfold mousedown_accepted, onMouseDown. intros Hacc.
  destruct (decide (button = 2)) as [Hb|Hb]; [reflexivity |].
  rewrite bool_decide_eq_false_2 in Hacc by exact Hb. simpl in Hacc.
  apply negb_false_iff in Hacc. rewrite bind_get, Hacc. reflexivity.
Qed.


End Gestures.

(** * Dragging an edge *)

Section Drag.
Context `{host : Leaflet}.

Lemma owner_edge_moved w edge posX posY r :
  owner (edge_moved edge posX posY w) r = owner w r.
Proof.
  unfold owner. rewrite marker_at_edge_moved. case_decide; [| reflexivity]. subst r.
  unfold marker_at. destruct (markers w !! edge); reflexivity.
Qed.

Lemma log_edge_moved w edge posX posY :
  log (edge_moved edge posX posY w) = log w ++ [Redraw (owner w edge)].
Proof.
  pose proof (owner_edge_moved w edge posX posY edge) as H.
  unfold edge_moved in *. cbv zeta in *. simpl log.
  assert (Heq : forall W, _polygon (marker_at W edge) = owner W edge) by reflexivity.
  rewrite Heq.
  assert (Hsame : owner
                    (set_markers
                       (alter (marker_setLatLng (containerPointToLatLng (mkPoint posX posY)))
                          edge (markers w)) w) edge = owner w edge).
  { rewrite <- H. reflexivity. }
  rewrite Hsame. reflexivity.
Qed.

(** Moves while an edge is grabbed. *)
Lemma mouse_moves_dragging positions w edge :
  is_Some (map_ w) ->
  movingEdge w = Some edge ->
  exists w',
    mouse_moves positions w = (Returned tt, w')
    /\ log w' = log w ++ replicate (length positions) (Redraw (owner w edge))
    /\ movingEdge w' = Some edge
    /\ beside_drag w' = beside_drag w
    /\ (forall r, r <> edge -> markers w' !! r = markers w !! r)
    /\ (forall mk, markers w !! edge = Some mk ->
          markers w' !! edge
          = Some (match last positions with
                  | Some p => marker_setLatLng (containerPointToLatLng p) mk
                  | None => mk
                  end)).
Proof.
  revert w. induction positions as [|p rest IH]; intros w Hmap Hmoving.
  - exists w. simpl. rewrite app_nil_r. repeat split; try assumption.
    intros mk H. exact H.
  - unfold mouse_moves. cbn [forEach]. unfold onMouseMove at 1.
    rewrite bind_bind, bind_get, Hmoving. cbv iota.
    unfold _editMouseMove. rewrite bind_bind, bind_get, Hmoving. cbv iota.
    rewrite (bind_returned _ _ _ _ _ (updatePolygonEdge_run w edge (x p) (y p) Hmap)).
    fold (mouse_moves rest).
    set (w1 := edge_moved edge (x p) (y p) w).
    assert (Hmap1 : map_ w1 = map_ w) by reflexivity.
    destruct (IH w1) as (w' & Hrun & Hlog & Hmov & Hb & Hmk & Hedge);
      [rewrite Hmap1; exact Hmap | exact Hmoving |].
    exists w'. split; [exact Hrun |].
    split.
    { rewrite Hlog. unfold w1. rewrite owner_edge_moved, log_edge_moved, <- app_assoc.
      reflexivity. }
    split; [exact Hmov |].
    split; [rewrite Hb; reflexivity |].
    split.
    { intros r Hr. rewrite (Hmk r Hr). unfold w1, edge_moved. simpl.
      apply lookup_alter_ne. congruence. }
    intros mk Hmk0.
    assert (Hmk1 : markers w1 !! edge
                   = Some (marker_setLatLng (containerPointToLatLng p) mk)).
    { unfold w1, edge_moved. simpl. rewrite lookup_alter_eq, Hmk0, point_eta.
      reflexivity. }
    rewrite (Hedge _ Hmk1).
    destruct rest as [|q rest']; [reflexivity |].
    change (last (p :: q :: rest')) with (last (q :: rest')).
    destruct (last (q :: rest')) eqn:E; [reflexivity |].
    apply last_None in E. discriminate.
Qed.

(** A whole drag of an edge. *)
Lemma drag_run
    (edge : ref) (positions : list Point) (w : World) (mk : Marker) :
  is_Some (map_ w) ->
  markers w !! edge = Some mk ->
  (boundariesAfterEdit (options w) = false -> callback_ok w) ->
  exists w',
    drag edge positions w = (Returned tt, w')
    /\ movingEdge w' = None
    /\ markers w' !! edge
       = Some (match last positions with
               | Some p => marker_setLatLng (containerPointToLatLng p) mk
               | None => mk
               end)
    /\ (forall r, r <> edge -> markers w' !! r = markers w !! r)
    /\ (edges w', creating w', latLngs w', mode w', options w')
       = (edges w, creating w, latLngs w, mode w, options w)
    /\ log w'
       = log w ++ replicate (length positions) (Redraw (owner w edge))
           ++ (if boundariesAfterEdit (options w) then []
               else [CallMarkersFn (boundaries w')])
    /\ boundaryUpdateRequired w'
       = boundariesAfterEdit (options w) || boundaryUpdateRequired w
    /\ is_Some (map_ w')
    /\ (callback_ok w -> callback_ok w').
Proof.
  intros Hmap Hmk0 Hok. unfold drag, edge_onMouseDown. rewrite bind_modify.
  destruct (mouse_moves_dragging positions (set_movingEdge (Some edge) w) edge)
    as (w1 & Hrun1 & Hlog1 & Hmov1 & Hb1 & Hmk1 & Hedge1); [exact Hmap | reflexivity |].
  rewrite (bind_returned _ _ _ _ _ Hrun1).
  unfold onMouseUpAndMouseLeave. rewrite bind_get, Hmov1.
  unfold beside_drag in Hb1. simpl in Hb1.
  assert (Hopt1 : options w1 = options w) by congruence.
  rewrite Hopt1.
  change (owner (set_movingEdge (Some edge) w) edge) with (owner w edge) in Hlog1.
  change (log (set_movingEdge (Some edge) w)) with (log w) in Hlog1.
  destruct (boundariesAfterEdit (options w)) eqn:Hafter; simpl negb; cbv iota.
  - rewrite !bind_modify. eexists. split; [reflexivity |]. simpl.
    split; [reflexivity |].
    split; [apply (Hedge1 mk Hmk0) |].
    split; [exact Hmk1 |].
    split; [congruence |].
    split; [rewrite Hlog1, app_nil_r; reflexivity |].
    split; [reflexivity |].
    assert (Hmap1 : map_ w1 = map_ w) by congruence.
    split; [rewrite Hmap1; exact Hmap |].
    intros Hok0. apply (callback_ok_same w); [exact Hopt1 | | exact Hok0].
    intros _. simpl. rewrite Hmap1. exact Hmap.
  - destruct (notifyBoundaries_run w1) as (w2 & Hrun2 & Hb2 & Hlog2 & Hok2).
    { apply (callback_ok_same w w1 Hopt1); [| apply Hok; reflexivity].
      intros _. replace (map_ w1) with (map_ w) by congruence. exact Hmap. }
    rewrite (bind_returned _ _ _ _ _ Hrun2). unfold modify.
    unfold beside_notify in Hb2.
    eexists. split; [reflexivity |]. simpl.
    split; [reflexivity |].
    split; [replace (markers w2) with (markers w1) by congruence; apply (Hedge1 mk Hmk0) |].
    split; [intros r Hr; replace (markers w2) with (markers w1) by congruence;
            apply (Hmk1 r Hr) |].
    split; [congruence |].
    split.
    { rewrite Hlog2, Hlog1, <- app_assoc.
      assert (Hbd : boundaries w1 = boundaries (set_movingEdge None w2)).
      { unfold boundaries, marker_at. simpl.
        replace (markers w2) with (markers w1) by congruence.
        replace (edges w2) with (edges w1) by congruence. reflexivity. }
      rewrite Hbd. reflexivity. }
    split; [congruence |].
    assert (Hmap2 : is_Some (map_ w2)).
    { assert (Hmap1 : map_ w1 = map_ w) by congruence.
      destruct Hmap as [mp Hmp]. rewrite Hmp in Hmap1.
      assert (H : dragging <$> map_ w2 = dragging <$> map_ w1) by congruence.
      rewrite Hmap1 in H. destruct (map_ w2); [eauto | discriminate]. }
    split; [exact Hmap2 |].
    intros _. apply (callback_ok_same w2); [reflexivity | | exact Hok2].
    intros _. exact Hmap2.
Qed.
End Drag.

(** * Sessions *)

Lemma reachable_perform_all `{host : Leaflet} (cs : list Call) (w : World) :
  reachable w -> reachable (perform_all cs w).
Proof.
  revert w. induction cs as [|c cs IH]; intros w Hw; [exact Hw |].
  apply IH, reachable_perform, Hw.
Qed.

(** * What the callback is given *)

Lemma concat_runs_from id cur ms : concat (runs_from id cur ms) = cur ++ ms.
Proof.
  revert id cur. induction ms as [|m rest IH]; intros id cur; simpl.
  - reflexivity.
  - destruct (decide (_polygonId m = id)).
    + rewrite IH, <- app_assoc. reflexivity.
    + simpl. rewrite IH. reflexivity.
Qed.

Lemma runs_from_nonempty id cur ms :
  cur <> [] -> Forall (fun run => run <> []) (runs_from id cur ms).
Proof.
  revert id cur. induction ms as [|m rest IH]; intros id cur Hcur; simpl.
  - constructor; [exact Hcur | constructor].
  - destruct (decide (_polygonId m = id)).
    + apply IH. destruct cur; discriminate.
    + constructor; [exact Hcur |]. apply IH. discriminate.
Qed.

Lemma runs_from_same id cur ms :
  Forall (fun m => _polygonId m = id) cur ->
  Forall (fun run => exists id', Forall (fun m => _polygonId m = id') run)
    (runs_from id cur ms).
Proof.
  revert id cur. induction ms as [|m rest IH]; intros id cur Hcur; simpl.
  - constructor; [exists id; exact Hcur | constructor].
  - destruct (decide (_polygonId m = id)).
    + apply IH. apply Forall_app. split; [exact Hcur |]. constructor; [assumption | constructor].
    + constructor; [exists id; exact Hcur |]. apply IH. constructor; [reflexivity | constructor].
Qed.

(** * Bits of the mode *)

Lemma create_bit_flip (m : Z) :
  0 <= m <= 15 ->
  js_bxor m MODES.CREATE = Z.lxor m 2
  /\ negb (truthy (js_band (js_bxor m MODES.CREATE) MODES.CREATE)) = Z.testbit m 1
  /\ Z.testbit (Z.lxor m 2) 1 = negb (Z.testbit m 1)
  /\ 0 <= Z.lxor m 2 <= 15.
Proof.
  intros Hm.
  assert (H : m = 0 \/ m = 1 \/ m = 2 \/ m = 3 \/ m = 4 \/ m = 5 \/ m = 6 \/ m = 7
              \/ m = 8 \/ m = 9 \/ m = 10 \/ m = 11 \/ m = 12 \/ m = 13 \/ m = 14
              \/ m = 15) by lia.
  repeat (destruct H as [->|H]; [vm_compute; intuition discriminate |]).
  subst m. vm_compute. intuition discriminate.
Qed.

(** * Finishing a trace with a hull algorithm *)

Section Hull.
Context `{host : Leaflet}.

Lemma createMouseUp_unfold w first second third rest :
  latLngs w = first :: second :: third :: rest ->
  _createMouseUp w
  = bind (match hullAlgorithm (options w) with
          | HullName name => setMap ;; do reduced <- hull_call name; ret (Some reduced)
          | _ => ret None
          end) (close_and_create first) (set_creating false w).
Proof.
  intros Hl. unfold _createMouseUp. rewrite bind_modify, bind_get.
  change (latLngs (set_creating false w)) with (latLngs w). rewrite Hl. reflexivity.
Qed.

(** What the second part of [_createMouseUp] comes to, when the callback
    behaves. *)
Lemma close_and_create_run w first hullLatLngs parts :
  attached w ->
  callback_ok w ->
  Forall (fun e => (e <= lastId w)%nat) (edges w) ->
  let polygon := S (lastId w) in
  let shape := default (latLngs w ++ [first]) hullLatLngs in
  polygon_parts (smoothFactor (options w)) shape = Some parts ->
  let mode' := if createExitMode (options w)
               then js_bxor (mode w) MODES.CREATE else mode w in
  exists w',
    close_and_create first hullLatLngs w = (Returned tt, w')
    /\ latLngs w' = []
    /\ polygons w'
       = <[polygon := created_polygon polygon shape parts 1]>
           (polygons w)
    /\ edges w' = edges w ++ seq (S polygon) (length parts)
    /\ edge_markers w'
       = edge_markers w ++ new_edges polygon (Z.of_nat polygon) (length parts) 0 parts
    /\ svg w' = Some (mkSvg (svgClassName (options w)) [])
    /\ mode w' = mode'
    /\ (creating w', options w', hull_map w') = (creating w, options w, hull_map w)
    /\ log w'
       = log w ++ [NewPolygon polygon shape; CallMarkersFn (boundaries w')]
           ++ (if createExitMode (options w) && notification_due mode' w
               then [CallMarkersFn (boundaries w')] else []).
Proof.
  intros Hw Hok He polygon shape Hparts mode'.
  unfold close_and_create. rewrite bind_modify, bind_get.
  match goal with |- context [bind (createPolygon ?L) _ ?W] => set (w1 := W) end.
  change (default (latLngs w1) hullLatLngs) with shape.
  destruct (createPolygon_run shape parts w1)
    as (w2 & Hrun2 & Hpoly2 & Hed2 & Hem2 & Hsvg2 & Hlog2 & Hkeep2 & Hmap2 & Hlast2 & Hbound2 & Hok2);
    [exact Hw | exact Hok | exact He | exact Hparts |].
  change (lastId w1) with (lastId w) in *. change (options w1) with (options w) in *.
  change (polygons w1) with (polygons w) in *. change (edges w1) with (edges w) in *.
  change (edge_markers w1) with (edge_markers w) in *. change (log w1) with (log w) in *.
  change (mode w1) with (mode w) in *.
  change (boundaryUpdateRequired w1) with (boundaryUpdateRequired w) in *.
  change (map_ w1) with (map_ w) in *.
  change (creating w1) with (creating w) in *.
  change (hull_map w1) with (hull_map w) in *.
  fold polygon in Hrun2, Hpoly2, Hed2, Hem2, Hlog2.
  rewrite (bind_returned _ _ _ _ _ Hrun2), !bind_modify, bind_get.
  match goal with |- context [when _ _ ?W] => set (w3 := W) end.
  assert (Hopt3 : options w3 = options w) by (simpl; congruence).
  assert (Hmode3 : mode w3 = mode w) by (simpl; congruence).
  assert (Hbur3 : boundaryUpdateRequired w3 = boundaryUpdateRequired w)
    by (simpl; congruence).
  assert (Hpoly3 : polygons w3
                   = <[polygon := created_polygon polygon shape parts 1]>
                       (polygons w)).
  { unfold w3. simpl. rewrite Hpoly2, alter_insert_eq. reflexivity. }
  assert (Hb3 : boundaries w3 = boundaries w2) by reflexivity.
  assert (Hkeep3 : (creating w3, options w3, hull_map w3)
                   = (creating w, options w, hull_map w)).
  { change (creating w3) with (creating w2). change (options w3) with (options w2).
    change (hull_map w3) with (hull_map w2). congruence. }
  rewrite Hopt3.
  destruct (createExitMode (options w)) eqn:Hexit.
  - destruct Hw as [[mp Hmp] _].
    assert (Hmp2 : exists mp2, map_ w2 = Some mp2).
    { assert (H : dragging <$> map_ w2 = dragging <$> map_ w) by congruence.
      rewrite Hmp in H. destruct (map_ w2); [eauto | discriminate]. }
    destruct Hmp2 as [mp2 Hmp2].
    destruct (setMode_run (js_bxor (mode w3) MODES.CREATE) w3 mp2)
      as (w4 & mp4 & Hrun4 & Hmode4 & Hmap4 & _ & Hhandlers4 & _ & Hlog4 & Hframe4 & _ & _).
    { exact Hmp2. }
    { intros _. intros latLngs' call Hcall. apply (Hok2 latLngs' call Hcall). }
    unfold when. rewrite Hrun4.
    unfold beside_mode in Hframe4.
    assert (Hb4 : boundaries w4 = boundaries w2).
    { unfold boundaries, marker_at.
      replace (markers w4) with (markers w3) by congruence.
      replace (edges w4) with (edges w3) by congruence. reflexivity. }
    assert (Hem4 : edge_markers w4 = edge_markers w2).
    { unfold edge_markers, marker_at.
      replace (markers w4) with (markers w3) by congruence.
      replace (edges w4) with (edges w3) by congruence. reflexivity. }
    exists w4. split; [reflexivity |].
    split; [transitivity (latLngs w3); [congruence | reflexivity] |].
    split; [transitivity (polygons w3); [congruence | exact Hpoly3] |].
    split; [transitivity (edges w3); [congruence | exact Hed2] |].
    split; [rewrite Hem4; exact Hem2 |].
    split; [transitivity (svg w3); [congruence | exact Hsvg2] |].
    split; [rewrite Hmode4, Hmode3; reflexivity |].
    split; [rewrite <- Hkeep3; congruence |].
    rewrite Hlog4. change (log w3) with (log w2). rewrite Hlog2, Hb4, Hb3.
    unfold notification_due. rewrite Hmode3, Hbur3. simpl.
    rewrite <- app_assoc. reflexivity.
  - unfold when. exists w3. split; [reflexivity |].
    split; [reflexivity |].
    split; [exact Hpoly3 |].
    split; [exact Hed2 |].
    split; [exact Hem2 |].
    split; [exact Hsvg2 |].
    split; [exact Hmode3 |].
    split; [exact Hkeep3 |].
    change (log w3) with (log w2). rewrite Hlog2, Hb3. reflexivity.
Qed.
End Hull.

(** * Plotting markers *)

Section Markers.

(** The loop of [setMarkers] over positions only. *)
Lemma plot_run icon (positions : list LatLng) w :
  plot icon (EntryLatLng <$> positions) w
  = (Returned tt,
     set_markerLayer
       (mkLayerGroup (lg_id (markerLayer w))
          (lg_layers (markerLayer w) ++ ((fun ll => (ll, icon)) <$> positions))) w).
Proof.
  revert w. induction positions as [|ll rest IH]; intros w.
  - simpl. rewrite app_nil_r. destruct w as [? ? ? ? ? [? ?] ? ? ? ? ? ? ? ? ? ?]. reflexivity.
  - unfold plot in *. rewrite fmap_cons. cbn [forEach]. rewrite bind_modify, IH.
    simpl. rewrite <- app_assoc. reflexivity.
Qed.

(** What [setMarkers] comes to for positions and an icon it accepts. *)
Lemma setMarkers_run (positions : list LatLng) icon w m :
  map_ w = Some m ->
  icon_ok icon = true ->
  setMarkers (MarkersArray (EntryLatLng <$> positions)) icon w
  = (Returned tt,
     set_markerLayer
       (mkLayerGroup (S (lastId w)) ((fun ll => (ll, icon_of icon)) <$> positions))
       (reset_layer m w)).
Proof.
  intros Hm Hicon. rewrite (setMarkers_unfold _ _ _ _ Hm Hicon). simpl entries_of.
  rewrite plot_run. reflexivity.
Qed.
End Markers.

(** * The classes of the map *)

Section Classes.

Ltac not_listed :=
  let H := fresh in
  intros H; simpl in H;
  repeat (apply elem_of_cons in H; destruct H as [H|H]; [discriminate H |]);
  exact (not_elem_of_nil _ H).

(** The class list without the classes [setMode] manages. *)
Lemma classes_removed (l : list string) :
  classList_remove "mode-view"
    (classList_remove "mode-delete"
       (classList_remove "mode-edit" (classList_remove "mode-create" l)))
  = filter (fun c => c ∉ indicators) l.
Proof.
  unfold classList_remove. rewrite !list_filter_filter. apply list_filter_iff.
  intros c. unfold indicators. rewrite !not_elem_of_cons.
  pose proof (not_elem_of_nil c). tauto.
Qed.

Lemma defineClasses_split (m : Z) (l : list string) :
  defineClasses m l
  = filter (fun c => c ∉ indicators) l ++ defineClasses m [].
Proof.
  unfold defineClasses. rewrite classes_removed.
  set (base := filter (fun c => c ∉ indicators) l).
  assert (Hbase : forall c, c ∈ indicators -> c ∉ base).
  { intros c Hc Hin. apply list_elem_of_filter in Hin. destruct Hin as [Hn _]. auto. }
  assert (Hadd : forall c extra, c ∈ indicators -> c ∉ extra ->
            classList_add c (base ++ extra) = base ++ (extra ++ [c])).
  { intros c extra Hc Hextra. unfold classList_add. rewrite decide_False.
    - rewrite app_assoc. reflexivity.
    - intros Hin. apply elem_of_app in Hin. destruct Hin as [Hin|Hin];
        [exact (Hbase c Hc Hin) | exact (Hextra Hin)]. }
  assert (Hadd0 : forall c, c ∈ indicators -> classList_add c base = base ++ [c]).
  { intros c Hc. rewrite <- (app_nil_r base) at 1. rewrite (Hadd c []); [reflexivity | exact Hc |].
    apply not_elem_of_nil. }
  assert (Hc : "mode-create"%string ∈ indicators)
    by (unfold indicators; repeat first [left | right]).
  assert (He : "mode-edit"%string ∈ indicators)
    by (unfold indicators; repeat first [left | right]).
  assert (Hd : "mode-delete"%string ∈ indicators)
    by (unfold indicators; repeat first [left | right]).
  assert (Hv : "mode-view"%string ∈ indicators)
    by (unfold indicators; repeat first [left | right]).
  destruct (truthy (js_band m MODES.CREATE)), (truthy (js_band m MODES.EDIT)),
    (truthy (js_band m MODES.DELETE)), (truthy (js_band m MODES.VIEW));
    cbn [classList_remove filter list_filter]; simpl;
    rewrite ?Hadd0 by assumption;
    rewrite ?Hadd by (try assumption; not_listed);
    rewrite ?app_nil_r; reflexivity.
Qed.

(** The classes after [setMode(m)] then [setMode(m')] are those after
    [setMode(m')] alone. *)
Lemma defineClasses_last (m m' : Z) (l : list string) :
  defineClasses m' (defineClasses m l) = defineClasses m' l.
Proof.
  rewrite (defineClasses_split m' (defineClasses m l)), (defineClasses_split m' l).
  f_equal. rewrite (defineClasses_split m l), filter_app.
  rewrite list_filter_filter.
  assert (Hnone : filter (fun c => c ∉ indicators) (defineClasses m []) = []).
  { unfold defineClasses.
    destruct (truthy (js_band m MODES.CREATE)), (truthy (js_band m MODES.EDIT)),
      (truthy (js_band m MODES.DELETE)), (truthy (js_band m MODES.VIEW));
      vm_compute; reflexivity. }
  rewrite Hnone, app_nil_r. apply list_filter_iff. intros c. tauto.
Qed.
End Classes.

(** * Where the host renders nothing *)

Section Unrendered.
Context `{host : Leaflet}.

(** [createPolygon] for points the host renders no part for: the polygon is
    made and added to the map, the tracer is renewed, and [attachEdges]
    throws. *)
Lemma createPolygon_unrendered l w :
  attached w ->
  polygon_parts (smoothFactor (options w)) l = None ->
  exists w',
    createPolygon l w = (Thrown (TypeError "parts is undefined"), w')
    /\ log w' = log w ++ [NewPolygon (S (lastId w)) l]
    /\ svg w' = Some (mkSvg (svgClassName (options w)) [])
    /\ polygons w'
       = <[S (lastId w) := mkPolygon (Z.of_nat (S (lastId w))) l [] None true 0%nat]>
           (polygons w)
    /\ (edges w', markers w', creating w', latLngs w', options w', mode w',
        movingEdge w', boundaryUpdateRequired w')
       = (edges w, markers w, creating w, latLngs w, options w, mode w,
          movingEdge w, boundaryUpdateRequired w).
Proof.
  intros [[m Hm] [s Hs]] Hparts.
  unfold createPolygon, destroyD3, createD3.
  rewrite bind_bind, bind_get, Hs.
  rewrite !bind_modify, bind_fresh, bind_emit.
  erewrite bind_with_map by (simpl; exact Hm).
  rewrite bind_modify.
  match goal with |- context [bind (attachEdges ?p) _ ?W] =>
    rewrite (bind_thrown _ _ _ _ _ (attachEdges_unrendered p W
               ltac:(unfold polygon_at; simpl; rewrite lookup_insert_eq; exact Hparts)))
  end.
  eexists. split; [reflexivity |]. simpl.
  split; [reflexivity |]. split; [reflexivity |]. split; [rewrite Hparts; reflexivity |].
  reflexivity.
Qed.

(** [_createMouseUp] with no hull algorithm on a trace the host renders no
    part for: the trace is closed and kept, and the mode is not changed. *)
Lemma createMouseUp_unrendered w first second third rest :
  attached w ->
  latLngs w = first :: second :: third :: rest ->
  hull_disabled (options w) = true ->
  polygon_parts (smoothFactor (options w)) (latLngs w ++ [first]) = None ->
  exists w',
    _createMouseUp w = (Thrown (TypeError "parts is undefined"), w')
    /\ log w' = log w ++ [NewPolygon (S (lastId w)) (latLngs w ++ [first])]
    /\ latLngs w' = latLngs w ++ [first]
    /\ creating w' = false
    /\ (edges w', markers w', options w', mode w', movingEdge w',
        boundaryUpdateRequired w')
       = (edges w, markers w, options w, mode w, movingEdge w,
          boundaryUpdateRequired w).
Proof.
  intros Hw Hl Hhull Hparts.
  unfold _createMouseUp. rewrite bind_modify, bind_get. simpl. rewrite Hl.
  assert (Hnone :
    (match hullAlgorithm (options w) with
     | HullName name => setMap;; do reduced <- hull_call name; ret (Some reduced)
     | _ => ret None
     end) = ret None).
  { unfold hull_disabled in Hhull. destruct (hullAlgorithm (options w));
      [reflexivity | reflexivity | discriminate]. }
  rewrite Hnone, bind_ret, bind_modify, bind_get. simpl. rewrite Hl. simpl.
  match goal with |- context [bind (createPolygon ?L) _ ?W] => set (w1 := W) end.
  destruct (createPolygon_unrendered (first :: second :: third :: rest ++ [first]) w1)
    as (w' & Hrun & Hlog & _ & _ & Hkeep).
  { exact Hw. }
  { rewrite Hl in Hparts. exact Hparts. }
  rewrite (bind_thrown _ _ _ _ _ Hrun).
  exists w'. split; [reflexivity |].
  split; [exact Hlog |].
  split; [transitivity (latLngs w1); [congruence | reflexivity] |].
  split; [transitivity (creating w1); [congruence | reflexivity] |].
  transitivity (edges w1, markers w1, options w1, mode w1, movingEdge w1,
                boundaryUpdateRequired w1); [congruence | reflexivity].
Qed.
End Unrendered.

(** * The position of an edge in what the callback is given *)

Lemma concat_runs ms : concat (runs ms) = ms.
Proof. destruct ms as [|m rest]; [reflexivity | apply concat_runs_from]. Qed.

(** Every edge in [this.edges] has its position in one of the groups. *)
Lemma boundaries_hold (w : World) (e : ref) :
  e ∈ edges w ->
  exists group, Some group ∈ boundaries w /\ _latlng (marker_at w e) ∈ group.
Proof.
  intros He. unfold boundaries. rewrite group_edges_runs.
  set (ms := marker_at w <$> edges w).
  assert (Hm : marker_at w e ∈ ms).
  { apply list_elem_of_fmap. exists e. split; [reflexivity | exact He]. }
  rewrite <- (concat_runs ms) in Hm.
  apply list_elem_of_In, in_concat in Hm. destruct Hm as (run & Hrun & Hin).
  apply list_elem_of_In in Hrun. apply list_elem_of_In in Hin.
  exists (points run). split.
  - apply list_elem_of_fmap. exists (points run). split; [reflexivity |].
    apply list_elem_of_fmap. exists run. split; [reflexivity | exact Hrun].
  - unfold points. apply list_elem_of_fmap. exists (marker_at w e).
    split; [reflexivity | exact Hin].
Qed.

(** * The polygon a trace becomes *)

(** C1 as amended.  When the pointer is released on a trace of three points
    or more and no hull algorithm is configured, [L.polygon] is called with
    the trace followed by its first point: one point more than the trace,
    beginning and ending with the same point.  These are not the points the
    polygon is left with: where the host has rendered a part for the
    polygon, the callback behaves and no edge has an identifier above the
    last one handed out, [_createMouseUp] returns and the polygon's
    [_latlngs] are the points of the rendered part taken through
    [containerPointToLatLng], as many as the host rendered.  The editor has
    its map and its tracer. *)
Theorem finalization_closes_trace `{host : Leaflet}
    (w : World) (first second third : LatLng) (rest : list LatLng) :
  attached w ->
  latLngs w = first :: second :: third :: rest ->
  hull_disabled (options w) = true ->
  let traced := latLngs w in
  let closed := traced ++ [first] in
  let polygon := S (lastId w) in
  (exists evs, log (_createMouseUp w).2 = log w ++ NewPolygon polygon closed :: evs)
  /\ length closed = S (length traced)
  /\ head closed = Some first
  /\ last closed = Some first
  /\ (forall parts,
        callback_ok w ->
        Forall (fun e => (e <= lastId w)%nat) (edges w) ->
        polygon_parts (smoothFactor (options w)) closed = Some parts ->
        exists w',
          _createMouseUp w = (Returned tt, w')
          /\ polygons w' !! polygon = Some (created_polygon polygon closed parts 1)
          /\ _latlngs (polygon_at w' polygon) = containerPointToLatLng <$> parts
          /\ length (_latlngs (polygon_at w' polygon)) = length parts).
Proof.
  intros Hw Hl Hhull traced closed polygon. unfold closed, traced.
  split.
  { destruct (createMouseUp_without_hull w first second third rest Hw Hl Hhull)
      as [Hlog _]. exact Hlog. }
  split; [rewrite length_app; simpl; lia |].
  split; [rewrite Hl; reflexivity |].
  split; [apply last_snoc |].
  intros parts Hok He Hparts.
  destruct (createMouseUp_run w first second third rest parts Hw Hok He Hl Hhull Hparts)
    as (w' & Hrun & _ & _ & Hpoly & _).
  exists w'. split; [exact Hrun |].
  unfold polygon in *.
  assert (Hat : polygons w' !! S (lastId w)
                = Some (created_polygon (S (lastId w)) (latLngs w ++ [first]) parts 1)).
  { rewrite Hpoly. apply lookup_insert_eq. }
  split; [exact Hat |].
  unfold polygon_at. rewrite Hpoly, lookup_insert_eq. simpl.
  split; [reflexivity | apply length_fmap].
Qed.

(** C1 as amended, on the trace of the demonstration, whose host renders
    every point. *)
Lemma finalization_closes_trace_witness :
  let w := Demo.traced in
  let first := mkLatLng 50 10 in
  attached w
  /\ latLngs w = first :: mkLatLng 50 50 :: mkLatLng 10 50 :: [mkLatLng 10 10]
  /\ hull_disabled (options w) = true
  /\ (let traced := latLngs w in
      let closed := traced ++ [first] in
      let polygon := S (lastId w) in
      (exists evs,
         log (@_createMouseUp Demo.host w).2 = log w ++ NewPolygon polygon closed :: evs)
      /\ length closed = S (length traced)
      /\ head closed = Some first
      /\ last closed = Some first
      /\ (forall parts,
            callback_ok w ->
            Forall (fun e => (e <= lastId w)%nat) (edges w) ->
            @polygon_parts Demo.host (smoothFactor (options w)) closed = Some parts ->
            exists w',
              @_createMouseUp Demo.host w = (Returned tt, w')
              /\ polygons w' !! polygon
                 = Some (@created_polygon Demo.host polygon closed parts 1)
              /\ _latlngs (polygon_at w' polygon)
                 = @containerPointToLatLng Demo.host <$> parts
              /\ length (_latlngs (polygon_at w' polygon)) = length parts)).
Proof.
  intros w first.
  assert (H1 : attached w) by (split; eexists; reflexivity).
  assert (H2 : latLngs w = first :: mkLatLng 50 50 :: mkLatLng 10 50 :: [mkLatLng 10 10])
    by reflexivity.
  assert (H3 : hull_disabled (options w) = true) by reflexivity.
  repeat (split; [assumption |]).
  exact (@finalization_closes_trace Demo.host w _ _ _ _ H1 H2 H3).
Defined.

(** C1 as it was stated fails on a host that renders as Leaflet does: the
    trace of the demonstration has four points, [L.polygon] is called with
    five, and the polygon is left with the four the host rendered, which are
    not the trace with its first point appended. *)
Lemma finalization_leaves_rendered_points :
  let w := Demo.traced in
  let result := @_createMouseUp DemoLeaflet.host w in
  let closed := latLngs w ++ [mkLatLng 50 10] in
  attached w
  /\ latLngs w = [mkLatLng 50 10; mkLatLng 50 50; mkLatLng 10 50; mkLatLng 10 10]
  /\ hull_disabled (options w) = true
  /\ result.1 = Returned tt
  /\ NewPolygon 1%nat closed ∈ log result.2
  /\ _latlngs (polygon_at result.2 1%nat)
     = [mkLatLng 50 10; mkLatLng 50 50; mkLatLng 10 50; mkLatLng 10 10]
  /\ _latlngs (polygon_at result.2 1%nat) <> closed
  /\ length (_latlngs (polygon_at result.2 1%nat)) <> S (length (latLngs w)).
Proof.
  intros w result closed.
  assert (Hpoints : _latlngs (polygon_at result.2 1%nat)
                    = [mkLatLng 50 10; mkLatLng 50 50; mkLatLng 10 50; mkLatLng 10 10])
    by (vm_compute; reflexivity).
  split; [split; eexists; reflexivity |].
  split; [reflexivity |].
  split; [reflexivity |].
  split; [vm_compute; reflexivity |].
  split.
  { assert (Hlog : log result.2
                   = [NewPolygon 1%nat closed; CallMarkersFn (boundaries result.2)])
      by (vm_compute; reflexivity).
    rewrite Hlog. left. }
  split; [exact Hpoints |].
  split; [rewrite Hpoints; vm_compute; discriminate |].
  rewrite Hpoints. vm_compute. discriminate.
Qed.

(** * A pending update and a careless callback *)

(** C3 as it was stated fails where an update of the boundaries is pending
    and the callback passes [setMarkers] something that is no position:
    [setMode(VIEW)] on the editor of [DemoPending.pending], which is in EDIT
    mode on its map, sets the mode, calls the callback and throws what
    [setMarkers] throws, and the container is left with the class of EDIT
    mode and without the class of VIEW mode. *)
Lemma setMode_throws_with_pending_update :
  let w := DemoPending.pending in
  let result := setMode MODES.VIEW w in
  (classList <$> map_ w) = Some ["leaflet-container"; "mode-edit"]%string
  /\ boundaryUpdateRequired w = true
  /\ result.1 = Thrown supplied_markers_error
  /\ mode result.2 = MODES.VIEW
  /\ (classList <$> map_ result.2) = Some ["leaflet-container"; "mode-edit"]%string
  /\ boundaryUpdateRequired result.2 = true
  /\ ~ callback_ok w.
Proof.
  intros w result.
  split; [vm_compute; reflexivity |].
  split; [vm_compute; reflexivity |].
  split; [vm_compute; reflexivity |].
  split; [vm_compute; reflexivity |].
  split; [vm_compute; reflexivity |].
  split; [vm_compute; reflexivity |].
  intros Hok.
  destruct (Hok [] (MarkersArray [EntryOther "a string"], IconUndefined)) as (_ & _ & H).
  - left.
  - discriminate H.
Qed.
(** * Further properties of the script *)

(** ** The edge collection in the states the editor gets into *)

(** X1.  In every state the first editor of a page can get into — from the
    state the script is loaded in, by any sequence of calls of [initialize],
    [onAdd], [onRemove], [setMode], [createD3], [destroyD3],
    [createPolygon], [destroyPolygon], [clearPolygons], [notifyBoundaries],
    [setMarkers] and [updatePolygonEdge], of assignments to its options and
    of events on the map, the edges and the polygons, whether each of them
    returns or throws, but without a call of [attachEdges] from outside —
    the edges of one polygon stand together in [this.edges], in the order of
    their [_index]. *)
Theorem edges_stay_grouped `{host : Leaflet} (w : World) :
  reachable w ->
  contiguous (edge_markers w) /\ index_ordered (edge_markers w).
Proof.
  intros Hw. destruct (tidy_reachable w Hw) as (Hc & Hi & _). split; assumption.
Qed.

(** X1, for the editor after the session of the demonstration. *)
Lemma edges_stay_grouped_witness :
  let w := @perform_all Demo.host DemoSession.session prototype in
  @reachable Demo.host w
  /\ contiguous (edge_markers w) /\ index_ordered (edge_markers w).
Proof.
  intros w.
  assert (H1 : @reachable Demo.host w)
    by (apply (@reachable_perform_all Demo.host), (@reachable_prototype Demo.host)).
  split; [exact H1 |].
  exact (@edges_stay_grouped Demo.host w H1).
Defined.

(** X2.  In every state the first editor of a page can get into by the
    calls and events of X1 (every method that is not marked private but
    [attachEdges], the assignments to the options, the events),
    [notifyBoundaries] calls the user's callback once, with one list of
    positions for each polygon that has edges: the polygons in the order
    they first occur in [this.edges], no polygon twice, and for each of
    them the positions of all its edges. *)
Theorem reachable_boundaries_by_polygon `{host : Leaflet} (w : World) :
  reachable w ->
  log (notifyBoundaries w).2 = log w ++ [CallMarkersFn (boundaries w)]
  /\ boundaries w = Some <$> (points <$> by_shape (edge_markers w))
  /\ NoDup (shape_ids (edge_markers w))
  /\ length (boundaries w) = length (shape_ids (edge_markers w)).
Proof.
  intros Hw. destruct (tidy_reachable w Hw) as (Hc & _).
  assert (Hb : boundaries w = Some <$> (points <$> by_shape (edge_markers w))).
  { unfold boundaries. rewrite group_edges_runs.
    fold (edge_markers w). rewrite (runs_by_shape _ Hc). reflexivity. }
  split; [apply notifyBoundaries_log |].
  split; [exact Hb |].
  split; [apply NoDup_distinct |].
  rewrite Hb. unfold by_shape. rewrite !length_fmap. reflexivity.
Qed.

(** X2, for the editor after the session of the demonstration. *)
Lemma reachable_boundaries_by_polygon_witness :
  let w := @perform_all Demo.host DemoSession.session prototype in
  @reachable Demo.host w
  /\ log (notifyBoundaries w).2 = log w ++ [CallMarkersFn (boundaries w)]
  /\ boundaries w = Some <$> (points <$> by_shape (edge_markers w))
  /\ NoDup (shape_ids (edge_markers w))
  /\ length (boundaries w) = length (shape_ids (edge_markers w)).
Proof.
  intros w.
  assert (H1 : @reachable Demo.host w)
    by (apply (@reachable_perform_all Demo.host), (@reachable_prototype Demo.host)).
  split; [exact H1 |].
  exact (@reachable_boundaries_by_polygon Demo.host w H1).
Defined.

(** X3.  Whatever [this.edges] holds, what [notifyBoundaries] passes to the
    callback has no hole and no empty list, every list in it holds the
    positions of edges of one polygon only, and the lists one after the
    other are the positions of all the edges in the order of
    [this.edges]. *)
Theorem boundaries_cover_every_edge (w : World) :
  exists groups : list (list Marker),
    boundaries w = Some <$> (points <$> groups)
    /\ concat groups = edge_markers w
    /\ Forall (fun group => group <> []) groups
    /\ Forall (fun group => exists id, Forall (fun m => _polygonId m = id) group) groups.
Proof.
  exists (runs (edge_markers w)).
  split; [unfold boundaries; rewrite group_edges_runs; reflexivity |].
  destruct (edge_markers w) as [|m rest]; [repeat split; constructor |].
  unfold runs. split; [apply concat_runs_from |].
  split; [apply runs_from_nonempty; discriminate |].
  apply runs_from_same. constructor; [reflexivity | constructor].
Qed.

(** ** Attaching edges and creating a polygon *)

(** X4.  On an editor that has its map, [attachEdges(polygon)] for a polygon
    whose [_parts[0]] is an array returns and appends one new edge marker
    to [this.edges] for every point of that array, in their order: the edge
    for the point at position [i] has [_index] [i], [_length] the number of
    points, [_polygon] and [_polygonId] the polygon and its [_leaflet_id],
    and stands at [layerPointToLatLng] of the point.  The edges there were
    stay as they are, in front of the new ones.  For a polygon whose
    [_parts[0]] is [undefined], because nothing of it was rendered,
    [attachEdges] throws a [TypeError] and changes nothing.  No edge there
    is has an identifier above the last one handed out, as in every state
    of X1. *)
Theorem attachEdges_one_edge_per_part `{host : Leaflet} (polygon : ref) (w : World) :
  is_Some (map_ w) ->
  Forall (fun e => (e <= lastId w)%nat) (edges w) ->
  match _parts (polygon_at w polygon) with
  | Some parts =>
      exists w',
        attachEdges polygon w = (Returned tt, w')
        /\ beside_attach w' = beside_attach w
        /\ edges w' = edges w ++ seq (S (lastId w)) (length parts)
        /\ edge_markers w'
             = edge_markers w
               ++ imap (fun i point =>
                          mkMarker polygon (_leaflet_id (polygon_at w polygon)) i
                            (length parts) (layerPointToLatLng point)) parts
  | None => attachEdges polygon w = (Thrown (TypeError "parts is undefined"), w)
  end.
Proof.
  intros Hmap He.
  destruct (_parts (polygon_at w polygon)) as [parts|] eqn:Hparts.
  - destruct (attachEdges_run polygon parts w Hmap Hparts He)
      as (w' & Hrun & Hb & _ & Hed & Hem & _).
    exists w'. repeat split; assumption.
  - apply attachEdges_unrendered, Hparts.
Qed.

(** X4, for the polygon of the demonstration, given edges once more. *)
Lemma attachEdges_one_edge_per_part_witness :
  let parts := [mkPoint 50 10; mkPoint 50 50; mkPoint 10 50; mkPoint 10 10; mkPoint 50 10] in
  is_Some (map_ Demo.drawn)
  /\ Forall (fun e => (e <= lastId Demo.drawn)%nat) (edges Demo.drawn)
  /\ _parts (polygon_at Demo.drawn 1%nat) = Some parts
  /\ exists w',
       @attachEdges Demo.host 1%nat Demo.drawn = (Returned tt, w')
       /\ beside_attach w' = beside_attach Demo.drawn
       /\ edges w' = edges Demo.drawn ++ seq (S (lastId Demo.drawn)) (length parts)
       /\ edge_markers w'
          = edge_markers Demo.drawn
            ++ imap (fun i point =>
                       mkMarker 1%nat (_leaflet_id (polygon_at Demo.drawn 1%nat)) i
                         (length parts) (@layerPointToLatLng Demo.host point)) parts.
Proof.
  intros parts.
  assert (H1 : is_Some (map_ Demo.drawn)) by (eexists; reflexivity).
  assert (H2 : Forall (fun e => (e <= lastId Demo.drawn)%nat) (edges Demo.drawn))
    by (repeat constructor; simpl; lia).
  assert (H3 : _parts (polygon_at Demo.drawn 1%nat) = Some parts) by reflexivity.
  repeat (split; [assumption |]).
  pose proof (@attachEdges_one_edge_per_part Demo.host 1%nat Demo.drawn H1 H2) as H.
  rewrite H3 in H. exact H.
Defined.

(** X5.  On an editor that has no map, [attachEdges(polygon)] for a polygon
    of the editor throws a [TypeError] before it has changed anything: at
    the first point of the polygon's rendered part, or at once where
    [_parts[0]] is [undefined]; it returns only if the part has no point. *)
Theorem attachEdges_without_map `{host : Leaflet} (polygon : ref) (w : World) :
  map_ w = None ->
  is_Some (polygons w !! polygon) ->
  attachEdges polygon w =
    (match _parts (polygon_at w polygon) with
     | None => Thrown (TypeError "parts is undefined")
     | Some [] => Returned tt
     | Some (_ :: _) => Thrown (TypeError "this.map is null")
     end, w).
Proof.
  intros Hmap _. rewrite attachEdges_unfold.
  destruct (_parts (polygon_at w polygon)) as [[|point parts]|]; [reflexivity | | reflexivity].
  rewrite imap_cons. cbn [forEach]. unfold attach_edge at 1.
  rewrite bind_bind, bind_get, Hmap. reflexivity.
Qed.

(** X5, for the polygon of the demonstration on an editor whose map is
    gone. *)
Lemma attachEdges_without_map_witness :
  let w := set_map None Demo.drawn in
  map_ w = None
  /\ is_Some (polygons w !! 1%nat)
  /\ @attachEdges Demo.host 1%nat w =
       (match _parts (polygon_at w 1%nat) with
        | None => Thrown (TypeError "parts is undefined")
        | Some [] => Returned tt
        | Some (_ :: _) => Thrown (TypeError "this.map is null")
        end, w).
Proof.
  intros w.
  assert (H1 : map_ w = None) by reflexivity.
  assert (H2 : is_Some (polygons w !! 1%nat)) by (eexists; reflexivity).
  repeat (split; [assumption |]).
  exact (@attachEdges_without_map Demo.host 1%nat w H1 H2).
Defined.

(** X6.  On an editor that has its map and its tracer, with a callback that
    behaves, [createPolygon(latLngs)] makes a new polygon from [latLngs]
    and replaces the tracer by a new, empty one with the class of the
    options.  Where the host has rendered a part for the polygon, it
    returns the polygon; the polygon's [_latlngs] are not [latLngs]
    afterwards but the points of the rendered part taken through
    [containerPointToLatLng]; the other polygons are as they were;
    [this.edges] has grown by one edge for each point of the part; and the
    callback was called once, after all that, with the boundaries that
    include the new polygon.  Where the host has rendered nothing for the
    polygon, [createPolygon] throws the [TypeError] of [attachEdges]:
    [this.edges] is as it was and the callback was not called.  No edge
    there is has an identifier above the last one handed out, as in every
    state of X1. *)
Theorem createPolygon_clobbers_latlngs `{host : Leaflet} (l : list LatLng) (w : World) :
  attached w ->
  callback_ok w ->
  Forall (fun e => (e <= lastId w)%nat) (edges w) ->
  let polygon := S (lastId w) in
  match polygon_parts (smoothFactor (options w)) l with
  | Some parts =>
      exists w',
        createPolygon l w = (Returned polygon, w')
        /\ polygons w' !! polygon
           = Some (mkPolygon (Z.of_nat polygon) l (containerPointToLatLng <$> parts)
                     (Some parts) true 0%nat)
        /\ (forall q, q <> polygon -> polygons w' !! q = polygons w !! q)
        /\ edges w' = edges w ++ seq (S polygon) (length parts)
        /\ svg w' = Some (mkSvg (svgClassName (options w)) [])
        /\ log w' = log w ++ [NewPolygon polygon l; CallMarkersFn (boundaries w')]
  | None =>
      exists w',
        createPolygon l w = (Thrown (TypeError "parts is undefined"), w')
        /\ edges w' = edges w
        /\ svg w' = Some (mkSvg (svgClassName (options w)) [])
        /\ log w' = log w ++ [NewPolygon polygon l]
  end.
Proof.
  intros Hw Hok He polygon.
  destruct (polygon_parts (smoothFactor (options w)) l) as [parts|] eqn:Hparts.
  - destruct (createPolygon_run l parts w Hw Hok He Hparts)
      as (w' & Hrun & Hpoly & Hed & _ & Hsvg & Hlog & _).
    exists w'. split; [exact Hrun |].
    split; [rewrite Hpoly; apply lookup_insert_eq |].
    split; [intros q Hq; rewrite Hpoly; apply lookup_insert_ne;
            intros E; apply Hq; symmetry; exact E |].
    repeat split; assumption.
  - destruct (createPolygon_unrendered l w Hw Hparts)
      as (w' & Hrun & Hlog & Hsvg & _ & Hkeep).
    exists w'. split; [exact Hrun |].
    split; [congruence |]. split; [exact Hsvg | exact Hlog].
Qed.

(** X6, for a triangle on the editor of the demonstration, which its host
    renders point by point. *)
Lemma createPolygon_clobbers_latlngs_witness :
  let l := [mkLatLng 1 1; mkLatLng 5 1; mkLatLng 5 5] in
  let parts := [mkPoint 1 1; mkPoint 5 1; mkPoint 5 5] in
  attached Demo.attached
  /\ callback_ok Demo.attached
  /\ Forall (fun e => (e <= lastId Demo.attached)%nat) (edges Demo.attached)
  /\ @polygon_parts Demo.host (smoothFactor (options Demo.attached)) l = Some parts
  /\ (let polygon := S (lastId Demo.attached) in
      exists w',
        @createPolygon Demo.host l Demo.attached = (Returned polygon, w')
        /\ polygons w' !! polygon
           = Some (mkPolygon (Z.of_nat polygon) l
                     (@containerPointToLatLng Demo.host <$> parts) (Some parts) true 0%nat)
        /\ (forall q, q <> polygon -> polygons w' !! q = polygons Demo.attached !! q)
        /\ edges w' = edges Demo.attached ++ seq (S polygon) (length parts)
        /\ svg w' = Some (mkSvg (svgClassName (options Demo.attached)) [])
        /\ log w' = log Demo.attached
                      ++ [NewPolygon polygon l; CallMarkersFn (boundaries w')]).
Proof.
  intros l parts.
  assert (H1 : attached Demo.attached) by (split; eexists; reflexivity).
  assert (H2 : callback_ok Demo.attached) by (intros latLngs' call Hcall; inversion Hcall).
  assert (H3 : Forall (fun e => (e <= lastId Demo.attached)%nat) (edges Demo.attached))
    by constructor.
  assert (H4 : @polygon_parts Demo.host (smoothFactor (options Demo.attached)) l
               = Some parts) by reflexivity.
  repeat (split; [assumption |]).
  pose proof (@createPolygon_clobbers_latlngs Demo.host l Demo.attached H1 H2 H3) as H.
  cbv zeta in H. rewrite H4 in H. exact H.
Defined.

(** X7.  Creating a polygon and destroying it again puts the edge
    collection back: on an editor that has its map and its tracer, with a
    callback that behaves, and for points the host renders a part for,
    [destroyPolygon] of the polygon [createPolygon(latLngs)] returned
    removes the container of that polygon and the icons of exactly the
    edges [createPolygon] attached, leaves [this.edges] as it was before
    the polygon was created, and ends with a call of the callback with the
    boundaries there were before.  No edge there is, and no polygon of
    such an edge, has an identifier above the last one handed out. *)
Theorem create_then_destroy_restores_edges `{host : Leaflet}
    (l : list LatLng) (parts : list Point) (w : World) :
  attached w ->
  callback_ok w ->
  Forall (fun e => (e <= lastId w)%nat) (edges w) ->
  Forall (fun m => (_polygon m <= lastId w)%nat) (edge_markers w) ->
  polygon_parts (smoothFactor (options w)) l = Some parts ->
  let polygon := S (lastId w) in
  exists w1 w2,
    createPolygon l w = (Returned polygon, w1)
    /\ destroyPolygon polygon w1 = (Returned JsUndefined, w2)
    /\ edges w1 = edges w ++ seq (S polygon) (length parts)
    /\ edges w2 = edges w
    /\ boundaries w2 = boundaries w
    /\ _container (polygon_at w2 polygon) = false
    /\ log w2 = log w1 ++ ContainerRemove polygon
                  :: (IconRemove <$> seq (S polygon) (length parts))
                  ++ [CallMarkersFn (boundaries w)].
Proof.
  intros Hw Hok He Hown Hparts polygon.
  destruct (createPolygon_run l parts w Hw Hok He Hparts)
    as (w1 & Hrun1 & Hpoly1 & Hed1 & Hem1 & _ & _ & _ & _ & _ & _ & Hok1).
  fold polygon in Hrun1, Hpoly1, Hed1, Hem1.
  destruct (destroyPolygon_run polygon w1 Hok1) as (w2 & Hrun2 & Hb2 & Hlog2 & _).
  (* the old edges and the new ones, read in [w1] *)
  unfold edge_markers in Hem1. rewrite Hed1, fmap_app in Hem1.
  apply app_inj_1 in Hem1; [| rewrite !length_fmap; reflexivity].
  destruct Hem1 as [Hold Hnew].
  assert (Hbeside : edges_beside w1 polygon = edges w).
  { unfold edges_beside. rewrite Hed1, filter_app.
    rewrite (filter_all _ (edges w)), (filter_none _ (seq _ _)), app_nil_r; [reflexivity | |].
    - intros e Hin Hne. apply Hne.
      assert (Hm : marker_at w1 e ∈ new_edges polygon (Z.of_nat polygon) (length parts) 0 parts).
      { rewrite <- Hnew. apply list_elem_of_fmap. exists e. split; [reflexivity | exact Hin]. }
      unfold new_edges in Hm. apply elem_of_lookup_imap in Hm.
      destruct Hm as (i & point & -> & _). reflexivity.
    - intros e Hin.
      assert (Hm : marker_at w1 e ∈ edge_markers w).
      { unfold edge_markers. rewrite <- Hold. apply list_elem_of_fmap.
        exists e. split; [reflexivity | exact Hin]. }
      rewrite Forall_forall in Hown. specialize (Hown _ Hm). unfold polygon. lia. }
  assert (Hof : edges_of w1 polygon = seq (S polygon) (length parts)).
  { unfold edges_of. rewrite Hed1, filter_app.
    rewrite (filter_none _ (edges w)), (filter_all _ (seq _ _)); [reflexivity | |].
    - intros e Hin.
      assert (Hm : marker_at w1 e ∈ new_edges polygon (Z.of_nat polygon) (length parts) 0 parts).
      { rewrite <- Hnew. apply list_elem_of_fmap. exists e. split; [reflexivity | exact Hin]. }
      unfold new_edges in Hm. apply elem_of_lookup_imap in Hm.
      destruct Hm as (i & point & -> & _). reflexivity.
    - intros e Hin.
      assert (Hm : marker_at w1 e ∈ edge_markers w).
      { unfold edge_markers. rewrite <- Hold. apply list_elem_of_fmap.
        exists e. split; [reflexivity | exact Hin]. }
      rewrite Forall_forall in Hown. specialize (Hown _ Hm). unfold polygon. lia. }
  unfold beside_notify in Hb2.
  assert (Hed2 : edges w2 = edges w).
  { transitivity (edges (polygon_destroyed polygon w1)); [congruence | exact Hbeside]. }
  assert (Hmk2 : markers w2 = markers w1).
  { transitivity (markers (polygon_destroyed polygon w1)); [congruence | reflexivity]. }
  assert (Hbd : boundaries w2 = boundaries w).
  { unfold boundaries. rewrite Hed2.
    replace (marker_at w2 <$> edges w) with (marker_at w1 <$> edges w)
      by (unfold marker_at; rewrite Hmk2; reflexivity).
    rewrite Hold. reflexivity. }
  exists w1, w2. split; [exact Hrun1 |]. split; [exact Hrun2 |].
  split; [exact Hed1 |]. split; [exact Hed2 |]. split; [exact Hbd |].
  split.
  { unfold polygon_at.
    replace (polygons w2) with (polygons (polygon_destroyed polygon w1)) by congruence.
    unfold polygon_destroyed. simpl. rewrite Hpoly1, lookup_alter_eq, lookup_insert_eq.
    reflexivity. }
  rewrite Hlog2, Hof, Hbd. reflexivity.
Qed.

(** X7, for a triangle drawn beside the polygon of the demonstration. *)
Lemma create_then_destroy_restores_edges_witness :
  let l := [mkLatLng 1 1; mkLatLng 5 1; mkLatLng 5 5] in
  let parts := [mkPoint 1 1; mkPoint 5 1; mkPoint 5 5] in
  attached Demo.drawn
  /\ callback_ok Demo.drawn
  /\ Forall (fun e => (e <= lastId Demo.drawn)%nat) (edges Demo.drawn)
  /\ Forall (fun m => (_polygon m <= lastId Demo.drawn)%nat) (edge_markers Demo.drawn)
  /\ @polygon_parts Demo.host (smoothFactor (options Demo.drawn)) l = Some parts
  /\ (let polygon := S (lastId Demo.drawn) in
      exists w1 w2,
        @createPolygon Demo.host l Demo.drawn = (Returned polygon, w1)
        /\ destroyPolygon polygon w1 = (Returned JsUndefined, w2)
        /\ edges w1 = edges Demo.drawn ++ seq (S polygon) (length parts)
        /\ edges w2 = edges Demo.drawn
        /\ boundaries w2 = boundaries Demo.drawn
        /\ _container (polygon_at w2 polygon) = false
        /\ log w2 = log w1 ++ ContainerRemove polygon
                      :: (IconRemove <$> seq (S polygon) (length parts))
                      ++ [CallMarkersFn (boundaries Demo.drawn)]).
Proof.
  intros l parts.
  assert (H1 : attached Demo.drawn) by (split; eexists; reflexivity).
  assert (H2 : callback_ok Demo.drawn) by (intros latLngs' call Hcall; inversion Hcall).
  assert (H3 : Forall (fun e => (e <= lastId Demo.drawn)%nat) (edges Demo.drawn))
    by (repeat constructor; simpl; lia).
  assert (H4 : Forall (fun m => (_polygon m <= lastId Demo.drawn)%nat)
                 (edge_markers Demo.drawn))
    by (repeat constructor; simpl; lia).
  assert (H5 : @polygon_parts Demo.host (smoothFactor (options Demo.drawn)) l = Some parts)
    by reflexivity.
  repeat (split; [assumption |]).
  exact (@create_then_destroy_restores_edges Demo.host l parts Demo.drawn H1 H2 H3 H4 H5).
Defined.

(** ** Changing the mode *)

(** X8.  On an editor that has its map, and with a callback that behaves
    where it is called, [setMode(mode)] returns and calls the callback
    exactly when an update of the boundaries is pending and [mode] has no
    EDIT bit: once, with the boundaries of the moment, and the update is no
    longer pending afterwards.  With the EDIT bit in [mode] a pending update
    stays pending and the callback is not called.  Edges, polygons, options
    and trace are not touched either way. *)
Theorem setMode_delivers_pending_update (w : World) (m : Z) :
  is_Some (map_ w) ->
  (notification_due m w = true -> callback_ok w) ->
  exists w',
    setMode m w = (Returned tt, w')
    /\ log w' = log w ++ (if notification_due m w then [CallMarkersFn (boundaries w)] else [])
    /\ boundaryUpdateRequired w'
       = boundaryUpdateRequired w && truthy (js_band m MODES.EDIT)
    /\ beside_mode w' = beside_mode w.
Proof.
  intros [mp Hmap] Hok.
  destruct (setMode_run m w mp Hmap Hok)
    as (w' & mp' & Hrun & _ & _ & _ & _ & Hbur & Hlog & Hframe & _).
  exists w'. repeat split; assumption.
Qed.

(** X8, for the editor of the demonstration with an update pending, set to
    VIEW mode. *)
Lemma setMode_delivers_pending_update_witness :
  let w := set_boundaryUpdateRequired true Demo.drawn in
  is_Some (map_ w)
  /\ (notification_due MODES.VIEW w = true -> callback_ok w)
  /\ exists w',
       setMode MODES.VIEW w = (Returned tt, w')
       /\ log w' = log w ++ (if notification_due MODES.VIEW w
                             then [CallMarkersFn (boundaries w)] else [])
       /\ boundaryUpdateRequired w'
          = boundaryUpdateRequired w && truthy (js_band MODES.VIEW MODES.EDIT)
       /\ beside_mode w' = beside_mode w.
Proof.
  intros w.
  assert (H1 : is_Some (map_ w)) by (eexists; reflexivity).
  assert (H2 : notification_due MODES.VIEW w = true -> callback_ok w)
    by (intros _ latLngs' call Hcall; inversion Hcall).
  repeat (split; [assumption |]).
  exact (setMode_delivers_pending_update w MODES.VIEW H1 H2).
Defined.

(** X9.  A new editor added to a map.  [L.freeDraw(options)] with an
    options object, followed by [onAdd(map)], returns; the mode is
    [options.mode], or VIEW where that is missing or 0; the options are the
    defaults, whatever was passed; the map has the classes and the handlers
    of that mode; the tracer is a new one with the class [tracer]; the
    callback is not called.  [this.edges] is the array of the prototype: it
    has no edge for the first editor of a page, and holds every edge that
    editors before this one have pushed to that array; after an editor that
    never assigned to [this.edges], these are all the edges of that editor.
    Without an options object, [L.freeDraw()] throws a [TypeError], with the
    default options set and no map. *)
Theorem new_editor_on_map (page : World) (options_mode : option Z) (map : LMap) :
  let m := match options_mode with
           | Some m => if truthy m then m else MODES.VIEW
           | None => MODES.VIEW
           end in
  (exists w' map',
     (freeDraw (Some options_mode) ;; onAdd map) page = (Returned tt, w')
     /\ mode w' = m
     /\ options w' = new_Options
     /\ map_ w' = Some map'
     /\ classList map' = defineClasses m (classList map)
     /\ (dragging map', touchZoom map', doubleClickZoom map', scrollWheelZoom map')
        = (negb (truthy (js_band m MODES.CREATE)), negb (truthy (js_band m MODES.CREATE)),
           negb (truthy (js_band m MODES.CREATE)), negb (truthy (js_band m MODES.CREATE)))
     /\ layers map' = layers map
     /\ svg w' = Some (mkSvg "tracer" [])
     /\ edges w' = prototype_edges page
     /\ (proto_edges page = None -> edges w' = edges page)
     /\ (latLngs w', creating w', movingEdge w', boundaryUpdateRequired w')
        = ([], false, None, false)
     /\ log w' = log page)
  /\ prototype_edges prototype = []
  /\ (exists w',
        freeDraw None page = (Thrown (TypeError "options is undefined"), w')
        /\ options w' = new_Options
        /\ map_ w' = None
        /\ log w' = log page).
Proof.
  intros m. split; [| split; [reflexivity |]].
  - assert (Hinit : freeDraw (Some options_mode) page
                    = (Returned tt, set_mode m (instance page))).
    { unfold freeDraw, initialize. rewrite !bind_modify, bind_get. unfold setMode.
      rewrite bind_modify, bind_get. unfold m. simpl.
      destruct options_mode as [z|]; [destruct (truthy z) |]; reflexivity. }
    rewrite (bind_returned _ _ _ _ _ Hinit).
    assert (Htruthy : truthy m = true).
    { unfold m. destruct options_mode as [z|]; [destruct (truthy z) eqn:E |];
        [exact E | reflexivity | reflexivity]. }
    unfold onAdd, createD3. rewrite !bind_modify, bind_get. simpl mode. rewrite Htruthy.
    unfold setMode. rewrite bind_modify, bind_get.
    eexists _, _. split; [reflexivity |]. simpl.
    split; [reflexivity |]. split; [reflexivity |]. split; [reflexivity |].
    split; [reflexivity |]. split; [reflexivity |]. split; [reflexivity |].
    split; [reflexivity |]. split; [reflexivity |].
    split; [intros Hnone; unfold prototype_edges; rewrite Hnone; reflexivity |].
    split; reflexivity.
  - unfold freeDraw, initialize. rewrite !bind_modify.
    eexists. split; [reflexivity |]. repeat split.
Qed.

(** ** Gestures on the map *)



(** X11.  A gesture that draws nothing: on an editor with no edge grabbed,
    no trace in progress and fewer than three points left in
    [this.latLngs], when the press is not let through (the right button, or
    an edge exists and only one polygon is allowed) or the mode has no
    CREATE bit, then the press, any moves of the pointer and the release
    all return, no polygon and no edge is made, the tracer gets no path and
    the callback is not called. *)
Theorem gesture_without_drawing `{host : Leaflet}
    (button : Z) (down : Point) (positions : list Point) (w : World) :
  movingEdge w = None ->
  creating w = false ->
  (length (latLngs w) < 3)%nat ->
  mousedown_accepted button w = false
  \/ truthy (js_band (mode w) MODES.CREATE) = false ->
  exists w',
    gesture button down positions w = (Returned tt, w')
    /\ creating w' = false
    /\ svg w' = svg w
    /\ beside_trace w' = beside_trace w.
Proof.
  intros Hmoving Hcreating Hshort Hno. unfold gesture.
  assert (Hdown : exists w1,
            onMouseDown button (x down) (y down) w = (Returned tt, w1)
            /\ movingEdge w1 = None /\ creating w1 = false
            /\ (length (latLngs w1) < 3)%nat
            /\ svg w1 = svg w /\ beside_trace w1 = beside_trace w).
  { destruct (mousedown_accepted button w) eqn:Hacc.
    - destruct Hno as [Hno|Hno]; [discriminate |].
      rewrite (onMouseDown_accepted _ _ _ _ Hacc), Hno.
      eexists. split; [reflexivity |]. simpl. repeat split; try assumption. lia.
    - rewrite (onMouseDown_refused _ _ _ _ Hacc).
      exists w. repeat split; assumption. }
  destruct Hdown as (w1 & Hrun1 & Hmoving1 & Hcreating1 & Hshort1 & Hsvg1 & Hb1).
  rewrite (bind_returned _ _ _ _ _ Hrun1).
  rewrite (bind_returned _ _ _ _ _ (mouse_moves_idle positions w1 Hmoving1 Hcreating1)).
  unfold onMouseUpAndMouseLeave. rewrite bind_get, Hmoving1.
  unfold _createMouseUp. rewrite bind_modify, bind_get. simpl.
  exists (set_creating false w1).
  split.
  { destruct (latLngs w1) as [|a [|b [|c l]]]; try reflexivity. simpl in Hshort1. lia. }
  split; [reflexivity |]. split; [exact Hsvg1 | exact Hb1].
Qed.

(** X11, for a gesture with the right button on the editor of the
    demonstration. *)
Lemma gesture_without_drawing_witness :
  let down := mkPoint 10 10 in
  let positions := [mkPoint 50 10; mkPoint 50 50; mkPoint 10 50; mkPoint 10 10] in
  let w := Demo.attached in
  movingEdge w = None
  /\ creating w = false
  /\ (length (latLngs w) < 3)%nat
  /\ (mousedown_accepted 2 w = false
      \/ truthy (js_band (mode w) MODES.CREATE) = false)
  /\ exists w',
       @gesture Demo.host 2 down positions w = (Returned tt, w')
       /\ creating w' = false
       /\ svg w' = svg w
       /\ beside_trace w' = beside_trace w.
Proof.
  intros down positions w.
  assert (H1 : movingEdge w = None) by reflexivity.
  assert (H2 : creating w = false) by reflexivity.
  assert (H3 : (length (latLngs w) < 3)%nat) by (simpl; lia).
  assert (H4 : mousedown_accepted 2 w = false
               \/ truthy (js_band (mode w) MODES.CREATE) = false)
    by (left; reflexivity).
  repeat (split; [assumption |]).
  exact (@gesture_without_drawing Demo.host 2 down positions w H1 H2 H3 H4).
Defined.



(** X13.  With [createExitMode] set, finishing a polygon flips the CREATE
    bit of the mode and nothing else of it: on an editor in one of the
    sixteen modes that has its map and its tracer, with a callback that
    behaves, no hull algorithm and a trace of three points or more that the
    host renders a part for, [_createMouseUp] returns, the mode has gone
    through [setMode] to the old mode with its CREATE bit flipped, and the
    map's dragging and zoom handlers are enabled exactly if the CREATE bit
    was set before.  Where the host renders nothing for the trace,
    [_createMouseUp] throws the [TypeError] of [attachEdges] before it gets
    to the mode: the mode is as it was and the closed trace is kept.  No
    edge there is has an identifier above the last one handed out, as in
    every state of X1. *)
Theorem finalization_flips_create_bit `{host : Leaflet}
    (w : World) (first second third : LatLng) (rest : list LatLng) :
  attached w ->
  callback_ok w ->
  Forall (fun e => (e <= lastId w)%nat) (edges w) ->
  latLngs w = first :: second :: third :: rest ->
  hull_disabled (options w) = true ->
  createExitMode (options w) = true ->
  0 <= mode w <= 15 ->
  match polygon_parts (smoothFactor (options w)) (latLngs w ++ [first]) with
  | Some _ =>
      exists w' map',
        _createMouseUp w = (Returned tt, w')
        /\ mode w' = Z.lxor (mode w) 2
        /\ Z.testbit (mode w') 1 = negb (Z.testbit (mode w) 1)
        /\ map_ w' = Some map'
        /\ (dragging map', touchZoom map', doubleClickZoom map', scrollWheelZoom map')
           = (Z.testbit (mode w) 1, Z.testbit (mode w) 1,
              Z.testbit (mode w) 1, Z.testbit (mode w) 1)
  | None =>
      exists w',
        _createMouseUp w = (Thrown (TypeError "parts is undefined"), w')
        /\ mode w' = mode w
        /\ latLngs w' = latLngs w ++ [first]
        /\ edges w' = edges w
  end.
Proof.
  intros Hw Hok He Hl Hhull Hexit Hmode.
  destruct (polygon_parts (smoothFactor (options w)) (latLngs w ++ [first]))
    as [parts|] eqn:Hparts.
  - destruct (createMouseUp_run w first second third rest parts Hw Hok He Hl Hhull Hparts)
      as (w' & Hrun & _ & _ & _ & _ & _ & _ & Hm & _ & _ & Hmap).
    rewrite Hexit in Hm, Hmap.
    destruct (Hmap eq_refl) as (map' & Hmap' & Hhandlers).
    destruct (create_bit_flip (mode w) Hmode) as (Hxor & Hbit & Hflip & _).
    exists w', map'. split; [exact Hrun |].
    split; [rewrite Hm; exact Hxor |].
    split; [rewrite Hm, Hxor; exact Hflip |].
    split; [exact Hmap' |].
    rewrite Hhandlers, Hbit. reflexivity.
  - destruct (createMouseUp_unrendered w first second third rest Hw Hl Hhull Hparts)
      as (w' & Hrun & _ & Hl' & _ & Hkeep).
    exists w'. split; [exact Hrun |].
    split; [congruence |]. split; [exact Hl' | congruence].
Qed.

(** X13, for the release after the trace of the demonstration. *)
Lemma finalization_flips_create_bit_witness :
  let w := Demo.traced in
  attached w
  /\ callback_ok w
  /\ Forall (fun e => (e <= lastId w)%nat) (edges w)
  /\ latLngs w = mkLatLng 50 10 :: mkLatLng 50 50 :: mkLatLng 10 50 :: [mkLatLng 10 10]
  /\ hull_disabled (options w) = true
  /\ createExitMode (options w) = true
  /\ 0 <= mode w <= 15
  /\ is_Some (@polygon_parts Demo.host (smoothFactor (options w))
                (latLngs w ++ [mkLatLng 50 10]))
  /\ exists w' map',
       @_createMouseUp Demo.host w = (Returned tt, w')
       /\ mode w' = Z.lxor (mode w) 2
       /\ Z.testbit (mode w') 1 = negb (Z.testbit (mode w) 1)
       /\ map_ w' = Some map'
       /\ (dragging map', touchZoom map', doubleClickZoom map', scrollWheelZoom map')
          = (Z.testbit (mode w) 1, Z.testbit (mode w) 1,
             Z.testbit (mode w) 1, Z.testbit (mode w) 1).
Proof.
  intros w.
  assert (H1 : attached w) by (split; eexists; reflexivity).
  assert (H2 : callback_ok w) by (intros latLngs' call Hcall; inversion Hcall).
  assert (H3 : Forall (fun e => (e <= lastId w)%nat) (edges w)) by constructor.
  assert (H4 : latLngs w
               = mkLatLng 50 10 :: mkLatLng 50 50 :: mkLatLng 10 50 :: [mkLatLng 10 10])
    by reflexivity.
  assert (H5 : hull_disabled (options w) = true) by reflexivity.
  assert (H6 : createExitMode (options w) = true) by reflexivity.
  assert (H7 : 0 <= mode w <= 15) by (simpl; lia).
  assert (H8 : is_Some (@polygon_parts Demo.host (smoothFactor (options w))
                          (latLngs w ++ [mkLatLng 50 10]))) by (eexists; reflexivity).
  repeat (split; [assumption |]).
  pose proof (@finalization_flips_create_bit Demo.host w _ _ _ _ H1 H2 H3 H4 H5 H6 H7) as H.
  destruct H8 as [parts H8]. rewrite H8 in H. exact H.
Defined.

(** ** Finishing a trace with a hull algorithm *)

(** X14.  With the concave hull configured, on an editor that has its map
    and its tracer and a callback that behaves, [_createMouseUp] on a trace
    of three points or more hands the hull the trace with its first point
    appended, and makes the polygon from what [getLatLngs] of the hull
    gives for that — not from the trace, although the first point has been
    appended to the trace a second time by then.  The hull object has been
    given the map.  Where the host renders a part for these points,
    [_createMouseUp] returns, the polygon has an edge for every point of
    the part, and the trace is empty and [creating] is unset afterwards.
    No edge there is has an identifier above the last one handed out, as
    in every state of X1. *)
Theorem concave_hull_finalization `{host : Leaflet}
    (w : World) (first second third : LatLng) (rest : list LatLng)
    (parts : list Point) :
  attached w ->
  callback_ok w ->
  Forall (fun e => (e <= lastId w)%nat) (edges w) ->
  latLngs w = first :: second :: third :: rest ->
  hullAlgorithm (options w) = HullName wildhoneyConcaveHull ->
  let polygon := S (lastId w) in
  let shape := getLatLngs (latLngs w ++ [first]) in
  polygon_parts (smoothFactor (options w)) shape = Some parts ->
  exists w',
    _createMouseUp w = (Returned tt, w')
    /\ polygons w'
       = <[polygon := created_polygon polygon shape parts 1]>
           (polygons w)
    /\ edges w' = edges w ++ seq (S polygon) (length parts)
    /\ (exists evs, log w' = log w ++ NewPolygon polygon shape :: evs)
    /\ (latLngs w', creating w', hull_map w') = ([], false, true).
Proof.
  intros Hw Hok He Hl Hhull polygon shape Hparts.
  rewrite (createMouseUp_unfold w first second third rest Hl), Hhull.
  unfold setMap, hull_call, hull_wildhoneyConcaveHull.
  repeat (rewrite bind_bind || rewrite bind_modify).
  rewrite bind_get.
  change (latLngs (set_hull_map true (set_creating false w))) with (latLngs w).
  rewrite Hl.
  repeat (rewrite bind_bind || rewrite bind_modify || rewrite bind_ret).
  rewrite <- Hl.
  match goal with |- context [close_and_create _ _ ?W] => set (w1 := W) end.
  destruct (close_and_create_run w1 first (Some shape) parts)
    as (w' & Hrun & Hl' & Hpoly & Hed & _ & _ & _ & Hkeep & Hlog);
    [exact Hw | exact Hok | exact He | exact Hparts |].
  exists w'. split; [exact Hrun |].
  split; [exact Hpoly |].
  split; [exact Hed |].
  split; [eexists; rewrite Hlog; reflexivity |].
  rewrite Hl'. injection Hkeep as Hc _ Hh. rewrite Hc, Hh. reflexivity.
Qed.

(** X14, for the trace of the demonstration with the concave hull
    configured. *)
Lemma concave_hull_finalization_witness :
  let w := DemoHull.traced_after_typo in
  attached w
  /\ callback_ok w
  /\ Forall (fun e => (e <= lastId w)%nat) (edges w)
  /\ latLngs w = mkLatLng 50 10 :: mkLatLng 50 50 :: mkLatLng 10 50 :: [mkLatLng 10 10]
  /\ hullAlgorithm (options w) = HullName wildhoneyConcaveHull
  /\ (let polygon := S (lastId w) in
      let shape := @getLatLngs Demo.host (latLngs w ++ [mkLatLng 50 10]) in
      let parts := [mkPoint 50 10; mkPoint 50 50; mkPoint 10 50] in
      @polygon_parts Demo.host (smoothFactor (options w)) shape = Some parts
      /\ exists w',
        @_createMouseUp Demo.host w = (Returned tt, w')
        /\ polygons w'
           = <[polygon := @created_polygon Demo.host polygon shape parts 1]> (polygons w)
        /\ edges w' = edges w ++ seq (S polygon) (length parts)
        /\ (exists evs, log w' = log w ++ NewPolygon polygon shape :: evs)
        /\ (latLngs w', creating w', hull_map w') = ([], false, true)).
Proof.
  intros w.
  assert (H1 : attached w) by (split; eexists; reflexivity).
  assert (H2 : callback_ok w) by (intros latLngs' call Hcall; inversion Hcall).
  assert (H3 : Forall (fun e => (e <= lastId w)%nat) (edges w)) by constructor.
  assert (H4 : latLngs w
               = mkLatLng 50 10 :: mkLatLng 50 50 :: mkLatLng 10 50 :: [mkLatLng 10 10])
    by reflexivity.
  assert (H5 : hullAlgorithm (options w) = HullName wildhoneyConcaveHull) by reflexivity.
  repeat (split; [assumption |]).
  intros polygon shape parts.
  assert (H6 : @polygon_parts Demo.host (smoothFactor (options w)) shape = Some parts)
    by reflexivity.
  split; [exact H6 |].
  exact (@concave_hull_finalization Demo.host w _ _ _ _ parts H1 H2 H3 H4 H5 H6).
Defined.

(** X15.  With the convex hull configured, on an editor that has its map
    and its tracer and a callback that behaves, [_createMouseUp] on a trace
    of three points or more whose hull has a point makes the polygon from
    the points of the hull of the trace and the first hull point once more,
    each taken through [containerPointToLatLng]; the hull is computed from
    the trace taken through [latLngToContainerPoint], before the trace is
    closed.  The hull object has been given the map.  Where the host
    renders a part for these points, [_createMouseUp] returns, the polygon
    has an edge for every point of the part, and the trace is empty and
    [creating] is unset afterwards.  No edge there is has an identifier
    above the last one handed out, as in every state of X1. *)
Theorem convex_hull_finalization `{host : Leaflet}
    (w : World) (first second third : LatLng) (rest : list LatLng)
    (corner : Point) (corners : list Point) (parts : list Point) :
  attached w ->
  callback_ok w ->
  Forall (fun e => (e <= lastId w)%nat) (edges w) ->
  latLngs w = first :: second :: third :: rest ->
  hullAlgorithm (options w) = HullName brian3kbGrahamScan ->
  convex_hull_points (latLngs w) = corner :: corners ->
  let polygon := S (lastId w) in
  let shape := containerPointToLatLng <$> (corner :: corners ++ [corner]) in
  polygon_parts (smoothFactor (options w)) shape = Some parts ->
  exists w',
    _createMouseUp w = (Returned tt, w')
    /\ polygons w'
       = <[polygon := created_polygon polygon shape parts 1]>
           (polygons w)
    /\ edges w' = edges w ++ seq (S polygon) (length parts)
    /\ (exists evs, log w' = log w ++ NewPolygon polygon shape :: evs)
    /\ (latLngs w', creating w', hull_map w') = ([], false, true).
Proof.
  intros Hw Hok He Hl Hhull Hcorners polygon shape Hparts.
  rewrite (createMouseUp_unfold w first second third rest Hl), Hhull.
  unfold setMap, hull_call, hull_brian3kbGrahamScan.
  repeat (rewrite bind_bind || rewrite bind_modify).
  rewrite bind_get.
  change (latLngs (set_hull_map true (set_creating false w))) with (latLngs w).
  unfold convex_hull_points in Hcorners. rewrite Hcorners.
  repeat (rewrite bind_bind || rewrite bind_modify || rewrite bind_ret).
  match goal with |- context [close_and_create _ _ ?W] => set (w1 := W) end.
  destruct (close_and_create_run w1 first (Some shape) parts)
    as (w' & Hrun & Hl' & Hpoly & Hed & _ & _ & _ & Hkeep & Hlog);
    [exact Hw | exact Hok | exact He | exact Hparts |].
  exists w'. split; [exact Hrun |].
  split; [exact Hpoly |].
  split; [exact Hed |].
  split; [eexists; rewrite Hlog; reflexivity |].
  rewrite Hl'. injection Hkeep as Hc _ Hh. rewrite Hc, Hh. reflexivity.
Qed.

(** X15, for the trace of the demonstration with the convex hull
    configured. *)
Lemma convex_hull_finalization_witness :
  let w := DemoConvex.traced in
  let corner := mkPoint 50 10 in
  let corners := [mkPoint 50 50; mkPoint 10 50] in
  attached w
  /\ callback_ok w
  /\ Forall (fun e => (e <= lastId w)%nat) (edges w)
  /\ latLngs w = mkLatLng 50 10 :: mkLatLng 50 50 :: mkLatLng 10 50 :: [mkLatLng 10 10]
  /\ hullAlgorithm (options w) = HullName brian3kbGrahamScan
  /\ @convex_hull_points Demo.host (latLngs w) = corner :: corners
  /\ (let polygon := S (lastId w) in
      let shape := @containerPointToLatLng Demo.host <$> (corner :: corners ++ [corner]) in
      let parts := corner :: corners ++ [corner] in
      @polygon_parts Demo.host (smoothFactor (options w)) shape = Some parts
      /\ exists w',
        @_createMouseUp Demo.host w = (Returned tt, w')
        /\ polygons w'
           = <[polygon := @created_polygon Demo.host polygon shape parts 1]> (polygons w)
        /\ edges w' = edges w ++ seq (S polygon) (length parts)
        /\ (exists evs, log w' = log w ++ NewPolygon polygon shape :: evs)
        /\ (latLngs w', creating w', hull_map w') = ([], false, true)).
Proof.
  intros w corner corners.
  assert (H1 : attached w) by (split; eexists; reflexivity).
  assert (H2 : callback_ok w) by (intros latLngs' call Hcall; inversion Hcall).
  assert (H3 : Forall (fun e => (e <= lastId w)%nat) (edges w)) by constructor.
  assert (H4 : latLngs w
               = mkLatLng 50 10 :: mkLatLng 50 50 :: mkLatLng 10 50 :: [mkLatLng 10 10])
    by reflexivity.
  assert (H5 : hullAlgorithm (options w) = HullName brian3kbGrahamScan) by reflexivity.
  assert (H6 : @convex_hull_points Demo.host (latLngs w) = corner :: corners)
    by reflexivity.
  repeat (split; [assumption |]).
  intros polygon shape parts.
  assert (H7 : @polygon_parts Demo.host (smoothFactor (options w)) shape = Some parts)
    by reflexivity.
  split; [exact H7 |].
  exact (@convex_hull_finalization Demo.host w _ _ _ _ corner corners parts
           H1 H2 H3 H4 H5 H6 H7).
Defined.

(** ** Dragging an edge *)



(** X17.  With [boundariesAfterEdit] set and a callback that behaves, the
    update a drag leaves pending is delivered once: the drag of an edge of
    [this.edges] does not call the callback; the next [setMode] to a mode
    without the EDIT bit calls it once, with the boundaries of that moment,
    which hold the position the edge was dragged to; and a [setMode] after
    that, to whatever mode, does not call it again. *)
Theorem pending_update_is_delivered_once `{host : Leaflet}
    (edge : ref) (positions : list Point) (w : World) (m m' : Z) :
  is_Some (map_ w) ->
  is_Some (markers w !! edge) ->
  edge ∈ edges w ->
  callback_ok w ->
  boundariesAfterEdit (options w) = true ->
  truthy (js_band m MODES.EDIT) = false ->
  exists w1 w2 w3,
    drag edge positions w = (Returned tt, w1)
    /\ setMode m w1 = (Returned tt, w2)
    /\ setMode m' w2 = (Returned tt, w3)
    /\ log w1 = log w ++ replicate (length positions) (Redraw (owner w edge))
    /\ log w2 = log w1 ++ [CallMarkersFn (boundaries w1)]
    /\ (exists group,
          Some group ∈ boundaries w1
          /\ match last positions with
             | Some p => containerPointToLatLng p
             | None => _latlng (marker_at w edge)
             end ∈ group)
    /\ log w3 = log w2
    /\ boundaryUpdateRequired w1 = true
    /\ boundaryUpdateRequired w3 = false.
Proof.
  intros Hmap [mk Hmk] Hin Hok Hafter Hm.
  destruct (drag_run edge positions w mk Hmap Hmk (fun _ => Hok))
    as (w1 & Hrun1 & _ & Hedge1 & _ & Hkeep1 & Hlog1 & Hbur1 & [mp1 Hmap1] & Hok1).
  rewrite Hafter in Hlog1, Hbur1. simpl in Hbur1. rewrite app_nil_r in Hlog1.
  destruct (setMode_run m w1 mp1 Hmap1 (fun _ => Hok1 Hok))
    as (w2 & mp2 & Hrun2 & _ & Hmap2 & _ & _ & Hbur2 & Hlog2 & _ & _ & Hok2).
  unfold notification_due in Hlog2. rewrite Hbur1, Hm in Hlog2, Hbur2.
  simpl in Hlog2, Hbur2.
  destruct (setMode_run m' w2 mp2 Hmap2 (fun _ => Hok2 (Hok1 Hok)))
    as (w3 & mp3 & Hrun3 & _ & _ & _ & _ & Hbur3 & Hlog3 & _).
  unfold notification_due in Hlog3. rewrite Hbur2 in Hlog3, Hbur3.
  simpl in Hlog3, Hbur3. rewrite app_nil_r in Hlog3.
  assert (Hheld : exists group,
            Some group ∈ boundaries w1 /\ _latlng (marker_at w1 edge) ∈ group).
  { apply boundaries_hold. replace (edges w1) with (edges w) by congruence. exact Hin. }
  assert (Hpos : _latlng (marker_at w1 edge)
                 = match last positions with
                   | Some p => containerPointToLatLng p
                   | None => _latlng (marker_at w edge)
                   end).
  { unfold marker_at. rewrite Hedge1, Hmk. destruct (last positions); reflexivity. }
  rewrite Hpos in Hheld.
  exists w1, w2, w3. repeat split; assumption.
Qed.

(** X17, for a drag of the first edge of the polygon of the demonstration
    with [setBoundariesAfterEdit(true)], followed by [setMode(VIEW)] and
    [setMode(DELETE)]. *)
Lemma pending_update_is_delivered_once_witness :
  let w := set_options (setBoundariesAfterEdit true (options Demo.drawn)) Demo.drawn in
  let positions := [mkPoint 12 12; mkPoint 15 15] in
  is_Some (map_ w)
  /\ is_Some (markers w !! 2%nat)
  /\ 2%nat ∈ edges w
  /\ callback_ok w
  /\ boundariesAfterEdit (options w) = true
  /\ truthy (js_band MODES.VIEW MODES.EDIT) = false
  /\ exists w1 w2 w3,
       @drag Demo.host 2%nat positions w = (Returned tt, w1)
       /\ setMode MODES.VIEW w1 = (Returned tt, w2)
       /\ setMode MODES.DELETE w2 = (Returned tt, w3)
       /\ log w1 = log w ++ replicate (length positions) (Redraw (owner w 2%nat))
       /\ log w2 = log w1 ++ [CallMarkersFn (boundaries w1)]
       /\ (exists group,
             Some group ∈ boundaries w1
             /\ match last positions with
                | Some p => @containerPointToLatLng Demo.host p
                | None => _latlng (marker_at w 2%nat)
                end ∈ group)
       /\ log w3 = log w2
       /\ boundaryUpdateRequired w1 = true
       /\ boundaryUpdateRequired w3 = false.
Proof.
  intros w positions.
  assert (H1 : is_Some (map_ w)) by (eexists; reflexivity).
  assert (H2 : is_Some (markers w !! 2%nat)) by (eexists; reflexivity).
  assert (H3 : 2%nat ∈ edges w) by (vm_compute; left).
  assert (H4 : callback_ok w) by (intros latLngs' call Hcall; inversion Hcall).
  assert (H5 : boundariesAfterEdit (options w) = true) by reflexivity.
  assert (H6 : truthy (js_band MODES.VIEW MODES.EDIT) = false) by reflexivity.
  repeat (split; [assumption |]).
  exact (@pending_update_is_delivered_once Demo.host 2%nat positions w
           MODES.VIEW MODES.DELETE H1 H2 H3 H4 H5 H6).
Defined.

(** ** Plotting markers *)

(** X18.  Markers do not pile up: on an editor that has its map, two calls
    of [setMarkers] with positions and icons it accepts both return, and
    afterwards the marker layer is the layer group of the second call,
    holding a marker for each position of the second call, in their order
    and with the icon of the second call, and nothing of the first call;
    that group is on the map and the group of the first call is not.
    Nothing of the editor but the marker layer and the layers of the map
    has changed. *)
Theorem setMarkers_keeps_last_call_only
    (w : World) (earlier positions : list LatLng) (icon0 icon : IconArg) :
  is_Some (map_ w) ->
  icon_ok icon0 = true ->
  icon_ok icon = true ->
  exists w' map',
    (setMarkers (MarkersArray (EntryLatLng <$> earlier)) icon0 ;;
     setMarkers (MarkersArray (EntryLatLng <$> positions)) icon) w = (Returned tt, w')
    /\ markerLayer w'
       = mkLayerGroup (S (S (lastId w))) ((fun ll => (ll, icon_of icon)) <$> positions)
    /\ map_ w' = Some map'
    /\ S (S (lastId w)) ∈ layers map'
    /\ (S (lastId w) ∉ layers map')
    /\ beside_markers w' = beside_markers w.
Proof.
  intros [m Hm] Hicon0 Hicon.
  rewrite (bind_returned _ _ _ _ _ (setMarkers_run earlier icon0 w m Hm Hicon0)).
  match goal with |- context [setMarkers _ _ ?W] => set (w1 := W) end.
  assert (Hm1 : map_ w1
                = Some (addLayer (S (lastId w)) (removeLayer (lg_id (markerLayer w)) m)))
    by reflexivity.
  rewrite (setMarkers_run positions icon w1 _ Hm1 Hicon).
  eexists _, _. split; [reflexivity |].
  split; [reflexivity |].
  split; [reflexivity |].
  change (lg_id (markerLayer w1)) with (S (lastId w)).
  change (lastId w1) with (S (lastId w)).
  set (m1 := addLayer (S (lastId w)) (removeLayer (lg_id (markerLayer w)) m)).
  assert (Hout : S (lastId w) ∉ layers (removeLayer (S (lastId w)) m1)).
  { unfold removeLayer. simpl. intros Hin. apply list_elem_of_filter in Hin.
    destruct Hin as [Hne _]. apply Hne. reflexivity. }
  split; [| split].
  - unfold addLayer. case_decide; [assumption |]. simpl. apply elem_of_app. right. left.
  - unfold addLayer. case_decide; [exact Hout |]. simpl. intros Hin.
    apply elem_of_app in Hin. destruct Hin as [Hin|Hin]; [exact (Hout Hin) |].
    apply list_elem_of_singleton in Hin. lia.
  - pose proof (setMarkers_frame (MarkersArray (EntryLatLng <$> earlier)) icon0
                  (beside_markers w) w eq_refl) as F1.
    rewrite (setMarkers_run earlier icon0 w m Hm Hicon0) in F1.
    pose proof (setMarkers_frame (MarkersArray (EntryLatLng <$> positions)) icon
                  (beside_markers w1) w1 eq_refl) as F2.
    rewrite (setMarkers_run positions icon w1 _ Hm1 Hicon) in F2.
    exact (eq_trans F2 F1).
Qed.

(** X18, for two calls on the editor of the demonstration. *)
Lemma setMarkers_keeps_last_call_only_witness :
  let w := Demo.attached in
  let earlier := [mkLatLng 1 1; mkLatLng 2 2] in
  let positions := [mkLatLng 3 3] in
  is_Some (map_ w)
  /\ icon_ok IconUndefined = true
  /\ icon_ok (IconDivIcon "pin") = true
  /\ exists w' map',
       (setMarkers (MarkersArray (EntryLatLng <$> earlier)) IconUndefined ;;
        setMarkers (MarkersArray (EntryLatLng <$> positions)) (IconDivIcon "pin")) w
       = (Returned tt, w')
       /\ markerLayer w'
          = mkLayerGroup (S (S (lastId w)))
              ((fun ll => (ll, icon_of (IconDivIcon "pin"))) <$> positions)
       /\ map_ w' = Some map'
       /\ S (S (lastId w)) ∈ layers map'
       /\ (S (lastId w) ∉ layers map')
       /\ beside_markers w' = beside_markers w.
Proof.
  intros w earlier positions.
  assert (H1 : is_Some (map_ w)) by (eexists; reflexivity).
  assert (H2 : icon_ok IconUndefined = true) by reflexivity.
  assert (H3 : icon_ok (IconDivIcon "pin") = true) by reflexivity.
  repeat (split; [assumption |]).
  exact (setMarkers_keeps_last_call_only w earlier positions IconUndefined
           (IconDivIcon "pin") H1 H2 H3).
Defined.

(** ** Clicking a polygon *)

(** X19.  The click handler of a polygon deletes only in DELETE mode.
    While the mode has no DELETE bit a click returns and changes nothing.
    While it has, and the callback behaves, a click returns having removed
    the polygon's container and the icons of the polygon's edges, having
    taken exactly those edges out of [this.edges], and having called the
    callback once with the boundaries that are left; the mode stays. *)
Theorem click_deletes_in_delete_mode_only (w : World) (polygon : ref) :
  callback_ok w ->
  (truthy (js_band (mode w) MODES.DELETE) = false ->
   onClick polygon w = (Returned tt, w))
  /\ (truthy (js_band (mode w) MODES.DELETE) = true ->
      exists w',
        onClick polygon w = (Returned tt, w')
        /\ edges w' = edges_beside w polygon
        /\ markers w' = markers w
        /\ mode w' = mode w
        /\ log w' = log w ++ ContainerRemove polygon
                      :: (IconRemove <$> edges_of w polygon)
                      ++ [CallMarkersFn (boundaries w')]).
Proof.
  intros Hok. split; intros Hmode; unfold onClick; rewrite bind_get, Hmode.
  - reflexivity.
  - destruct (destroyPolygon_run polygon w Hok) as (w' & Hrun & Hframe & Hlog & _).
    exists w'. rewrite (bind_returned _ _ _ _ _ Hrun). split; [reflexivity |].
    unfold beside_notify in Hframe.
    split; [transitivity (edges (polygon_destroyed polygon w)); [congruence | reflexivity] |].
    split; [transitivity (markers (polygon_destroyed polygon w)); [congruence | reflexivity] |].
    split; [transitivity (mode (polygon_destroyed polygon w)); [congruence | reflexivity] |].
    exact Hlog.
Qed.

(** X19, for a click on the polygon of the demonstration. *)
Lemma click_deletes_in_delete_mode_only_witness :
  let w := set_mode MODES.DELETE Demo.drawn in
  callback_ok w
  /\ (truthy (js_band (mode w) MODES.DELETE) = false ->
      onClick 1%nat w = (Returned tt, w))
  /\ (truthy (js_band (mode w) MODES.DELETE) = true ->
      exists w',
        onClick 1%nat w = (Returned tt, w')
        /\ edges w' = edges_beside w 1%nat
        /\ markers w' = markers w
        /\ mode w' = mode w
        /\ log w' = log w ++ ContainerRemove 1%nat
                      :: (IconRemove <$> edges_of w 1%nat)
                      ++ [CallMarkersFn (boundaries w')]).
Proof.
  intros w.
  assert (H1 : callback_ok w) by (intros latLngs' call Hcall; inversion Hcall).
  split; [exact H1 |].
  exact (click_deletes_in_delete_mode_only w 1%nat H1).
Defined.

(** ** Choosing the hull algorithm *)

(** X20.  [setHullAlgorithm] with a name the table has selects the method
    the table gives for it and changes no other option; with [false], on a
    table without a key of that name, it leaves no algorithm configured;
    with [true], on a table without a key of that name, it changes nothing.
    It never changes the table, and calling it twice with the same argument
    is the same as calling it once. *)
Theorem setHullAlgorithm_selects_from_table
    (o : Options) (s : string) (name : HullMethod) (a : AlgorithmArg) :
  hullAlgorithms o !! s = Some name ->
  hullAlgorithms o !! "false" = None ->
  hullAlgorithms o !! "true" = None ->
  setHullAlgorithm (AlgString s) o = opt_hullAlgorithm (HullName name) o
  /\ hull_disabled (setHullAlgorithm (AlgString s) o) = false
  /\ hull_disabled (setHullAlgorithm (AlgBool false) o) = true
  /\ setHullAlgorithm (AlgBool true) o = o
  /\ hullAlgorithms (setHullAlgorithm a o) = hullAlgorithms o
  /\ setHullAlgorithm a (setHullAlgorithm a o) = setHullAlgorithm a o.
Proof.
  intros Hs Hfalse Htrue.
  assert (Hsel : setHullAlgorithm (AlgString s) o = opt_hullAlgorithm (HullName name) o).
  { unfold setHullAlgorithm. simpl algorithm_key. rewrite Hs.
    rewrite bool_decide_eq_true_2 by eauto. rewrite andb_false_r. reflexivity. }
  assert (Htable : hullAlgorithms (setHullAlgorithm a o) = hullAlgorithms o).
  { unfold setHullAlgorithm.
    destruct (algorithm_truthy a
              && negb (bool_decide (is_Some (hullAlgorithms o !! algorithm_key a))));
      reflexivity. }
  split; [exact Hsel |].
  split; [rewrite Hsel; reflexivity |].
  split; [unfold setHullAlgorithm; simpl; rewrite Hfalse; reflexivity |].
  split.
  { unfold setHullAlgorithm. simpl. rewrite Htrue.
    rewrite bool_decide_eq_false_2 by (intros [? ?]; discriminate). reflexivity. }
  split; [exact Htable |].
  unfold setHullAlgorithm at 1. rewrite Htable. unfold setHullAlgorithm.
  destruct (algorithm_truthy a
            && negb (bool_decide (is_Some (hullAlgorithms o !! algorithm_key a))));
    reflexivity.
Qed.

(** X20, for the name of the convex hull on the default options. *)
Lemma setHullAlgorithm_selects_from_table_witness :
  let o := new_Options in
  let s := "brian3kb/graham_scan_js"%string in
  let a := AlgString "Wildhoney/ConcaveHull" in
  hullAlgorithms o !! s = Some brian3kbGrahamScan
  /\ hullAlgorithms o !! "false" = None
  /\ hullAlgorithms o !! "true" = None
  /\ setHullAlgorithm (AlgString s) o = opt_hullAlgorithm (HullName brian3kbGrahamScan) o
  /\ hull_disabled (setHullAlgorithm (AlgString s) o) = false
  /\ hull_disabled (setHullAlgorithm (AlgBool false) o) = true
  /\ setHullAlgorithm (AlgBool true) o = o
  /\ hullAlgorithms (setHullAlgorithm a o) = hullAlgorithms o
  /\ setHullAlgorithm a (setHullAlgorithm a o) = setHullAlgorithm a o.
Proof.
  intros o s a.
  assert (H1 : hullAlgorithms o !! s = Some brian3kbGrahamScan) by reflexivity.
  assert (H2 : hullAlgorithms o !! "false" = None) by reflexivity.
  assert (H3 : hullAlgorithms o !! "true" = None) by reflexivity.
  repeat (split; [assumption |]).
  exact (setHullAlgorithm_selects_from_table o s brian3kbGrahamScan a H1 H2 H3).
Defined.

(** ** One mode after another *)

(** X21.  The last mode set is the one that shows: on an editor that has
    its map, with a callback that behaves, [setMode(m)] followed by
    [setMode(m')] leaves the mode, the classes of the map's container (also
    their order), the state of the map's handlers, the edges, the polygons
    and the options as [setMode(m')] alone does.  In particular the classes
    of the mode that was left are all gone, and setting the same mode twice
    shows the same as setting it once. *)
Theorem setMode_last_mode_wins (w : World) (m m' : Z) :
  is_Some (map_ w) ->
  callback_ok w ->
  exists w1 w2 w' map2 map',
    setMode m w = (Returned tt, w1)
    /\ setMode m' w1 = (Returned tt, w2)
    /\ setMode m' w = (Returned tt, w')
    /\ map_ w2 = Some map2
    /\ map_ w' = Some map'
    /\ mode w2 = mode w'
    /\ classList map2 = classList map'
    /\ (dragging map2, touchZoom map2, doubleClickZoom map2, scrollWheelZoom map2)
       = (dragging map', touchZoom map', doubleClickZoom map', scrollWheelZoom map')
    /\ beside_mode w2 = beside_mode w'.
Proof.
  intros [mp Hmap] Hok.
  destruct (setMode_run m w mp Hmap (fun _ => Hok))
    as (w1 & mp1 & Hrun1 & _ & Hmap1 & Hclass1 & _ & _ & _ & Hframe1 & _ & Hok1).
  destruct (setMode_run m' w1 mp1 Hmap1 (fun _ => Hok1 Hok))
    as (w2 & mp2 & Hrun2 & Hmode2 & Hmap2 & Hclass2 & Hhandlers2 & _ & _ & Hframe2 & _).
  destruct (setMode_run m' w mp Hmap (fun _ => Hok))
    as (w' & mp' & Hrun' & Hmode' & Hmap' & Hclass' & Hhandlers' & _ & _ & Hframe' & _).
  exists w1, w2, w', mp2, mp'.
  split; [exact Hrun1 |]. split; [exact Hrun2 |]. split; [exact Hrun' |].
  split; [exact Hmap2 |]. split; [exact Hmap' |].
  split; [congruence |].
  split; [rewrite Hclass2, Hclass1, Hclass'; apply defineClasses_last |].
  split; [congruence |].
  congruence.
Qed.

(** X21, for VIEW after EDIT on the editor of the demonstration. *)
Lemma setMode_last_mode_wins_witness :
  let w := Demo.drawn in
  is_Some (map_ w)
  /\ callback_ok w
  /\ exists w1 w2 w' map2 map',
       setMode MODES.EDIT w = (Returned tt, w1)
       /\ setMode MODES.VIEW w1 = (Returned tt, w2)
       /\ setMode MODES.VIEW w = (Returned tt, w')
       /\ map_ w2 = Some map2
       /\ map_ w' = Some map'
       /\ mode w2 = mode w'
       /\ classList map2 = classList map'
       /\ (dragging map2, touchZoom map2, doubleClickZoom map2, scrollWheelZoom map2)
          = (dragging map', touchZoom map', doubleClickZoom map', scrollWheelZoom map')
       /\ beside_mode w2 = beside_mode w'.
Proof.
  intros w.
  assert (H1 : is_Some (map_ w)) by (eexists; reflexivity).
  assert (H2 : callback_ok w) by (intros latLngs' call Hcall; inversion Hcall).
  repeat (split; [assumption |]).
  exact (setMode_last_mode_wins w MODES.EDIT MODES.VIEW H1 H2).
Defined.

(** ** [attachEdges] is not for a polygon that has its edges *)

(** X22.  [attachEdges] is left out of the calls of X1 and X2 for a reason:
    called from outside for a polygon that has its edges already, it
    returns and adds the edges a second time, behind the edges of the
    polygons made since.  On the demonstration with a square and a
    triangle, where the edges of each polygon stand together and in the
    order of their [_index], the edges of the square then stand on both
    sides of those of the triangle, the [_index] of the square's edges
    starts at 0 twice, and the callback is given three groups for two
    polygons. *)
Example attachEdges_again_breaks_order :
  let w := DemoAgain.two in
  let w' := DemoAgain.again in
  @attachEdges Demo.host 1%nat w = (Returned tt, w')
  /\ contiguous (edge_markers w) /\ index_ordered (edge_markers w)
  /\ _polygonId <$> edge_markers w = [1; 1; 1; 1; 1; 7; 7; 7]
  /\ _polygonId <$> edge_markers w' = [1; 1; 1; 1; 1; 7; 7; 7; 1; 1; 1; 1; 1]
  /\ _index <$> edge_markers w' = [0; 1; 2; 3; 4; 0; 1; 2; 0; 1; 2; 3; 4]%nat
  /\ ~ contiguous (edge_markers w')
  /\ ~ index_ordered (edge_markers w')
  /\ shape_ids (edge_markers w') = [1; 7]
  /\ length (boundaries w') = 3%nat.
Proof.
  intros w w'.
  split; [vm_compute; reflexivity |].
  split. { vm_compute. repeat split; repeat (constructor; [discriminate |]); constructor. }
  split. { cbn. repeat split; repeat (apply Forall_cons_2 || apply Forall_nil_2); cbn;
           first [vm_compute; discriminate | intros _; vm_compute; lia]. }
  split; [reflexivity |]. split; [reflexivity |]. split; [reflexivity |].
  split.
  { intros [H _].
    apply (proj1 (Forall_forall _ _) H (marker_at w' 11%nat)); [| reflexivity].
    vm_compute. repeat constructor. }
  split.
  { intros [H _].
    assert (Hin : marker_at w' 11%nat ∈ marker_at w' <$> [3; 4; 5; 6; 8; 9; 10; 11; 12; 13; 14; 15]%nat)
      by (vm_compute; repeat constructor).
    pose proof (proj1 (Forall_forall _ _) H (marker_at w' 11%nat) Hin eq_refl) as C.
    vm_compute in C. lia. }
  split; reflexivity.
Qed.
